(** * r1sdk: the messaging bridge, the hardware event normalizer and the
      device control gate

    A shallow embedding of
      - [src/llm/index.ts]               (class [R1Messaging]),
      - [src/storage/index.ts]           (class [HardwareEvents]),
      - [src/hardware/device-controls.ts] (class [DeviceControls]),
    over an explicit state that holds the three singleton instances, the
    part of [window] they touch, and the effects a test can observe
    (posted messages, console output, callback invocations). *)

From Stdlib Require Import List String Ascii Bool Arith Lia.
Import ListNotations.
Local Open Scope string_scope.
Local Open Scope list_scope.

Set Implicit Arguments.
Set Warnings "-register-all,-notation-for-abbreviation".

(* ================================================================== *)
(** ** JavaScript [Set] of functions *)

(** A function value is known by its identity alone. *)
Definition Handler := nat.

Module JSSet.

(** The [[SetData]] list of ECMAScript: entries in insertion order;
    [delete] and [clear] leave an emptied slot ([None]) behind, so that
    an iteration in progress keeps its index. *)
Definition t := list (option Handler).

Definition empty : t := [].

Definition holds (h : Handler) (e : option Handler) : bool :=
  match e with
  | Some h' => Nat.eqb h' h
  | None => false
  end.

Definition has (h : Handler) (s : t) : bool := existsb (holds h) s.

Definition add (h : Handler) (s : t) : t :=
  if has h s then s else s ++ [Some h].

Definition delete (h : Handler) (s : t) : t :=
  map (fun e => if holds h e then None else e) s.

Definition clear (s : t) : t := map (fun _ => None) s.

(** The members, in insertion order. *)
Fixpoint values (s : t) : list Handler :=
  match s with
  | [] => []
  | Some h :: r => h :: values r
  | None :: r => values r
  end.

Definition size (s : t) : nat := List.length (values s).

(** No function is held twice. *)
Definition wf (s : t) : Prop := NoDup (values s).

End JSSet.

(* ================================================================== *)
(** ** JavaScript [Map] (keys in insertion order) *)

Module JSMap.
Section WithKey.

Variables K V : Type.
Variable eqb : K -> K -> bool.

Definition t := list (K * V).

Fixpoint get (k : K) (m : t) : option V :=
  match m with
  | [] => None
  | (k', v) :: r => if eqb k' k then Some v else get k r
  end.

Definition has (k : K) (m : t) : bool :=
  match get k m with Some _ => true | None => false end.

Fixpoint replace (k : K) (v : V) (m : t) : t :=
  match m with
  | [] => []
  | (k', v') :: r =>
      if eqb k' k then (k', v) :: r else (k', v') :: replace k v r
  end.

Definition set (k : K) (v : V) (m : t) : t :=
  if has k m then replace k v m else m ++ [(k, v)].

Fixpoint delete (k : K) (m : t) : t :=
  match m with
  | [] => []
  | (k', v) :: r => if eqb k' k then r else (k', v) :: delete k r
  end.

End WithKey.
End JSMap.

(* ================================================================== *)
(** ** [JSON.parse] and [JSON.stringify] *)

Module JSON.

(** The tree [JSON.parse] builds.  Numbers and string literals are kept
    as their lexemes (the text between the quotes, escapes as written):
    nothing below looks inside them. *)
Inductive value :=
| Null
| Bool (b : bool)
| Number (lexeme : string)
| Str (lexeme : string)
| Arr (elements : list value)
| Obj (members : list (string * value)).

Definition is_ws (c : ascii) : bool :=
  let n := nat_of_ascii c in
  Nat.eqb n 32 || Nat.eqb n 9 || Nat.eqb n 10 || Nat.eqb n 13.

Definition is_digit (c : ascii) : bool :=
  let n := nat_of_ascii c in Nat.leb 48 n && Nat.leb n 57.

Definition is_hex (c : ascii) : bool :=
  let n := nat_of_ascii c in
  is_digit c || (Nat.leb 65 n && Nat.leb n 70)
  || (Nat.leb 97 n && Nat.leb n 102).

Definition is_escape (c : ascii) : bool :=
  existsb (Ascii.eqb c) ["034" ; "\" ; "/" ; "b" ; "f" ; "n" ; "r" ; "t"]%char.

Fixpoint skip_ws (s : string) : string :=
  match s with
  | String c r => if is_ws c then skip_ws r else s
  | EmptyString => s
  end.

(** The longest prefix of digits, and what follows it. *)
Fixpoint digits (s : string) : string * string :=
  match s with
  | String c r =>
      if is_digit c then let (d, r') := digits r in (String c d, r')
      else (EmptyString, s)
  | EmptyString => (EmptyString, s)
  end.

Definition digits1 (s : string) : option (string * string) :=
  match digits s with
  | (EmptyString, _) => None
  | p => Some p
  end.

(** int: [0] or a non-zero digit followed by digits. *)
Definition parse_int (s : string) : option (string * string) :=
  match s with
  | String "0" r => Some ("0", r)
  | _ => digits1 s
  end.

Definition parse_frac (s : string) : option (string * string) :=
  match s with
  | String "." r =>
      match digits1 r with
      | Some (d, r') => Some (String "." d, r')
      | None => None
      end
  | _ => Some (EmptyString, s)
  end.

Definition parse_exp (s : string) : option (string * string) :=
  let signed e r :=
    match r with
    | String "+" r1 =>
        match digits1 r1 with
        | Some (d, r') => Some (String e (String "+" d), r')
        | None => None
        end
    | String "-" r1 =>
        match digits1 r1 with
        | Some (d, r') => Some (String e (String "-" d), r')
        | None => None
        end
    | _ =>
        match digits1 r with
        | Some (d, r') => Some (String e d, r')
        | None => None
        end
    end in
  match s with
  | String "e" r => signed "e"%char r
  | String "E" r => signed "E"%char r
  | _ => Some (EmptyString, s)
  end.

Definition parse_unsigned (s : string) : option (string * string) :=
  match parse_int s with
  | Some (i, r1) =>
      match parse_frac r1 with
      | Some (f, r2) =>
          match parse_exp r2 with
          | Some (e, r3) => Some ((i ++ f ++ e)%string, r3)
          | None => None
          end
      | None => None
      end
  | None => None
  end.

Definition parse_number (s : string) : option (string * string) :=
  match s with
  | String "-" r =>
      match parse_unsigned r with
      | Some (n, r') => Some (String "-" n, r')
      | None => None
      end
  | _ => parse_unsigned s
  end.

(** The characters of a string literal after its opening quote, up to
    the closing one. *)
Fixpoint parse_chars (s : string) : option (string * string) :=
  match s with
  | EmptyString => None
  | String c r =>
      if Ascii.eqb c "034" then Some (EmptyString, r)
      else if Ascii.eqb c "\" then
        match r with
        | String e r1 =>
            if is_escape e then
              match parse_chars r1 with
              | Some (b, r') => Some (String c (String e b), r')
              | None => None
              end
            else if Ascii.eqb e "u" then
              match r1 with
              | String h1 (String h2 (String h3 (String h4 r2))) =>
                  if is_hex h1 && is_hex h2 && is_hex h3 && is_hex h4 then
                    match parse_chars r2 with
                    | Some (b, r') =>
                        Some (String c (String e (String h1 (String h2
                                (String h3 (String h4 b))))), r')
                    | None => None
                    end
                  else None
              | _ => None
              end
            else None
        | EmptyString => None
        end
      else if Nat.ltb (nat_of_ascii c) 32 then None
      else
        match parse_chars r with
        | Some (b, r') => Some (String c b, r')
        | None => None
        end
  end.

Definition expect (lit : string) (v : value) (s : string)
  : option (value * string) :=
  if prefix lit s
  then Some (v, substring (String.length lit)
                       (String.length s - String.length lit) s)
  else None.

Fixpoint parse_value (fuel : nat) (s : string) {struct fuel}
  : option (value * string) :=
  match fuel with
  | O => None
  | S f =>
      match skip_ws s with
      | EmptyString => None
      | String c r as s' =>
          if Ascii.eqb c "n" then expect "null" Null s'
          else if Ascii.eqb c "t" then expect "true" (Bool true) s'
          else if Ascii.eqb c "f" then expect "false" (Bool false) s'
          else if Ascii.eqb c "034" then
            match parse_chars r with
            | Some (b, r') => Some (Str b, r')
            | None => None
            end
          else if Ascii.eqb c "[" then
            match skip_ws r with
            | String "]" r' => Some (Arr [], r')
            | _ =>
                match parse_elements f r with
                | Some (vs, r') => Some (Arr vs, r')
                | None => None
                end
            end
          else if Ascii.eqb c "{" then
            match skip_ws r with
            | String "}" r' => Some (Obj [], r')
            | _ =>
                match parse_members f r with
                | Some (ms, r') => Some (Obj ms, r')
                | None => None
                end
            end
          else
            match parse_number s' with
            | Some (n, r') => Some (Number n, r')
            | None => None
            end
      end
  end

(** One or more values separated by commas, then the closing bracket. *)
with parse_elements (fuel : nat) (s : string) {struct fuel}
  : option (list value * string) :=
  match fuel with
  | O => None
  | S f =>
      match parse_value f s with
      | Some (v, r) =>
          match skip_ws r with
          | String "," r' =>
              match parse_elements f r' with
              | Some (vs, r'') => Some (v :: vs, r'')
              | None => None
              end
          | String "]" r' => Some ([v], r')
          | _ => None
          end
      | None => None
      end
  end

(** One or more [string : value] members, then the closing brace. *)
with parse_members (fuel : nat) (s : string) {struct fuel}
  : option (list (string * value) * string) :=
  match fuel with
  | O => None
  | S f =>
      match skip_ws s with
      | String "034" r =>
          match parse_chars r with
          | Some (k, r1) =>
              match skip_ws r1 with
              | String ":" r2 =>
                  match parse_value f r2 with
                  | Some (v, r3) =>
                      match skip_ws r3 with
                      | String "," r4 =>
                          match parse_members f r4 with
                          | Some (ms, r5) => Some ((k, v) :: ms, r5)
                          | None => None
                          end
                      | String "}" r4 => Some ([(k, v)], r4)
                      | _ => None
                      end
                  | None => None
                  end
              | _ => None
              end
          | None => None
          end
      | _ => None
      end
  end.

(** [JSON.parse]: [None] stands for the [SyntaxError] it throws.  A
    chain of recursive calls reads a character at least every second
    call, hence the fuel. *)
Definition parse (s : string) : option value :=
  match parse_value (2 * String.length s + 3) s with
  | Some (v, r) =>
      match skip_ws r with
      | EmptyString => Some v
      | _ => None
      end
  | None => None
  end.

(** [QuoteJSONString], as [JSON.stringify] applies it to a string. *)
Definition hex_digit (n : nat) : ascii :=
  nth n ["0"; "1"; "2"; "3"; "4"; "5"; "6"; "7"; "8"; "9";
         "a"; "b"; "c"; "d"; "e"; "f"]%char "0"%char.

Definition quote_char (c : ascii) : string :=
  let n := nat_of_ascii c in
  if Nat.eqb n 8 then "\b"
  else if Nat.eqb n 9 then "\t"
  else if Nat.eqb n 10 then "\n"
  else if Nat.eqb n 12 then "\f"
  else if Nat.eqb n 13 then "\r"
  else if Nat.eqb n 34 then String "\" (String "034" EmptyString)
  else if Nat.eqb n 92 then "\\"
  else if Nat.ltb n 32
  then String "\" (String "u" (String "0" (String "0"
         (String (hex_digit (n / 16))
            (String (hex_digit (n mod 16)) EmptyString)))))
  else String c EmptyString.

Fixpoint quote_chars (s : string) : string :=
  match s with
  | EmptyString => EmptyString
  | String c r => (quote_char c ++ quote_chars r)%string
  end.

Definition quote (s : string) : string :=
  String "034" (quote_chars s ++ String "034" EmptyString)%string.

End JSON.

(* ================================================================== *)
(** ** Shared types ([src/types]) *)

Inductive HardwareEventType :=
| sideClick
| longPressStart
| longPressEnd
| scrollUp
| scrollDown.

Definition HardwareEventType_eqb (a b : HardwareEventType) : bool :=
  match a, b with
  | sideClick, sideClick
  | longPressStart, longPressStart
  | longPressEnd, longPressEnd
  | scrollUp, scrollUp
  | scrollDown, scrollDown => true
  | _, _ => false
  end.

(** [PluginMessage]: [message] and the optional fields of [MessageOptions]
    ([None] is an absent or undefined property).  The order in which the
    caller wrote the optional properties is not kept. *)
Record MessageOptions := {
  useLLM : option bool;
  useSerpAPI : option bool;
  wantsR1Response : option bool;
  wantsJournalEntry : option bool;
  pluginId : option string;
  imageBase64 : option string
}.

Record PluginMessage := {
  message : string;
  options : MessageOptions
}.

Definition no_options : MessageOptions :=
  {| useLLM := None; useSerpAPI := None; wantsR1Response := None;
     wantsJournalEntry := None; pluginId := None; imageBase64 := None |}.

Record PluginMessageResponse := {
  r_message : string;
  r_pluginId : string;
  r_data : option string
}.

(** What [parsedData] can be: [undefined], the string [data.data] itself,
    or the value [JSON.parse] returned. *)
Inductive JSValue :=
| JSundefined
| JSstring (s : string)
| JSparsed (v : JSON.value).

(** [{ ...data, parsedData }] *)
Record EnhancedData := {
  response : PluginMessageResponse;
  parsedData : JSValue
}.

(* ================================================================== *)
(** ** Events of the ambient surface ([window]) *)

Inductive EventName :=
| HW (t : HardwareEventType)
| keydown.

Definition EventName_eqb (a b : EventName) : bool :=
  match a, b with
  | HW x, HW y => HardwareEventType_eqb x y
  | keydown, keydown => true
  | _, _ => false
  end.

(** An [Event]: its type, [KeyboardEvent.code] when it has one, and
    [detail.source] when it is a [CustomEvent] that carries one. *)
Record Event := {
  ev_type : EventName;
  ev_code : option string;
  ev_source : option string
}.

Definition CustomEvent (t : HardwareEventType) (source : string) : Event :=
  {| ev_type := HW t; ev_code := None; ev_source := Some source |}.

Inductive Direction := up | down.

Record ScrollWheelData := {
  direction : Direction;
  event : Event
}.

Inductive Channel := sideButton | scrollWheel.

Definition Channel_eqb (a b : Channel) : bool :=
  match a, b with
  | sideButton, sideButton | scrollWheel, scrollWheel => true
  | _, _ => false
  end.

Record DeviceControlsOptions := {
  opt_sideButtonEnabled : option bool;
  opt_scrollWheelEnabled : option bool;
  opt_keyboardFallback : option bool
}.

Definition default_options : DeviceControlsOptions :=
  {| opt_sideButtonEnabled := None; opt_scrollWheelEnabled := None;
     opt_keyboardFallback := None |}.

(** The closures the SDK hands to [window.addEventListener].  Each call
    of [addEventListener] in the source passes a fresh arrow function, so
    the listener list never merges two of them; all closures of one kind
    behave alike, as they close over the same singleton. *)
Inductive Listener :=
| HardwareListener (t : HardwareEventType)   (* () => this.emit(t) *)
| SideButtonListener                         (* setupSideButtonListener *)
| ScrollListener (d : Direction)             (* setupScrollWheelListener *)
| KeyboardListener.                          (* setupKeyboardFallback *)

(* ================================================================== *)
(** ** Callbacks, exceptions and the state *)

(** What a callback is called with. *)
Inductive Arg :=
| ArgNone                         (* callback() *)
| ArgEnvelope (d : EnhancedData)  (* handler(enhancedData) *)
| ArgEvent (e : Event)            (* handler(event) *)
| ArgScroll (d : ScrollWheelData). (* handler(data) *)

Inductive Exn :=
| Thrown (h : Handler)            (* whatever callback [h] threw *)
| Error (msg : string)            (* new Error(msg) *)
| ReferenceError (name : string)
| TypeError (msg : string)        (* as JSON.stringify throws on a BigInt *)
| DOMException (name : string).   (* as btoa throws *)

Inductive Completion :=
| Normal
| Throw (e : Exn).

Inductive LogEntry :=
| ErrorInMessageHandler (e : Exn)        (* 'Error in message handler:' *)
| ErrorProcessingPluginMessage (e : Exn) (* 'Error processing plugin message:' *)
| Uncaught (e : Exn).                    (* reported by the event surface *)

(** The SDK calls a callback may make while it runs. Calls that start
    another fan-out ([triggerSideButton], [init]) or drop a whole set
    ([removeAllListeners]) are left to the top level. *)
Inductive SdkCall :=
| Call_onMessage (h : Handler)
| Call_offMessage (h : Handler)
| Call_removeAllHandlers
| Call_hardware_on (t : HardwareEventType) (h : Handler)
| Call_hardware_off (t : HardwareEventType) (h : Handler)
| Call_controls_on (c : Channel) (h : Handler)
| Call_controls_off (c : Channel) (h : Handler)
| Call_setSideButtonEnabled (b : bool)
| Call_setScrollWheelEnabled (b : bool).

(** A callback, as far as the SDK can tell: the SDK calls it makes, in
    order, and whether it then throws. *)
Record Behaviour := {
  hb_calls : list SdkCall;
  hb_throws : bool
}.

Record State := mkState {
  (* host *)
  has_window : bool;                (* typeof window !== 'undefined' *)
  has_PluginMessageHandler : bool;  (* typeof PluginMessageHandler !== 'undefined' *)
  (* window *)
  window_onPluginMessage : bool;    (* window.onPluginMessage is set *)
  window_listeners : list (EventName * Listener);
  (* messaging : R1Messaging *)
  messageHandlers : JSSet.t;
  isInitialized : bool;
  (* hardwareEvents : HardwareEvents *)
  listeners : JSMap.t HardwareEventType JSSet.t;
  (* deviceControls : DeviceControls *)
  sideButtonEnabled : bool;
  scrollWheelEnabled : bool;
  eventListeners : JSMap.t Channel JSSet.t;
  (* what can be observed *)
  posted : list string;             (* PluginMessageHandler.postMessage *)
  console : list LogEntry;          (* console.error and uncaught reports *)
  calls : list (Handler * Arg)      (* callback invocations, oldest first *)
}.

Definition set_window_onPluginMessage (b : bool) (s : State) : State :=
  mkState (has_window s) (has_PluginMessageHandler s) b (window_listeners s)
    (messageHandlers s) (isInitialized s) (listeners s) (sideButtonEnabled s)
    (scrollWheelEnabled s) (eventListeners s) (posted s) (console s) (calls s).

Definition set_window_listeners (l : list (EventName * Listener)) (s : State)
  : State :=
  mkState (has_window s) (has_PluginMessageHandler s)
    (window_onPluginMessage s) l
    (messageHandlers s) (isInitialized s) (listeners s) (sideButtonEnabled s)
    (scrollWheelEnabled s) (eventListeners s) (posted s) (console s) (calls s).

Definition set_messageHandlers (m : JSSet.t) (s : State) : State :=
  mkState (has_window s) (has_PluginMessageHandler s)
    (window_onPluginMessage s) (window_listeners s)
    m (isInitialized s) (listeners s) (sideButtonEnabled s)
    (scrollWheelEnabled s) (eventListeners s) (posted s) (console s) (calls s).

Definition set_isInitialized (b : bool) (s : State) : State :=
  mkState (has_window s) (has_PluginMessageHandler s)
    (window_onPluginMessage s) (window_listeners s)
    (messageHandlers s) b (listeners s) (sideButtonEnabled s)
    (scrollWheelEnabled s) (eventListeners s) (posted s) (console s) (calls s).

Definition set_listeners (m : JSMap.t HardwareEventType JSSet.t) (s : State)
  : State :=
  mkState (has_window s) (has_PluginMessageHandler s)
    (window_onPluginMessage s) (window_listeners s)
    (messageHandlers s) (isInitialized s) m (sideButtonEnabled s)
    (scrollWheelEnabled s) (eventListeners s) (posted s) (console s) (calls s).

Definition set_sideButtonEnabled (b : bool) (s : State) : State :=
  mkState (has_window s) (has_PluginMessageHandler s)
    (window_onPluginMessage s) (window_listeners s)
    (messageHandlers s) (isInitialized s) (listeners s) b
    (scrollWheelEnabled s) (eventListeners s) (posted s) (console s) (calls s).

Definition set_scrollWheelEnabled (b : bool) (s : State) : State :=
  mkState (has_window s) (has_PluginMessageHandler s)
    (window_onPluginMessage s) (window_listeners s)
    (messageHandlers s) (isInitialized s) (listeners s) (sideButtonEnabled s)
    b (eventListeners s) (posted s) (console s) (calls s).

Definition set_eventListeners (m : JSMap.t Channel JSSet.t) (s : State)
  : State :=
  mkState (has_window s) (has_PluginMessageHandler s)
    (window_onPluginMessage s) (window_listeners s)
    (messageHandlers s) (isInitialized s) (listeners s) (sideButtonEnabled s)
    (scrollWheelEnabled s) m (posted s) (console s) (calls s).

Definition post (m : string) (s : State) : State :=
  mkState (has_window s) (has_PluginMessageHandler s)
    (window_onPluginMessage s) (window_listeners s)
    (messageHandlers s) (isInitialized s) (listeners s) (sideButtonEnabled s)
    (scrollWheelEnabled s) (eventListeners s) (posted s ++ [m]) (console s)
    (calls s).

Definition console_error (e : LogEntry) (s : State) : State :=
  mkState (has_window s) (has_PluginMessageHandler s)
    (window_onPluginMessage s) (window_listeners s)
    (messageHandlers s) (isInitialized s) (listeners s) (sideButtonEnabled s)
    (scrollWheelEnabled s) (eventListeners s) (posted s) (console s ++ [e])
    (calls s).

Definition record_call (h : Handler) (a : Arg) (s : State) : State :=
  mkState (has_window s) (has_PluginMessageHandler s)
    (window_onPluginMessage s) (window_listeners s)
    (messageHandlers s) (isInitialized s) (listeners s) (sideButtonEnabled s)
    (scrollWheelEnabled s) (eventListeners s) (posted s) (console s)
    (calls s ++ [(h, a)]).

(** A statement that may throw, and two of them in sequence. *)
Definition Step := State -> Completion * State.

Definition andThen (a b : Step) : Step :=
  fun s => match a s with
           | (Normal, s') => b s'
           | r => r
           end.

Definition skip : Step := fun s => (Normal, s).

Definition when (c : bool) (a : Step) : Step := if c then a else skip.

Notation "a ;; b" := (andThen a b) (at level 61, right associativity).

(* ================================================================== *)
(** ** [R1Messaging]: sending and the consumer registry *)

(** The result of calling an [async] function: it never throws to its
    caller; what its body throws settles the promise it returns. *)
Inductive Promise :=
| Fulfilled
| Rejected (e : Exn).

Inductive CallResult :=
| Threw (e : Exn)          (* a synchronous throw *)
| Returned (p : Promise).

Definition async (body : Step) : State -> CallResult * State :=
  fun s => match body s with
           | (Normal, s') => (Returned Fulfilled, s')
           | (Throw e, s') => (Returned (Rejected e), s')
           end.

Definition member_bool (k : string) (v : option bool) : list string :=
  match v with
  | Some b => [(JSON.quote k ++ ":" ++ if b then "true" else "false")%string]
  | None => []
  end.

Definition member_string (k : string) (v : option string) : list string :=
  match v with
  | Some s => [(JSON.quote k ++ ":" ++ JSON.quote s)%string]
  | None => []
  end.

(** [JSON.stringify(payload)] *)
Definition JSON_stringify (p : PluginMessage) : string :=
  let o := options p in
  ("{" ++ String.concat ","
     (member_string "message" (Some (message p))
      ++ member_bool "useLLM" (useLLM o)
      ++ member_bool "useSerpAPI" (useSerpAPI o)
      ++ member_bool "wantsR1Response" (wantsR1Response o)
      ++ member_bool "wantsJournalEntry" (wantsJournalEntry o)
      ++ member_string "pluginId" (pluginId o)
      ++ member_string "imageBase64" (imageBase64 o))
   ++ "}")%string.

Definition not_available : string :=
  "PluginMessageHandler not available. Make sure you are running in R1 environment.".

Definition sendMessage_body (msg : string) (opts : MessageOptions) : Step :=
  fun s =>
    let payload := {| message := msg; options := opts |} in
    if has_PluginMessageHandler s
    then (Normal, post (JSON_stringify payload) s)
    else (Throw (Error not_available), s).

Definition sendMessage (msg : string) (opts : MessageOptions)
  : State -> CallResult * State :=
  async (sendMessage_body msg opts).

Definition onMessage (h : Handler) (s : State) : State :=
  set_messageHandlers (JSSet.add h (messageHandlers s)) s.

Definition offMessage (h : Handler) (s : State) : State :=
  set_messageHandlers (JSSet.delete h (messageHandlers s)) s.

Definition removeAllHandlers (s : State) : State :=
  set_messageHandlers (JSSet.clear (messageHandlers s)) s.

Definition initializeMessageHandler (s : State) : State :=
  if isInitialized s || negb (has_window s) then s
  else set_isInitialized true (set_window_onPluginMessage true s).

(** [if (data.data)]: a string is truthy unless it is empty. *)
Definition truthy (d : option string) : bool :=
  match d with
  | Some EmptyString => false
  | Some _ => true
  | None => false
  end.

(** Lines 165-173 of [initializeMessageHandler]. *)
Definition parse_data (d : option string) : JSValue :=
  match d with
  | Some raw =>
      if truthy d then
        match JSON.parse raw with
        | Some v => JSparsed v
        | None => JSstring raw          (* catch (e) *)
        end
      else JSundefined
  | None => JSundefined
  end.

Definition enhance (data : PluginMessageResponse) : EnhancedData :=
  {| response := data; parsedData := parse_data (r_data data) |}.

(* ================================================================== *)
(** ** [HardwareEvents] and [DeviceControls]: the registries *)

Definition hw_get := JSMap.get (V:=JSSet.t) HardwareEventType_eqb.
Definition hw_set := JSMap.set (V:=JSSet.t) HardwareEventType_eqb.
Definition dc_get := JSMap.get (V:=JSSet.t) Channel_eqb.
Definition dc_set := JSMap.set (V:=JSSet.t) Channel_eqb.

Definition HardwareEvents_on (t : HardwareEventType) (h : Handler)
  (s : State) : State :=
  let m := if JSMap.has HardwareEventType_eqb t (listeners s)
           then listeners s
           else hw_set t JSSet.empty (listeners s) in
  match hw_get t m with
  | Some callbacks => set_listeners (hw_set t (JSSet.add h callbacks) m) s
  | None => set_listeners m s
  end.

Definition HardwareEvents_off (t : HardwareEventType) (h : Handler)
  (s : State) : State :=
  match hw_get t (listeners s) with
  | Some callbacks =>
      set_listeners (hw_set t (JSSet.delete h callbacks) (listeners s)) s
  | None => s
  end.

Definition removeAllListeners (t : option HardwareEventType) (s : State)
  : State :=
  match t with
  | Some t => set_listeners (JSMap.delete HardwareEventType_eqb t (listeners s)) s
  | None => set_listeners [] s
  end.

Definition DeviceControls_on (c : Channel) (h : Handler) (s : State)
  : State :=
  let m := if JSMap.has Channel_eqb c (eventListeners s)
           then eventListeners s
           else dc_set c JSSet.empty (eventListeners s) in
  match dc_get c m with
  | Some handlers => set_eventListeners (dc_set c (JSSet.add h handlers) m) s
  | None => set_eventListeners m s
  end.

Definition DeviceControls_off (c : Channel) (h : Handler) (s : State)
  : State :=
  match dc_get c (eventListeners s) with
  | Some handlers =>
      set_eventListeners (dc_set c (JSSet.delete h handlers) (eventListeners s)) s
  | None => s
  end.

Definition setSideButtonEnabled (enabled : bool) (s : State) : State :=
  set_sideButtonEnabled enabled s.

Definition setScrollWheelEnabled (enabled : bool) (s : State) : State :=
  set_scrollWheelEnabled enabled s.

Definition isSideButtonEnabled (s : State) : bool := sideButtonEnabled s.
Definition isScrollWheelEnabled (s : State) : bool := scrollWheelEnabled s.

(** [getEventListeners]: the size of each channel's set. *)
Definition getEventListeners (s : State) : list (Channel * nat) :=
  map (fun kv => (fst kv, JSSet.size (snd kv))) (eventListeners s).

(** The set a fan-out walks over: the one held under the key, or an empty
    one when the key is absent. *)
Definition callbacks_of (t : HardwareEventType) (s : State) : JSSet.t :=
  match hw_get t (listeners s) with
  | Some callbacks => callbacks
  | None => JSSet.empty
  end.

Definition handlers_of (c : Channel) (s : State) : JSSet.t :=
  match dc_get c (eventListeners s) with
  | Some handlers => handlers
  | None => JSSet.empty
  end.

(** [window.addEventListener(name, l)]; [window] may be missing. *)
Definition addEventListener (name : EventName) (l : Listener) : Step :=
  fun s =>
    if has_window s
    then (Normal, set_window_listeners (window_listeners s ++ [(name, l)]) s)
    else (Throw (ReferenceError "window"), s).

Definition initializeEventListeners (s : State) : State :=
  if negb (has_window s) then s
  else
    set_window_listeners
      (window_listeners s ++
       [(HW sideClick, HardwareListener sideClick);
        (HW longPressStart, HardwareListener longPressStart);
        (HW longPressEnd, HardwareListener longPressEnd);
        (HW scrollUp, HardwareListener scrollUp);
        (HW scrollDown, HardwareListener scrollDown)]) s.

Definition setupSideButtonListener : Step :=
  addEventListener (HW sideClick) SideButtonListener.

Definition setupScrollWheelListener : Step :=
  addEventListener (HW scrollUp) (ScrollListener up) ;;
  addEventListener (HW scrollDown) (ScrollListener down).

Definition setupKeyboardFallback : Step :=
  addEventListener keydown KeyboardListener.

(** [a ?? true] *)
Definition or_true (a : option bool) : bool :=
  match a with Some b => b | None => true end.

(** [a !== false] *)
Definition not_false (a : option bool) : bool :=
  match a with Some false => false | _ => true end.

Definition init (opts : DeviceControlsOptions) : Step :=
  fun s =>
    let s1 := set_sideButtonEnabled (or_true (opt_sideButtonEnabled opts)) s in
    let s2 := set_scrollWheelEnabled (or_true (opt_scrollWheelEnabled opts)) s1 in
    (when (sideButtonEnabled s2) setupSideButtonListener ;;
     when (scrollWheelEnabled s2) setupScrollWheelListener ;;
     when (not_false (opt_keyboardFallback opts)) setupKeyboardFallback) s2.

(** The state once the three modules are loaded: [new R1Messaging()],
    [new HardwareEvents()] and [new DeviceControls()] have run. *)
Definition blank (w pmh : bool) : State :=
  {| has_window := w; has_PluginMessageHandler := pmh;
     window_onPluginMessage := false; window_listeners := [];
     messageHandlers := JSSet.empty; isInitialized := false;
     listeners := [];
     sideButtonEnabled := true; scrollWheelEnabled := true;
     eventListeners := [];
     posted := []; console := []; calls := [] |}.

Definition loaded (w pmh : bool) : State :=
  initializeEventListeners (initializeMessageHandler (blank w pmh)).

(* ================================================================== *)
(** ** Fan-out *)

Definition run_call (c : SdkCall) (s : State) : State :=
  match c with
  | Call_onMessage h => onMessage h s
  | Call_offMessage h => offMessage h s
  | Call_removeAllHandlers => removeAllHandlers s
  | Call_hardware_on t h => HardwareEvents_on t h s
  | Call_hardware_off t h => HardwareEvents_off t h s
  | Call_controls_on c h => DeviceControls_on c h s
  | Call_controls_off c h => DeviceControls_off c h s
  | Call_setSideButtonEnabled b => setSideButtonEnabled b s
  | Call_setScrollWheelEnabled b => setScrollWheelEnabled b s
  end.

Definition run_calls (cs : list SdkCall) (s : State) : State :=
  fold_left (fun s c => run_call c s) cs s.

Definition Space : string := "Space".

Section Callbacks.

(** The application's functions: what each does when called with a
    given argument. *)
Variable code : Handler -> Arg -> Behaviour.

(** [h(a)] *)
Definition invoke (h : Handler) (a : Arg) : Step :=
  fun s =>
    let b := code h a in
    let s' := run_calls (hb_calls b) (record_call h a s) in
    (if hb_throws b then Throw (Thrown h) else Normal, s').

(** [Set.prototype.forEach]: walk the entries of the live set by index;
    an emptied slot is passed over, an entry appended meanwhile is
    reached, an exception of [callbackfn] ends the walk.  [None]: the
    fuel ran out. *)
Fixpoint forEach (fuel : nat) (the_set : State -> JSSet.t)
  (callbackfn : Handler -> Step) (index : nat) (s : State)
  : option (Completion * State) :=
  match fuel with
  | O => None
  | S f =>
      match nth_error (the_set s) index with
      | None => Some (Normal, s)
      | Some None => forEach f the_set callbackfn (S index) s
      | Some (Some h) =>
          match callbackfn h s with
          | (Normal, s') => forEach f the_set callbackfn (S index) s'
          | (Throw e, s') => Some (Throw e, s')
          end
      end
  end.

(** [try { handler(enhancedData) } catch (error) { console.error(..) }] *)
Definition guarded (d : EnhancedData) (h : Handler) : Step :=
  fun s =>
    match invoke h (ArgEnvelope d) s with
    | (Throw e, s') => (Normal, console_error (ErrorInMessageHandler e) s')
    | r => r
    end.

(** The function stored in [window.onPluginMessage]. *)
Definition onPluginMessage (fuel : nat) (data : PluginMessageResponse)
  (s : State) : option (Completion * State) :=
  let enhancedData := enhance data in
  match forEach fuel messageHandlers (guarded enhancedData) 0 s with
  | Some (Throw e, s') =>
      Some (Normal, console_error (ErrorProcessingPluginMessage e) s')
  | r => r
  end.

(** [HardwareEvents.emit] *)
Definition emit (fuel : nat) (t : HardwareEventType) (s : State)
  : option (Completion * State) :=
  match hw_get t (listeners s) with
  | Some _ => forEach fuel (callbacks_of t) (fun h => invoke h ArgNone) 0 s
  | None => Some (Normal, s)
  end.

Definition handleSideButtonClick (fuel : nat) (e : Event) (s : State)
  : option (Completion * State) :=
  forEach fuel (handlers_of sideButton) (fun h => invoke h (ArgEvent e)) 0 s.

Definition handleScrollWheel (fuel : nat) (data : ScrollWheelData)
  (s : State) : option (Completion * State) :=
  forEach fuel (handlers_of scrollWheel)
    (fun h => invoke h (ArgScroll data)) 0 s.

(** One listener called with one event; [dispatch] is
    [window.dispatchEvent].  [event.preventDefault()] of the keyboard
    listener only marks the event, and nothing here reads the mark. *)
Definition run_listener
  (dispatch : Event -> State -> option State)
  (fuel : nat) (l : Listener) (e : Event) (s : State)
  : option (Completion * State) :=
  match l with
  | HardwareListener t => emit fuel t s
  | SideButtonListener =>
      if negb (sideButtonEnabled s) then Some (Normal, s)
      else handleSideButtonClick fuel e s
  | ScrollListener d =>
      if negb (scrollWheelEnabled s) then Some (Normal, s)
      else handleScrollWheel fuel {| direction := d; event := e |} s
  | KeyboardListener =>
      match ev_code e with
      | Some c =>
          if String.eqb c Space then
            match dispatch (CustomEvent sideClick "keyboard") s with
            | Some s' => Some (Normal, s')
            | None => None
            end
          else Some (Normal, s)
      | None => Some (Normal, s)
      end
  end.

(** The listeners of the event's type, in the order they were added. *)
Definition listeners_for (name : EventName) (s : State) : list Listener :=
  map snd (filter (fun nl => EventName_eqb (fst nl) name)
             (window_listeners s)).

(** Call each listener of a list in turn; what one throws is reported
    and the next one is called. *)
Fixpoint call_listeners
  (run : Listener -> Event -> State -> option (Completion * State))
  (ls : list Listener) (e : Event) (s : State) : option State :=
  match ls with
  | [] => Some s
  | l :: ls' =>
      match run l e s with
      | Some (Normal, s') => call_listeners run ls' e s'
      | Some (Throw x, s') =>
          call_listeners run ls' e (console_error (Uncaught x) s')
      | None => None
      end
  end.

(** [window.dispatchEvent(e)]: the listener list is copied first. *)
Fixpoint dispatchEvent (fuel : nat) (e : Event) (s : State)
  : option State :=
  match fuel with
  | O => None
  | S f =>
      call_listeners (run_listener (dispatchEvent f) fuel)
        (listeners_for (ev_type e) s) e s
  end.

(** [DeviceControls.triggerSideButton] *)
Definition triggerSideButton (fuel : nat) (s : State)
  : option (Completion * State) :=
  if has_window s then
    match dispatchEvent fuel (CustomEvent sideClick "programmatic") s with
    | Some s' => Some (Normal, s')
    | None => None
    end
  else Some (Throw (ReferenceError "window"), s).

End Callbacks.

(** The ways a [sideClick] reaches the event surface. *)
Inductive Origin :=
| Native (e : Event)     (* forwarded by the host *)
| Keyboard               (* the Space key, through the keyboard fallback *)
| Programmatic.          (* triggerSideButton *)

Definition sideClick_event (o : Origin) : Event :=
  match o with
  | Native e => e
  | Keyboard => CustomEvent sideClick "keyboard"
  | Programmatic => CustomEvent sideClick "programmatic"
  end.

Definition quiet : Behaviour := {| hb_calls := []; hb_throws := false |}.
Definition throwing : Behaviour := {| hb_calls := []; hb_throws := true |}.

Definition hi_p1 (d : option string) : PluginMessageResponse :=
  {| r_message := "hi"; r_pluginId := "p1"; r_data := d |}.

(** The SDK calls that change a given registry. *)
Definition touches_messages (c : SdkCall) : bool :=
  match c with
  | Call_onMessage _ | Call_offMessage _ | Call_removeAllHandlers => true
  | _ => false
  end.

Definition touches_hardware (c : SdkCall) : bool :=
  match c with
  | Call_hardware_on _ _ | Call_hardware_off _ _ => true
  | _ => false
  end.

Definition touches_controls (c : SdkCall) : bool :=
  match c with
  | Call_controls_on _ _ | Call_controls_off _ _ => true
  | _ => false
  end.

Definition sets_flag (c : SdkCall) : bool :=
  match c with
  | Call_setSideButtonEnabled _ | Call_setScrollWheelEnabled _ => true
  | _ => false
  end.

Definition leaves (touches : SdkCall -> bool) (b : Behaviour) : bool :=
  forallb (fun c => negb (touches c)) (hb_calls b).

(** [h] called with [a], for each [h] of a list. *)
Definition each_with (a : Arg) (hs : list Handler) : list (Handler * Arg) :=
  map (fun h => (h, a)) hs.

(** The state after [onMessage] was called with each handler of [hs]. *)
Definition subscribe_all (hs : list Handler) (s : State) : State :=
  fold_left (fun s h => onMessage h s) hs s.

(** The final state of a walk in which nothing changes the set walked
    over and nothing throws: the callbacks ran one after the other. *)
Definition run_all (callbackfn : Handler -> Step) (hs : list Handler)
  (s : State) : State :=
  fold_left (fun s h => snd (callbackfn h s)) hs s.

(** A callback that, wherever it is called, returns normally and leaves
    the set being walked as it was. *)
Definition steady (the_set : State -> JSSet.t) (callbackfn : Handler -> Step)
  (h : Handler) : Prop :=
  forall s, fst (callbackfn h s) = Normal
            /\ the_set (snd (callbackfn h s)) = the_set s.

(** The invocations made on the way from [s] to [s']. *)
Definition delivered (s s' : State) : list (Handler * Arg) :=
  skipn (List.length (calls s)) (calls s').

(** The snapshot reading of a dispatch: whatever the callbacks do, the
    consumers called are those registered when the dispatch began. *)
Definition snapshot_dispatch (code : Handler -> Arg -> Behaviour)
  (fuel : nat) (data : PluginMessageResponse) (s : State) : Prop :=
  forall c s',
    onPluginMessage code fuel data s = Some (c, s') ->
    forall h, In h (map fst (delivered s s'))
              <-> In h (JSSet.values (messageHandlers s)).

(** The fallback reading of classification: a raw string that
    [JSON.parse] rejects is its own [parsedData]. *)
Definition identity_fallback (raw : string) : Prop :=
  JSON.parse raw = None -> parse_data (Some raw) = JSstring raw.

(** Callback 1 subscribes callback 2 while it runs. *)
Definition code_subscribing (h : Handler) (_ : Arg) : Behaviour :=
  if Nat.eqb h 1
  then {| hb_calls := [Call_onMessage 2]; hb_throws := false |}
  else quiet.

(** Callback 1 unsubscribes callback 2 while it runs. *)
Definition code_unsubscribing (h : Handler) (_ : Arg) : Behaviour :=
  if Nat.eqb h 1
  then {| hb_calls := [Call_offMessage 2]; hb_throws := false |}
  else quiet.

(** Callback 1 throws. *)
Definition code_throwing (h : Handler) (_ : Arg) : Behaviour :=
  if Nat.eqb h 1 then throwing else quiet.

(** Events as the three origins raise them. *)
Definition native_sideClick : Event :=
  {| ev_type := HW sideClick; ev_code := None; ev_source := None |}.

Definition space_key : Event :=
  {| ev_type := keydown; ev_code := Some Space; ev_source := None |}.

(** [init] called [n] times with the same options. *)
Fixpoint init_times (n : nat) (opts : DeviceControlsOptions) : Step :=
  match n with
  | O => skip
  | S n' => init opts ;; init_times n' opts
  end.

(** A call that raises to its caller before it returns. *)
Definition raises_synchronously (r : CallResult) : Prop :=
  exists e, r = Threw e.

(** The state with further invocations on record. *)
Definition append_calls (l : list (Handler * Arg)) (s : State) : State :=
  mkState (has_window s) (has_PluginMessageHandler s)
    (window_onPluginMessage s) (window_listeners s)
    (messageHandlers s) (isInitialized s) (listeners s) (sideButtonEnabled s)
    (scrollWheelEnabled s) (eventListeners s) (posted s) (console s)
    (calls s ++ l).

(** The state after [DeviceControls.on(c, h)] for each [h] of a list, and
    after [HardwareEvents.on(t, h)] for each [h] of a list. *)
Definition controls_subscribe_all (c : Channel) (hs : list Handler)
  (s : State) : State :=
  fold_left (fun s h => DeviceControls_on c h s) hs s.

Definition hardware_subscribe_all (t : HardwareEventType) (hs : list Handler)
  (s : State) : State :=
  fold_left (fun s h => HardwareEvents_on t h s) hs s.

(** What happens to a configured gate: a flag is set, or a [sideClick]
    is raised on [window] (with whatever [detail.source] its origin
    gives it). *)
Inductive GateOp :=
| SetSideButton (enabled : bool)
| SetScrollWheel (enabled : bool)
| RaiseSideClick (source : option string).

Definition sideClick_from (source : option string) : Event :=
  {| ev_type := HW sideClick; ev_code := None; ev_source := source |}.

Fixpoint run_ops (code : Handler -> Arg -> Behaviour) (fuel : nat)
  (ops : list GateOp) (s : State) : option State :=
  match ops with
  | [] => Some s
  | SetSideButton b :: r => run_ops code fuel r (setSideButtonEnabled b s)
  | SetScrollWheel b :: r => run_ops code fuel r (setScrollWheelEnabled b s)
  | RaiseSideClick src :: r =>
      match dispatchEvent code fuel (sideClick_from src) s with
      | Some s' => run_ops code fuel r s'
      | None => None
      end
  end.

(** The deliveries a gate should make to the [sideButton] consumers [hs]
    over a run of operations: every signal raised while the flag is on
    goes to each consumer, a signal raised while it is off goes nowhere. *)
Fixpoint gated_deliveries (hs : list Handler) (ops : list GateOp)
  (enabled : bool) : list (Handler * Arg) :=
  match ops with
  | [] => []
  | SetSideButton b :: r => gated_deliveries hs r b
  | SetScrollWheel _ :: r => gated_deliveries hs r enabled
  | RaiseSideClick src :: r =>
      (if enabled then each_with (ArgEvent (sideClick_from src)) hs else [])
      ++ gated_deliveries hs r enabled
  end.

(** The restoring reading of the gate: however it was configured, once
    the flag is set back to [true] a signal reaches the consumers. *)
Definition gate_restores (opts : DeviceControlsOptions) : Prop :=
  forall (h : Handler) (src : option string),
    let s := DeviceControls_on sideButton h
               (snd (init opts (loaded true true))) in
    exists s',
      run_ops (fun _ _ => quiet) 3
        [SetSideButton false; SetSideButton true; RaiseSideClick src] s
      = Some s'
      /\ In (h, ArgEvent (sideClick_from src)) (delivered s s').

(** A gate as one call of [init] with the side button enabled leaves
    it, with the consumers [hs] on its [sideButton] channel and nobody on
    the hardware tag. *)
Definition gate_ready (hs : list Handler) (s : State) : Prop :=
  listeners_for (HW sideClick) s = [HardwareListener sideClick; SideButtonListener]
  /\ hw_get sideClick (listeners s) = None
  /\ handlers_of sideButton s = map Some hs.

(** [{ sideButtonEnabled: false }] *)
Definition side_button_off : DeviceControlsOptions :=
  {| opt_sideButtonEnabled := Some false; opt_scrollWheelEnabled := None;
     opt_keyboardFallback := None |}.

(** What the consumers of the hardware tags have seen: the invocations
    [callback()] that [emit] made, in order. *)
Definition from_emit (c : Handler * Arg) : bool :=
  match snd c with
  | ArgNone => true
  | _ => false
  end.

Definition canonical_view (s : State) : list (Handler * Arg) :=
  filter from_emit (calls s).

(** A native [sideClick] is an event of that type, whatever else it
    carries. *)
Definition origin_ok (o : Origin) : Prop :=
  match o with
  | Native e => ev_type e = HW sideClick
  | _ => True
  end.

(** One [sideClick] from each origin: the host raises the event, the
    Space key is pressed, or [triggerSideButton] is called. *)
Definition raise_sideClick (code : Handler -> Arg -> Behaviour) (fuel : nat)
  (o : Origin) (s : State) : option State :=
  match o with
  | Native e => dispatchEvent code fuel e s
  | Keyboard => dispatchEvent code fuel space_key s
  | Programmatic =>
      match triggerSideButton code fuel s with
      | Some (_, s') => Some s'
      | None => None
      end
  end.

(** Callback 1 looks at [detail.source] of the event it is given. *)
Definition code_inspecting (h : Handler) (a : Arg) : Behaviour :=
  match a with
  | ArgEvent e =>
      match ev_source e with
      | Some _ => {| hb_calls := [Call_onMessage h]; hb_throws := false |}
      | None => quiet
      end
  | _ => quiet
  end.

(** Texts with quotation marks in them. *)
Definition dq : string := String "034" EmptyString.

Definition x_is_1 : string := "{" ++ dq ++ "x" ++ dq ++ ":1}".

Definition hello_json : string :=
  "{" ++ dq ++ "message" ++ dq ++ ":" ++ dq ++ "hello" ++ dq ++ "}".

(* ================================================================== *)
(** ** [R1Messaging]: the other senders, and [LLMHelpers] *)

(** [String.prototype.includes] *)
Fixpoint includes (needle hay : string) : bool :=
  if prefix needle hay then true
  else match hay with
       | String _ r => includes needle r
       | EmptyString => false
       end.

(** A property of an options object as the caller wrote it.  The
    declared types of the senders leave properties out ([LLMOptions],
    [Omit<MessageOptions, ...>]), but a caller's object may carry any
    property of [MessageOptions] all the same, and may carry one with the
    value [undefined]. *)
Inductive Field (A : Type) :=
| Absent                  (* no such property *)
| Undefined               (* the property is there, its value is undefined *)
| Given (a : A).

Arguments Absent {A}.
Arguments Undefined {A}.
Arguments Given {A} a.

Record OptionsObject := {
  o_useLLM : Field bool;
  o_useSerpAPI : Field bool;
  o_wantsR1Response : Field bool;
  o_wantsJournalEntry : Field bool;
  o_pluginId : Field string;
  o_imageBase64 : Field string
}.

(** [{}] *)
Definition empty_object : OptionsObject :=
  {| o_useLLM := Absent; o_useSerpAPI := Absent; o_wantsR1Response := Absent;
     o_wantsJournalEntry := Absent; o_pluginId := Absent;
     o_imageBase64 := Absent |}.

(** One property of [{ ...a, ...b }]: what [b] has, even [undefined],
    replaces what [a] has. *)
Definition over (A : Type) (a b : Field A) : Field A :=
  match b with
  | Absent => a
  | _ => b
  end.

(** [{ ...a, ...b }] *)
Definition spread (a b : OptionsObject) : OptionsObject :=
  {| o_useLLM := over (o_useLLM a) (o_useLLM b);
     o_useSerpAPI := over (o_useSerpAPI a) (o_useSerpAPI b);
     o_wantsR1Response := over (o_wantsR1Response a) (o_wantsR1Response b);
     o_wantsJournalEntry := over (o_wantsJournalEntry a) (o_wantsJournalEntry b);
     o_pluginId := over (o_pluginId a) (o_pluginId b);
     o_imageBase64 := over (o_imageBase64 a) (o_imageBase64 b) |}.

(** What [sendMessage] makes of a property: [JSON.stringify] leaves out
    one that is absent and one that is [undefined] alike. *)
Definition read (A : Type) (f : Field A) : option A :=
  match f with
  | Given a => Some a
  | _ => None
  end.

Definition as_options (o : OptionsObject) : MessageOptions :=
  {| useLLM := read (o_useLLM o); useSerpAPI := read (o_useSerpAPI o);
     wantsR1Response := read (o_wantsR1Response o);
     wantsJournalEntry := read (o_wantsJournalEntry o);
     pluginId := read (o_pluginId o); imageBase64 := read (o_imageBase64 o) |}.

(** [await call]: what the awaited promise was rejected with is thrown
    into the awaiting body. *)
Definition await (call : State -> CallResult * State) : Step :=
  fun s => match call s with
           | (Returned Fulfilled, s') => (Normal, s')
           | (Returned (Rejected e), s') => (Throw e, s')
           | (Threw e, s') => (Throw e, s')
           end.

(** [{ useLLM: true, ...options }] *)
Definition llm_message_options (o : OptionsObject) : MessageOptions :=
  as_options
    (spread {| o_useLLM := Given true; o_useSerpAPI := Absent;
               o_wantsR1Response := Absent; o_wantsJournalEntry := Absent;
               o_pluginId := Absent; o_imageBase64 := Absent |} o).

Definition askLLM (msg : string) (o : OptionsObject)
  : State -> CallResult * State :=
  async (await (sendMessage msg (llm_message_options o))).

(** [{ useLLM: false, wantsR1Response: true, ...options }] *)
Definition speak_message_options (o : OptionsObject) : MessageOptions :=
  as_options
    (spread {| o_useLLM := Given false; o_useSerpAPI := Absent;
               o_wantsR1Response := Given true; o_wantsJournalEntry := Absent;
               o_pluginId := Absent; o_imageBase64 := Absent |} o).

Definition speakText (text : string) (o : OptionsObject)
  : State -> CallResult * State :=
  async (await (sendMessage text (speak_message_options o))).

(** [{ wantsR1Response: true, wantsJournalEntry: saveToJournal }] *)
Definition speak_and_journal (saveToJournal : bool) : OptionsObject :=
  {| o_useLLM := Absent; o_useSerpAPI := Absent;
     o_wantsR1Response := Given true;
     o_wantsJournalEntry := Given saveToJournal;
     o_pluginId := Absent; o_imageBase64 := Absent |}.

Definition askLLMSpeak (msg : string) (saveToJournal : bool)
  : State -> CallResult * State :=
  async (await (askLLM msg (speak_and_journal saveToJournal))).

Definition please_json : string :=
  ". Please respond with a valid JSON object.".

Definition jsonMessage (msg : string) : string :=
  if includes "JSON" msg then msg else (msg ++ please_json)%string.

Definition askLLMJSON (msg : string) (o : OptionsObject)
  : State -> CallResult * State :=
  async (await (askLLM (jsonMessage msg) o)).

(** [JSON.stringify({ query: query, useLocation: false, tag: 'search' })] *)
Definition search_message (query : string) : string :=
  ("{" ++ JSON.quote "query" ++ ":" ++ JSON.quote query ++ ","
   ++ JSON.quote "useLocation" ++ ":false,"
   ++ JSON.quote "tag" ++ ":" ++ JSON.quote "search" ++ "}")%string.

(** [{ message: ..., useSerpAPI: true, ...options }] *)
Definition search_message_options (o : OptionsObject) : MessageOptions :=
  as_options
    (spread {| o_useLLM := Absent; o_useSerpAPI := Given true;
               o_wantsR1Response := Absent; o_wantsJournalEntry := Absent;
               o_pluginId := Absent; o_imageBase64 := Absent |} o).

Definition searchWeb (query : string) (o : OptionsObject)
  : State -> CallResult * State :=
  async (fun s =>
           let payload := {| message := search_message query;
                             options := search_message_options o |} in
           if has_PluginMessageHandler s
           then (Normal, post (JSON_stringify payload) s)
           else (Throw (Error not_available), s)).

(** What [JSON.stringify(v)] does with a value [v] that is not looked
    into any further: it throws (a [TypeError] for a BigInt or a cyclic
    structure, or whatever a [toJSON] method throws), it returns
    [undefined] (for [undefined], a function or a symbol), or it returns
    a text. *)
Inductive Stringified (T : Type) :=
| Throws (e : Exn)
| NoText
| Json (text : T).

Arguments Throws {T} e.
Arguments NoText {T}.
Arguments Json {T} text.

(** [`${JSON.stringify(data)}`] once [JSON.stringify] has returned. *)
Definition template_text (r : Stringified string) : string :=
  match r with
  | Json t => t
  | _ => "undefined"
  end.

(** [LLMHelpers.analyzeData(prompt, data)].  [data] is [None] when the
    argument is missing or falsy, and otherwise what [JSON.stringify]
    does with it. *)
Definition analysis_message (prompt : string)
  (data : option (Stringified string)) : string :=
  ((prompt ++ match data with
              | Some r => " Data: " ++ template_text r
              | None => EmptyString
              end)
   ++ " Please respond with a JSON analysis.")%string.

Definition analyzeData (prompt : string) (data : option (Stringified string))
  : State -> CallResult * State :=
  async (fun s =>
           match data with
           | Some (Throws e) => (Throw e, s)   (* JSON.stringify(data) throws *)
           | _ => await (askLLMJSON (analysis_message prompt data)
                           empty_object) s
           end).

(** [LLMHelpers.performTask] and [LLMHelpers.textToSpeech] *)
Definition performTask (task : string) (saveToJournal : bool)
  : State -> CallResult * State :=
  async (await (askLLMSpeak task saveToJournal)).

(** [{ wantsJournalEntry: saveToJournal }] *)
Definition journal_only (saveToJournal : bool) : OptionsObject :=
  {| o_useLLM := Absent; o_useSerpAPI := Absent; o_wantsR1Response := Absent;
     o_wantsJournalEntry := Given saveToJournal;
     o_pluginId := Absent; o_imageBase64 := Absent |}.

Definition textToSpeech (text : string) (saveToJournal : bool)
  : State -> CallResult * State :=
  async (await (speakText text (journal_only saveToJournal))).

(** Does [JSON.stringify(data)] return? *)
Definition stringifies (data : option (Stringified string)) : Prop :=
  forall e, data <> Some (Throws e).

(** The value a sender posts for a property it sets itself, given what
    the caller's object has for it. *)
Definition posted_value (A : Type) (own : A) (f : Field A) : option A :=
  match f with
  | Absent => Some own
  | Undefined => None
  | Given a => Some a
  end.

(** The listeners one call of [init] adds to [window], in order. *)
Definition init_listeners (opts : DeviceControlsOptions)
  : list (EventName * Listener) :=
  (if or_true (opt_sideButtonEnabled opts)
   then [(HW sideClick, SideButtonListener)] else [])
  ++ (if or_true (opt_scrollWheelEnabled opts)
      then [(HW scrollUp, ScrollListener up);
            (HW scrollDown, ScrollListener down)] else [])
  ++ (if not_false (opt_keyboardFallback opts)
      then [(keydown, KeyboardListener)] else []).

(** A [keydown] event of a given key. *)
Definition key (code : string) : Event :=
  {| ev_type := keydown; ev_code := Some code; ev_source := None |}.

(** The hardware tag a scroll direction comes from. *)
Definition scroll_tag (d : Direction) : HardwareEventType :=
  match d with
  | up => scrollUp
  | down => scrollDown
  end.

Definition scroll_event (d : Direction) (source : option string) : Event :=
  {| ev_type := HW (scroll_tag d); ev_code := None; ev_source := source |}.

(* ================================================================== *)
(** ** [AccelerometerAPI] *)

(** Where the code runs: no [window] at all, a [window] without
    [creationSensors.accelerometer], or one with it. *)
Inductive SensorEnv :=
| NoWindow
| NoSensor
| Sensor.

Section AccelerometerModel.

(** [AccelerometerOptions], only ever passed on to the host. *)
Variable Options : Type.

(** The calls the host's accelerometer receives. *)
Inductive SensorCall :=
| SensorStart (callback : Handler) (options : option Options)
| SensorStop.

Record Accelerometer := {
  isListening : bool;
  currentCallback : option Handler;
  sensor_calls : list SensorCall
}.

Definition new_accelerometer : Accelerometer :=
  {| isListening := false; currentCallback := None; sensor_calls := [] |}.

(** [stop()]: [window] is only looked at when [isListening] holds. *)
Definition accelerometer_stop (env : SensorEnv) (a : Accelerometer)
  : Completion * Accelerometer :=
  if isListening a then
    match env with
    | NoWindow => (Throw (ReferenceError "window"), a)
    | NoSensor => (Normal, a)
    | Sensor =>
        (Normal,
         {| isListening := false; currentCallback := None;
            sensor_calls := sensor_calls a ++ [SensorStop] |})
    end
  else (Normal, a).

(** [start(callback, options)] *)
Definition accelerometer_start (env : SensorEnv) (callback : Handler)
  (options : option Options) (a : Accelerometer)
  : Completion * Accelerometer :=
  match (if isListening a then accelerometer_stop env a else (Normal, a)) with
  | (Throw e, a') => (Throw e, a')
  | (Normal, a1) =>
      let a2 := {| isListening := true; currentCallback := Some callback;
                   sensor_calls := sensor_calls a1 |} in
      match env with
      | NoWindow => (Throw (ReferenceError "window"), a2)
      | NoSensor => (Normal, a2)
      | Sensor =>
          (Normal,
           {| isListening := true; currentCallback := Some callback;
              sensor_calls := sensor_calls a1 ++ [SensorStart callback options] |})
      end
  end.

Definition isActive (a : Accelerometer) : bool := isListening a.

(** What an application does with the accelerometer, in order; a call
    that throws is caught by the application, which goes on. *)
Inductive SensorOp :=
| Start (callback : Handler) (options : option Options)
| Stop.

Definition sensor_op (env : SensorEnv) (op : SensorOp) (a : Accelerometer)
  : Completion * Accelerometer :=
  match op with
  | Start callback options => accelerometer_start env callback options a
  | Stop => accelerometer_stop env a
  end.

Definition sensor_ops (env : SensorEnv) (ops : list SensorOp)
  (a : Accelerometer) : Accelerometer :=
  fold_left (fun a op => snd (sensor_op env op a)) ops a.



End AccelerometerModel.

(* ================================================================== *)
(** ** [btoa] and [atob] *)

(** Strings are taken over 8-bit code units, the range on which [btoa]
    is defined. *)
Module Base64.

(** Six bits, the most significant first. *)
Definition sextet : Type := bool * bool * bool * bool * bool * bool.

Definition index (x : sextet) : nat :=
  let '(b5, b4, b3, b2, b1, b0) := x in
  (if b5 then 32 else 0) + (if b4 then 16 else 0) + (if b3 then 8 else 0)
  + (if b2 then 4 else 0) + (if b1 then 2 else 0) + (if b0 then 1 else 0).

Definition of_index (n : nat) : sextet :=
  (Nat.testbit n 5, Nat.testbit n 4, Nat.testbit n 3,
   Nat.testbit n 2, Nat.testbit n 1, Nat.testbit n 0).

Definition alphabet : string :=
  "ABCDEFGHIJKLMNOPQRSTUVWXYZabcdefghijklmnopqrstuvwxyz0123456789+/".

Definition char_of (x : sextet) : ascii :=
  nth (index x) (list_ascii_of_string alphabet) "A"%char.

Definition sextet_of (c : ascii) : option sextet :=
  let n := nat_of_ascii c in
  if Nat.leb 65 n && Nat.leb n 90 then Some (of_index (n - 65))
  else if Nat.leb 97 n && Nat.leb n 122 then Some (of_index (n - 71))
  else if Nat.leb 48 n && Nat.leb n 57 then Some (of_index (n + 4))
  else if Nat.eqb n 43 then Some (of_index 62)
  else if Nat.eqb n 47 then Some (of_index 63)
  else None.

Definition pad : ascii := "="%char.

Definition is_pad (c : ascii) : bool := Ascii.eqb c pad.

(** The sextets of one, two and three bytes. *)
Definition first_of (a : ascii) : sextet :=
  let '(Ascii a0 a1 a2 a3 a4 a5 a6 a7) := a in (a7, a6, a5, a4, a3, a2).

Definition second_of (a b : ascii) : sextet :=
  let '(Ascii a0 a1 a2 a3 a4 a5 a6 a7) := a in
  let '(Ascii b0 b1 b2 b3 b4 b5 b6 b7) := b in (a1, a0, b7, b6, b5, b4).

Definition third_of (b c : ascii) : sextet :=
  let '(Ascii b0 b1 b2 b3 b4 b5 b6 b7) := b in
  let '(Ascii c0 c1 c2 c3 c4 c5 c6 c7) := c in (b3, b2, b1, b0, c7, c6).

Definition fourth_of (c : ascii) : sextet :=
  let '(Ascii c0 c1 c2 c3 c4 c5 c6 c7) := c in (c5, c4, c3, c2, c1, c0).

Definition zero : ascii := Ascii.zero.

Fixpoint encode (l : list ascii) : list ascii :=
  match l with
  | [] => []
  | [a] =>
      [char_of (first_of a); char_of (second_of a zero); pad; pad]
  | [a; b] =>
      [char_of (first_of a); char_of (second_of a b);
       char_of (third_of b zero); pad]
  | a :: b :: c :: r =>
      char_of (first_of a) :: char_of (second_of a b)
      :: char_of (third_of b c) :: char_of (fourth_of c) :: encode r
  end.

(** [btoa] *)
Definition btoa (s : string) : string :=
  string_of_list_ascii (encode (list_ascii_of_string s)).

(** The bytes of two, three and four sextets; left-over bits are
    dropped. *)
Definition byte1 (x y : sextet) : ascii :=
  let '(x5, x4, x3, x2, x1, x0) := x in
  let '(y5, y4, y3, y2, y1, y0) := y in Ascii y4 y5 x0 x1 x2 x3 x4 x5.

Definition byte2 (y z : sextet) : ascii :=
  let '(y5, y4, y3, y2, y1, y0) := y in
  let '(z5, z4, z3, z2, z1, z0) := z in Ascii z2 z3 z4 z5 y0 y1 y2 y3.

Definition byte3 (z w : sextet) : ascii :=
  let '(z5, z4, z3, z2, z1, z0) := z in
  let '(w5, w4, w3, w2, w1, w0) := w in Ascii w0 w1 w2 w3 w4 w5 z0 z1.

Definition decode2 (a b : ascii) : option (list ascii) :=
  match sextet_of a, sextet_of b with
  | Some x, Some y => Some [byte1 x y]
  | _, _ => None
  end.

Definition decode3 (a b c : ascii) : option (list ascii) :=
  match sextet_of a, sextet_of b, sextet_of c with
  | Some x, Some y, Some z => Some [byte1 x y; byte2 y z]
  | _, _, _ => None
  end.

Definition decode4 (a b c d : ascii) : option (list ascii) :=
  match sextet_of a, sextet_of b, sextet_of c, sextet_of d with
  | Some x, Some y, Some z, Some w => Some [byte1 x y; byte2 y z; byte3 z w]
  | _, _, _, _ => None
  end.

(** The forgiving decoding of [atob], read group by group: padding counts
    only at the end of a text whose length is a multiple of four, a
    single left-over character is an error, and so is any character
    outside the alphabet. *)
Fixpoint decode (l : list ascii) : option (list ascii) :=
  match l with
  | [] => Some []
  | [a] => None
  | [a; b] => decode2 a b
  | [a; b; c] => decode3 a b c
  | [a; b; c; d] =>
      if is_pad d then (if is_pad c then decode2 a b else decode3 a b c)
      else decode4 a b c d
  | a :: b :: c :: d :: r =>
      match decode4 a b c d, decode r with
      | Some x, Some y => Some (x ++ y)
      | _, _ => None
      end
  end.

Definition is_space (c : ascii) : bool :=
  let n := nat_of_ascii c in
  Nat.eqb n 9 || Nat.eqb n 10 || Nat.eqb n 12 || Nat.eqb n 13 || Nat.eqb n 32.

(** [atob]; [None] stands for the [InvalidCharacterError] it throws. *)
Definition atob (s : string) : option string :=
  match decode (filter (fun c => negb (is_space c)) (list_ascii_of_string s)) with
  | Some l => Some (string_of_list_ascii l)
  | None => None
  end.

End Base64.

(* ================================================================== *)
(** ** [Base64Utils], [StorageWrapper] and [R1Storage] *)

(** A JavaScript string is a sequence of 16-bit code units; [string]
    holds the strings whose code units are all below 256, which is what
    [btoa] accepts and what [atob] returns.  A value handed to the storage
    wrapper may be any string. *)
Definition JSString := list nat.

Definition code_units (s : string) : JSString :=
  map nat_of_ascii (list_ascii_of_string s).

(** The string, when every code unit is at most 0xFF. *)
Fixpoint latin1 (t : JSString) : option string :=
  match t with
  | [] => Some EmptyString
  | u :: r =>
      if Nat.ltb u 256
      then match latin1 r with
           | Some s => Some (String (ascii_of_nat u) s)
           | None => None
           end
      else None
  end.

(** The [DOMException] named InvalidCharacterError. *)
Definition InvalidCharacter : Exn := DOMException "InvalidCharacterError".

(** [btoa(t)] as the platform has it: it throws on a code unit above
    0xFF. *)
Definition window_btoa (t : JSString) : Exn + string :=
  match latin1 t with
  | Some s => inr (Base64.btoa s)
  | None => inl InvalidCharacter
  end.

(** What is handed to [encode]: a string, or any other value, known by
    what [JSON.stringify] does with it. *)
Inductive Data :=
| Text (s : JSString)
| Value (json : Stringified JSString).

(** What comes back: [null], a string, or what [JSON.parse] returned. *)
Inductive Stored :=
| Null
| StoredText (s : string)
| Parsed (v : JSON.value).

Inductive DecodeError :=
| InvalidCharacterError   (* thrown by atob *)
| SyntaxError.            (* thrown by JSON.parse *)

(** [Base64Utils.encode]: the Base64 text, or what [JSON.stringify] or
    [btoa] throws.  [btoa(undefined)] encodes the text "undefined". *)
Definition Base64Utils_encode (data : Data) : Exn + string :=
  match data with
  | Text s => window_btoa s                       (* typeof data === 'string' *)
  | Value (Throws e) => inl e
  | Value NoText => window_btoa (code_units "undefined")
  | Value (Json t) => window_btoa t
  end.

(** [Base64Utils.decode] *)
Definition Base64Utils_decode (encoded : string) (parseJson : bool)
  : DecodeError + Stored :=
  match Base64.atob encoded with
  | None => inl InvalidCharacterError
  | Some decoded =>
      if parseJson then
        match JSON.parse decoded with
        | Some v => inr (Parsed v)
        | None => inl SyntaxError
        end
      else inr (StoredText decoded)
  end.

(** [Base64Utils.safeDecode]: the value, and what [console.warn] was
    given, if anything. *)
Definition safeDecode (encoded : option string) (parseJson : bool)
  : Stored * option DecodeError :=
  if negb (truthy encoded) then (Null, None)
  else match encoded with
       | Some e =>
           match Base64Utils_decode e parseJson with
           | inr v => (v, None)
           | inl err => (Null, Some err)
           end
       | None => (Null, None)
       end.

(** The host's key-value store behind a [StorageAPI]. *)
Definition Store := JSMap.t string string.

Definition store_get := JSMap.get (V:=string) String.eqb.
Definition store_set := JSMap.set (V:=string) String.eqb.

(** [StorageWrapper], on the store it wraps.  [setItem]: the store
    afterwards, or the error its promise is rejected with, in which case
    the host's [setItem] was never called. *)
Definition wrapper_setItem (k : string) (value : Data) (st : Store)
  : Exn + Store :=
  match Base64Utils_encode value with
  | inr encoded => inr (store_set k encoded st)
  | inl e => inl e
  end.

Definition wrapper_getItem (k : string) (parseJson : bool) (st : Store)
  : Stored :=
  fst (safeDecode (store_get k st) parseJson).

Definition wrapper_removeItem (k : string) (st : Store) : Store :=
  JSMap.delete String.eqb k st.

Definition wrapper_clear (st : Store) : Store := [].

Definition wrapper_setRaw (k : string) (base64Value : string) (st : Store)
  : Store :=
  store_set k base64Value st.

Definition wrapper_getRaw (k : string) (st : Store) : option string :=
  store_get k st.

(** [window.creationStorage] as [R1Storage] sees it: is there a [window],
    and which of the two stores does it offer. *)
Record StorageHost := {
  sh_window : bool;
  sh_plain : option Store;      (* window.creationStorage?.plain *)
  sh_secure : option Store      (* window.creationStorage?.secure *)
}.


Definition secure_unavailable : string :=
  "Secure storage not available. Make sure you are running on Android M+ in R1 environment.".


Definition get_secure (h : StorageHost) : Exn + Store :=
  if negb (sh_window h) then inl (ReferenceError "window")
  else match sh_secure h with
       | Some st => inr st
       | None => inl (Error secure_unavailable)
       end.

Definition secret_key (k : string) : string := ("secret_" ++ k)%string.

(** [setSecret(key, value)]: the host afterwards, or the error the
    promise is rejected with. *)
Definition setSecret (k : string) (value : JSString) (h : StorageHost)
  : Exn + StorageHost :=
  match get_secure h with
  | inr st =>
      match wrapper_setItem (secret_key k) (Text value) st with
      | inr st' =>
          inr {| sh_window := sh_window h; sh_plain := sh_plain h;
                 sh_secure := Some st' |}
      | inl e => inl e
      end
  | inl e => inl e
  end.

(** [getSecret(key)] *)
Definition getSecret (k : string) (h : StorageHost) : Exn + Stored :=
  match get_secure h with
  | inr st => inr (wrapper_getItem (secret_key k) false st)
  | inl e => inl e
  end.




(* ================================================================== *)
(** ** The registry during a dispatch, and what the claims read into it *)

(** What one SDK call does to the registry of response consumers, and
    what a callback's calls do to it in turn. *)
Definition messages_call (c : SdkCall) (X : JSSet.t) : JSSet.t :=
  match c with
  | Call_onMessage h => JSSet.add h X
  | Call_offMessage h => JSSet.delete h X
  | Call_removeAllHandlers => JSSet.clear X
  | _ => X
  end.

Definition messages_after (cs : list SdkCall) (X : JSSet.t) : JSSet.t :=
  fold_left (fun X c => messages_call c X) cs X.

(** Is the call [onMessage(h)]; does it take [h] out of the registry
    ([offMessage(h)] or [removeAllHandlers()]); is it [offMessage(h)]. *)
Definition is_on (h : Handler) (c : SdkCall) : bool :=
  match c with
  | Call_onMessage x => Nat.eqb x h
  | _ => false
  end.

Definition is_off (h : Handler) (c : SdkCall) : bool :=
  match c with
  | Call_offMessage x => Nat.eqb x h
  | Call_removeAllHandlers => true
  | _ => false
  end.

Definition is_own_off (h : Handler) (c : SdkCall) : bool :=
  match c with
  | Call_offMessage x => Nat.eqb x h
  | _ => false
  end.

(** A callback that registers, or unregisters, the consumer [h]. *)
Definition registers (b : Behaviour) (h : Handler) : bool :=
  existsb (is_on h) (hb_calls b).

Definition unregisters (b : Behaviour) (h : Handler) : bool :=
  existsb (is_off h) (hb_calls b).

(** The callback of [h] changes no registration but its own, and that in
    one direction: the calls it makes on the registry are all
    [onMessage(h)], or all [offMessage(h)]. *)
Definition only_itself (h : Handler) (b : Behaviour) : bool :=
  forallb (fun c => negb (touches_messages c) || is_on h c) (hb_calls b)
  || forallb (fun c => negb (touches_messages c) || is_own_off h c) (hb_calls b).

(** A consumer one can expect to be called in a dispatch that began in
    [s0] and has called [T] so far: it was registered at the start, or a
    callback called so far registers it. *)
Definition known (code : Handler -> Arg -> Behaviour) (d : EnhancedData)
  (s0 : State) (T : list Handler) (h : Handler) : bool :=
  JSSet.has h (messageHandlers s0)
  || existsb (fun g => registers (code g (ArgEnvelope d)) h) T.

(** No callback called so far unregisters [h]. *)
Definition kept (code : Handler -> Arg -> Behaviour) (d : EnhancedData)
  (T : list Handler) (h : Handler) : bool :=
  forallb (fun g => negb (unregisters (code g (ArgEnvelope d)) h)) T.

(** What holds whenever the walk of a dispatch that began in [s0] stands
    at index [i] in state [x]. *)
Definition walk_invariant (code : Handler -> Arg -> Behaviour)
  (d : EnhancedData) (s0 : State) (i : nat) (x : State) : Prop :=
  exists T,
    calls x = calls s0 ++ each_with (ArgEnvelope d) T
    /\ JSSet.wf (messageHandlers x)
    /\ (forall h, In h (JSSet.values (messageHandlers x)) \/ In h T ->
                  known code d s0 T h = true)
    /\ (forall k h, k < i ->
                    nth_error (messageHandlers x) k = Some (Some h) -> In h T)
    /\ (forall h, kept code d T h = true -> known code d s0 T h = true ->
                  exists k,
                    nth_error (messageHandlers x) k = Some (Some h)
                    /\ count_occ (A:=Handler) Nat.eq_dec T h
                       = if Nat.ltb k i then 1 else 0).

(** Callback 1 unsubscribes itself while it runs. *)
Definition code_leaving (h : Handler) (_ : Arg) : Behaviour :=
  if Nat.eqb h 1
  then {| hb_calls := [Call_offMessage 1]; hb_throws := false |}
  else quiet.

(** Callback 1 unsubscribes callback 2 and subscribes it again, at each
    registry. *)
Definition code_resubscribing (h : Handler) (_ : Arg) : Behaviour :=
  if Nat.eqb h 1
  then {| hb_calls := [Call_offMessage 2; Call_onMessage 2;
                       Call_hardware_off sideClick 2;
                       Call_hardware_on sideClick 2;
                       Call_controls_off sideButton 2;
                       Call_controls_on sideButton 2;
                       Call_controls_off scrollWheel 2;
                       Call_controls_on scrollWheel 2];
          hb_throws := false |}
  else quiet.

(** The completeness reading of a dispatch: whatever the callbacks do,
    one call of the slot calls each of the registered consumers [hs]
    exactly once. *)
Definition fanout_complete (code : Handler -> Arg -> Behaviour) (fuel : nat)
  (data : PluginMessageResponse) (hs : list Handler) : Prop :=
  exists s',
    onPluginMessage code fuel data (subscribe_all hs (loaded true true))
    = Some (Normal, s')
    /\ forall h, In h hs ->
                 count_occ (A:=Handler) Nat.eq_dec (map fst (calls s')) h = 1.

(** The members of a list that come before [h]. *)
Fixpoint before (h : Handler) (l : list Handler) : list Handler :=
  match l with
  | [] => []
  | x :: r => if Nat.eqb x h then [] else x :: before h r
  end.

(** The consumers a fan-out without a guard calls when no callback
    changes the set: those of the list up to the first one that throws,
    that one included. *)
Fixpoint until_throw (throws : Handler -> bool) (l : list Handler)
  : list Handler :=
  match l with
  | [] => []
  | x :: r => if throws x then [x] else x :: until_throw throws r
  end.

(** The fan-out a gate listener starts for its channel,
    [handleSideButtonClick(event)] or
    [handleScrollWheel({ direction, event })], and what it hands the
    consumers. *)
Definition channel_fanout (code : Handler -> Arg -> Behaviour) (fuel : nat)
  (c : Channel) (dir : Direction) (e : Event)
  : State -> option (Completion * State) :=
  match c with
  | sideButton => handleSideButtonClick code fuel e
  | scrollWheel => handleScrollWheel code fuel {| direction := dir; event := e |}
  end.

Definition channel_arg (c : Channel) (dir : Direction) (e : Event) : Arg :=
  match c with
  | sideButton => ArgEvent e
  | scrollWheel => ArgScroll {| direction := dir; event := e |}
  end.

(** The reading of C10 on a delivery: whatever the callbacks do, the
    run calls [h] exactly once. *)
Definition delivers_once (run : State -> option (Completion * State))
  (h : Handler) (s : State) : Prop :=
  exists c s',
    run s = Some (c, s')
    /\ count_occ (A:=Handler) Nat.eq_dec (map fst (delivered s s')) h = 1.

(** A gate that [init] left without its [sideClick] listener: the
    normalizer's listener is alone on [window] for that event, and nobody
    is registered on the hardware tag. *)
Definition gate_missing (s : State) : Prop :=
  listeners_for (HW sideClick) s = [HardwareListener sideClick]
  /\ hw_get sideClick (listeners s) = None.

(** [init] called with [sideButtonEnabled: false]. *)
Definition disabled_at_init (sw kb : option bool) : DeviceControlsOptions :=
  {| opt_sideButtonEnabled := Some false; opt_scrollWheelEnabled := sw;
     opt_keyboardFallback := kb |}.

(* ================================================================== *)
(** * Properties *)

Unset Implicit Arguments.

(** ** Sets and maps *)

Module JSSetFacts.
Import JSSet.

Lemma values_app (s1 s2 : t) : values (s1 ++ s2) = values s1 ++ values s2.
Proof.
  induction s1 as [|[h|] s1 IH]; simpl; [reflexivity | now f_equal | assumption].
Qed.

Lemma has_spec (h : Handler) (s : t) : has h s = true <-> In h (values s).
Proof.
  unfold has. induction s as [|[h'|] s IH]; simpl.
  - split; [discriminate | tauto].
  - rewrite orb_true_iff, IH, Nat.eqb_eq. tauto.
  - exact IH.
Qed.

Lemma has_false (h : Handler) (s : t) : has h s = false <-> ~ In h (values s).
Proof.
  rewrite <- has_spec. destruct (has h s); split; congruence.
Qed.

Lemma values_add (h : Handler) (s : t) :
  values (add h s) = if has h s then values s else values s ++ [h].
Proof.
  unfold add. destruct (has h s); [reflexivity | apply values_app].
Qed.

Lemma has_add (h : Handler) (s : t) : has h (add h s) = true.
Proof.
  apply has_spec. rewrite values_add.
  destruct (has h s) eqn:E; [now apply has_spec | apply in_or_app; simpl; tauto].
Qed.

Lemma add_idem (h : Handler) (s : t) : add h (add h s) = add h s.
Proof. unfold add at 1. now rewrite has_add. Qed.

Lemma values_delete (h : Handler) (s : t) :
  values (delete h s) = remove Nat.eq_dec h (values s).
Proof.
  induction s as [|[h'|] s IH]; simpl; trivial.
  destruct (Nat.eq_dec h h') as [->|N].
  - now rewrite Nat.eqb_refl.
  - destruct (Nat.eqb_spec h' h); [congruence | simpl; now f_equal].
Qed.

Lemma has_delete (h : Handler) (s : t) : has h (delete h s) = false.
Proof. apply has_false. rewrite values_delete. apply remove_In. Qed.

Lemma values_clear (s : t) : values (clear s) = [].
Proof. induction s; simpl; trivial. Qed.

Lemma length_delete (h : Handler) (s : t) :
  List.length (delete h s) = List.length s.
Proof. apply length_map. Qed.

Lemma delete_app (h : Handler) (s1 s2 : t) :
  delete h (s1 ++ s2) = delete h s1 ++ delete h s2.
Proof. apply map_app. Qed.

Lemma delete_absent (h : Handler) (s : t) :
  ~ In h (values s) -> delete h s = s.
Proof.
  induction s as [|[h'|] s IH]; simpl; intros N; trivial.
  - destruct (Nat.eqb_spec h' h); [tauto | f_equal; tauto].
  - f_equal; tauto.
Qed.

Lemma wf_empty : wf empty.
Proof. constructor. Qed.

Lemma wf_add (h : Handler) (s : t) : wf s -> wf (add h s).
Proof.
  unfold wf. rewrite values_add. destruct (has h s) eqn:E; trivial.
  intros W. apply NoDup_app; trivial.
  - repeat constructor. simpl. tauto.
  - intros x Hx [<-|[]]. apply has_false in E. tauto.
Qed.

Lemma NoDup_remove_eq (h : Handler) (l : list Handler) :
  NoDup l -> NoDup (remove Nat.eq_dec h l).
Proof.
  induction 1 as [|x l N W IH]; simpl; [constructor|].
  destruct (Nat.eq_dec h x); trivial.
  constructor; trivial. intros I. apply in_remove in I. tauto.
Qed.

Lemma wf_delete (h : Handler) (s : t) : wf s -> wf (delete h s).
Proof. unfold wf. rewrite values_delete. apply NoDup_remove_eq. Qed.

Lemma wf_clear (s : t) : wf (clear s).
Proof. unfold wf. rewrite values_clear. constructor. Qed.

End JSSetFacts.

Module JSMapFacts.
Section WithKey.

Variables K V : Type.
Variable eqb : K -> K -> bool.
Hypothesis eqb_eq : forall a b, eqb a b = true <-> a = b.

Local Notation get := (JSMap.get (V:=V) eqb).
Local Notation set := (JSMap.set (V:=V) eqb).
Local Notation has := (JSMap.has (V:=V) eqb).
Local Notation replace := (JSMap.replace (V:=V) eqb).

Lemma eqb_refl (k : K) : eqb k k = true.
Proof. now apply eqb_eq. Qed.

Lemma eqb_neq (a b : K) : a <> b -> eqb a b = false.
Proof.
  intros N. destruct (eqb a b) eqn:E; trivial. apply eqb_eq in E. tauto.
Qed.

Lemma get_replace_same (k : K) (v : V) (m : JSMap.t K V) :
  has k m = true -> get k (replace k v m) = Some v.
Proof.
  unfold JSMap.has. induction m as [|[k' v'] m IH]; simpl; [discriminate|].
  destruct (eqb k' k) eqn:E; simpl; rewrite E; auto.
Qed.

Lemma get_replace_other (k k' : K) (v : V) (m : JSMap.t K V) :
  k <> k' -> get k (replace k' v m) = get k m.
Proof.
  intros N. induction m as [|[k0 v0] m IH]; simpl; trivial.
  destruct (eqb k0 k') eqn:E; simpl.
  - apply eqb_eq in E. subst k0.
    rewrite (eqb_neq k' k); [reflexivity | congruence].
  - now rewrite IH.
Qed.

Lemma get_app_absent (k : K) (m m' : JSMap.t K V) :
  get k m = None -> get k (m ++ m') = get k m'.
Proof.
  induction m as [|[k0 v0] m IH]; simpl; trivial.
  destruct (eqb k0 k); [discriminate | exact IH].
Qed.

Lemma get_app_present (k : K) (v : V) (m m' : JSMap.t K V) :
  get k m = Some v -> get k (m ++ m') = Some v.
Proof.
  induction m as [|[k0 v0] m IH]; simpl; [discriminate|].
  destruct (eqb k0 k); auto.
Qed.

Lemma get_set_same (k : K) (v : V) (m : JSMap.t K V) :
  get k (set k v m) = Some v.
Proof.
  unfold JSMap.set. destruct (has k m) eqn:E.
  - now apply get_replace_same.
  - unfold JSMap.has in E. destruct (get k m) eqn:G; [discriminate|].
    rewrite get_app_absent by assumption. simpl. now rewrite eqb_refl.
Qed.

Lemma get_set_other (k k' : K) (v : V) (m : JSMap.t K V) :
  k <> k' -> get k (set k' v m) = get k m.
Proof.
  intros N. unfold JSMap.set. destruct (has k' m).
  - now apply get_replace_other.
  - destruct (get k m) eqn:G.
    + now apply get_app_present.
    + rewrite get_app_absent by assumption. simpl.
      rewrite eqb_neq; [reflexivity | congruence].
Qed.

Lemma has_set (k : K) (v : V) (m : JSMap.t K V) : has k (set k v m) = true.
Proof. unfold JSMap.has at 1. now rewrite get_set_same. Qed.

Lemma replace_replace (k : K) (v v' : V) (m : JSMap.t K V) :
  replace k v (replace k v' m) = replace k v m.
Proof.
  induction m as [|[k0 v0] m IH]; simpl; trivial.
  destruct (eqb k0 k) eqn:E; simpl; rewrite E; [reflexivity | now f_equal].
Qed.

Lemma replace_app_absent (k : K) (v v' : V) (m : JSMap.t K V) :
  get k m = None -> replace k v (m ++ [(k, v')]) = m ++ [(k, v)].
Proof.
  induction m as [|[k0 v0] m IH]; simpl.
  - now rewrite eqb_refl.
  - destruct (eqb k0 k); [discriminate | intros G; f_equal; auto].
Qed.

Lemma set_set (k : K) (v v' : V) (m : JSMap.t K V) :
  set k v (set k v' m) = set k v m.
Proof.
  unfold JSMap.set at 1. rewrite has_set. unfold JSMap.set.
  destruct (has k m) eqn:E.
  - apply replace_replace.
  - apply replace_app_absent. unfold JSMap.has in E.
    destruct (get k m); [discriminate | reflexivity].
Qed.

Lemma set_get (k : K) (v : V) (m : JSMap.t K V) :
  get k m = Some v -> set k v m = m.
Proof.
  intros G. unfold JSMap.set, JSMap.has. rewrite G.
  induction m as [|[k0 v0] m IH]; simpl in *; trivial.
  destruct (eqb k0 k); [congruence | f_equal; auto].
Qed.

End WithKey.
End JSMapFacts.

Lemma HardwareEventType_eqb_eq (a b : HardwareEventType) :
  HardwareEventType_eqb a b = true <-> a = b.
Proof. destruct a, b; simpl; split; congruence. Qed.

Lemma Channel_eqb_eq (a b : Channel) : Channel_eqb a b = true <-> a = b.
Proof. destruct a, b; simpl; split; congruence. Qed.

(** ** Entries of a set under the registry calls *)

Module JSSetEntries.
Import JSSet.

Lemma nth_error_add (h : Handler) (X : t) (k : nat) :
  k < List.length X -> nth_error (add h X) k = nth_error X k.
Proof.
  unfold add. destruct (has h X); trivial. intros L. now rewrite nth_error_app1.
Qed.

Lemma nth_error_delete (h : Handler) (X : t) (k : nat) :
  nth_error (delete h X) k
  = option_map (fun e => if holds h e then None else e) (nth_error X k).
Proof. apply nth_error_map. Qed.

Lemma nth_error_clear (X : t) (k : nat) :
  nth_error (clear X) k = option_map (fun _ => None) (nth_error X k).
Proof. apply nth_error_map. Qed.

Lemma entry_member (h : Handler) (X : t) :
  forall k, nth_error X k = Some (Some h) -> In h (values X).
Proof.
  induction X as [|e X IH]; intros [|k] E; try discriminate E.
  - simpl in E. inversion E. now left.
  - simpl in E. destruct e; simpl; [right|]; eauto.
Qed.

Lemma member_entry (h : Handler) (X : t) :
  In h (values X) -> exists k, nth_error X k = Some (Some h).
Proof.
  induction X as [|[x|] X IH]; simpl; intros I.
  - destruct I.
  - destruct I as [->|I]; [now exists 0|].
    destruct (IH I) as [k E]. now exists (S k).
  - destruct (IH I) as [k E]. now exists (S k).
Qed.

Lemma wf_tail (e : option Handler) (X : t) : wf (e :: X) -> wf X.
Proof.
  unfold wf. destruct e; simpl; trivial. intros N. now inversion N.
Qed.

(** In a well-formed set a function sits in one slot only. *)
Lemma entry_unique (h : Handler) (X : t) :
  wf X ->
  forall a b, nth_error X a = Some (Some h) -> nth_error X b = Some (Some h) ->
              a = b.
Proof.
  induction X as [|e X IH]; intros W a b A B.
  - destruct a; discriminate A.
  - destruct a as [|a], b as [|b]; simpl in A, B; trivial.
    + inversion A; subst e. apply entry_member in B.
      unfold wf in W. simpl in W. inversion W. tauto.
    + inversion B; subst e. apply entry_member in A.
      unfold wf in W. simpl in W. inversion W. tauto.
    + f_equal. apply IH; trivial. now apply wf_tail in W.
Qed.

(** Behind the slot of [h], a well-formed set does not hold [h]. *)
Lemma delete_behind (h : Handler) (X : t) :
  wf X ->
  forall i, nth_error X i = Some (Some h) ->
            skipn (S i) (delete h X) = skipn (S i) X.
Proof.
  intros W i E. unfold delete. rewrite skipn_map.
  rewrite <- (map_id (skipn (S i) X)) at 2.
  apply map_ext_in. intros e I.
  destruct e as [x|]; simpl; trivial.
  destruct (Nat.eqb_spec x h) as [->|]; trivial.
  apply In_nth_error in I as [j J]. rewrite nth_error_skipn in J.
  pose proof (entry_unique h X W _ _ E J). lia.
Qed.

Lemma delete_twice (h : Handler) (X : t) : delete h (delete h X) = delete h X.
Proof.
  unfold delete. rewrite map_map. apply map_ext. intros [x|]; simpl; trivial.
  destruct (Nat.eqb x h) eqn:Q; simpl; trivial. now rewrite Q.
Qed.

Lemma add_present (h : Handler) (X : t) :
  forall k, nth_error X k = Some (Some h) -> add h X = X.
Proof.
  intros k E. unfold add.
  assert (H : has h X = true) by (apply JSSetFacts.has_spec; eapply entry_member; eauto).
  now rewrite H.
Qed.

End JSSetEntries.

Import JSSetEntries.

Lemma messages_after_cons (c : SdkCall) (cs : list SdkCall) (X : JSSet.t) :
  messages_after (c :: cs) X = messages_after cs (messages_call c X).
Proof. reflexivity. Qed.

Lemma messages_call_length (c : SdkCall) (X : JSSet.t) :
  List.length X <= List.length (messages_call c X).
Proof.
  destruct c; simpl; try apply Nat.le_refl.
  - unfold JSSet.add. destruct (JSSet.has h X); trivial.
    rewrite length_app. lia.
  - unfold JSSet.delete. now rewrite length_map.
  - unfold JSSet.clear. now rewrite length_map.
Qed.

Lemma messages_after_length (cs : list SdkCall) :
  forall X, List.length X <= List.length (messages_after cs X).
Proof.
  induction cs as [|c cs IH]; intros X; [apply Nat.le_refl|].
  rewrite messages_after_cons.
  eapply Nat.le_trans; [apply messages_call_length | apply IH].
Qed.

Lemma messages_after_wf (cs : list SdkCall) :
  forall X, JSSet.wf X -> JSSet.wf (messages_after cs X).
Proof.
  induction cs as [|c cs IH]; intros X W; trivial.
  rewrite messages_after_cons. apply IH.
  destruct c; simpl; trivial.
  - now apply JSSetFacts.wf_add.
  - now apply JSSetFacts.wf_delete.
  - apply JSSetFacts.wf_clear.
Qed.

(** A slot never changes from one function to another, and an emptied
    slot stays empty. *)
Lemma entry_stable (cs : list SdkCall) :
  forall X k y,
    k < List.length X ->
    nth_error (messages_after cs X) k = Some (Some y) ->
    nth_error X k = Some (Some y).
Proof.
  induction cs as [|c cs IH]; intros X k y L E; trivial.
  rewrite messages_after_cons in E.
  apply IH in E.
  2:{ eapply Nat.lt_le_trans; [exact L | apply messages_call_length]. }
  destruct c; simpl in E; trivial.
  - now rewrite nth_error_add in E.
  - rewrite nth_error_delete in E.
    destruct (nth_error X k) as [e|]; [|discriminate E]. simpl in E.
    destruct (JSSet.holds h e); [discriminate E | exact E].
  - rewrite nth_error_clear in E.
    destruct (nth_error X k); discriminate E.
Qed.

(** A consumer stays in its slot as long as nothing unregisters it. *)
Lemma entry_kept (h : Handler) (cs : list SdkCall) :
  forall X k,
    nth_error X k = Some (Some h) ->
    existsb (is_off h) cs = false ->
    nth_error (messages_after cs X) k = Some (Some h).
Proof.
  induction cs as [|c cs IH]; intros X k E N; trivial.
  rewrite messages_after_cons. simpl in N.
  apply orb_false_iff in N as [Nc N].
  apply IH; trivial.
  destruct c; simpl in *; trivial.
  - rewrite nth_error_add; trivial.
    apply nth_error_Some. congruence.
  - rewrite nth_error_delete, E. simpl.
    destruct (Nat.eqb_spec h h0) as [->|]; [|reflexivity].
    now rewrite Nat.eqb_refl in Nc.
  - discriminate Nc.
Qed.

(** A member of the registry was a member before, or was registered. *)
Lemma member_origin (y : Handler) (cs : list SdkCall) :
  forall X,
    In y (JSSet.values (messages_after cs X)) ->
    In y (JSSet.values X) \/ existsb (is_on y) cs = true.
Proof.
  induction cs as [|c cs IH]; intros X I; [now left|].
  rewrite messages_after_cons in I. simpl.
  destruct (IH _ I) as [J|J]; [|right; rewrite J; apply orb_true_r].
  destruct c; simpl in *; auto.
  - rewrite JSSetFacts.values_add in J.
    destruct (JSSet.has h X); auto.
    apply in_app_or in J as [J|[<-|[]]]; auto.
    right. now rewrite Nat.eqb_refl.
  - rewrite JSSetFacts.values_delete in J. apply in_remove in J. tauto.
  - rewrite JSSetFacts.values_clear in J. destruct J.
Qed.

(** A consumer that is registered and not unregistered is a member. *)
Lemma registered_member (h : Handler) (cs : list SdkCall) :
  forall X,
    existsb (is_on h) cs = true ->
    existsb (is_off h) cs = false ->
    In h (JSSet.values (messages_after cs X)).
Proof.
  induction cs as [|c cs IH]; intros X R N; [discriminate R|].
  rewrite messages_after_cons. simpl in R, N.
  apply orb_false_iff in N as [Nc N].
  destruct (is_on h c) eqn:O.
  - destruct c; try discriminate O. simpl in O.
    apply Nat.eqb_eq in O. subst h0.
    change (messages_call (Call_onMessage h) X) with (JSSet.add h X).
    assert (M : In h (JSSet.values (JSSet.add h X)))
      by (apply JSSetFacts.has_spec, JSSetFacts.has_add).
    apply member_entry in M as [k E].
    apply (entry_member h _ k). apply entry_kept; [exact E | exact N].
  - simpl in R. now apply IH.
Qed.

(** What a callback that changes its own registration only does to the
    part of the registry behind its slot: nothing. *)
Lemma own_change_behind (h : Handler) (b : list SdkCall) (X : JSSet.t)
  (i : nat) :
  JSSet.wf X ->
  nth_error X i = Some (Some h) ->
  forallb (fun c => negb (touches_messages c) || is_on h c) b
  || forallb (fun c => negb (touches_messages c) || is_own_off h c) b = true ->
  skipn (S i) (messages_after b X) = skipn (S i) X.
Proof.
  intros W E O. apply orb_true_iff in O as [O|O].
  - assert (Q : messages_after b X = X); [|now rewrite Q].
    clear W. induction b as [|c b IH]; trivial.
    simpl in O. apply andb_true_iff in O as [Oc O].
    rewrite messages_after_cons.
    assert (C : messages_call c X = X).
    { destruct c; simpl in *; try discriminate Oc; trivial.
      apply Nat.eqb_eq in Oc. subst h0. now apply (add_present h X i). }
    rewrite C. now apply IH.
  - assert (Q : messages_after b X = X \/ messages_after b X = JSSet.delete h X).
    { assert (G : forall Y, Y = X \/ Y = JSSet.delete h X ->
                            messages_after b Y = X
                            \/ messages_after b Y = JSSet.delete h X);
        [|apply G; now left].
      induction b as [|c b IH]; intros Y Hy; trivial.
      simpl in O. apply andb_true_iff in O as [Oc O].
      rewrite messages_after_cons. apply IH; trivial.
      destruct c; simpl in *; try discriminate Oc; trivial.
      apply Nat.eqb_eq in Oc. subst h0.
      destruct Hy as [->| ->]; right; trivial. apply delete_twice. }
    destruct Q as [-> | ->]; trivial. now apply delete_behind.
Qed.

(** ** What the SDK calls leave alone *)

Ltac break_match :=
  repeat match goal with
         | |- context [match ?x with _ => _ end] => destruct x
         | |- context [if ?x then _ else _] => destruct x
         end.

Ltac field_kept :=
  intros;
  unfold run_call, onMessage, offMessage, removeAllHandlers,
    HardwareEvents_on, HardwareEvents_off, DeviceControls_on,
    DeviceControls_off, setSideButtonEnabled, setScrollWheelEnabled;
  break_match; reflexivity.

Lemma run_call_calls (c : SdkCall) (s : State) : calls (run_call c s) = calls s.
Proof. field_kept. Qed.


Lemma run_call_window_listeners (c : SdkCall) (s : State) :
  window_listeners (run_call c s) = window_listeners s.
Proof. field_kept. Qed.

Lemma run_call_messageHandlers (c : SdkCall) (s : State) :
  touches_messages c = false ->
  messageHandlers (run_call c s) = messageHandlers s.
Proof. destruct c; try discriminate; field_kept. Qed.

Lemma run_call_listeners (c : SdkCall) (s : State) :
  touches_hardware c = false -> listeners (run_call c s) = listeners s.
Proof. destruct c; try discriminate; field_kept. Qed.

Lemma run_call_eventListeners (c : SdkCall) (s : State) :
  touches_controls c = false ->
  eventListeners (run_call c s) = eventListeners s.
Proof. destruct c; try discriminate; field_kept. Qed.

Lemma run_call_sideButtonEnabled (c : SdkCall) (s : State) :
  sets_flag c = false -> sideButtonEnabled (run_call c s) = sideButtonEnabled s.
Proof. destruct c; try discriminate; field_kept. Qed.

Lemma run_call_scrollWheelEnabled (c : SdkCall) (s : State) :
  sets_flag c = false ->
  scrollWheelEnabled (run_call c s) = scrollWheelEnabled s.
Proof. destruct c; try discriminate; field_kept. Qed.

(** A field that every call of a list keeps is kept by the list. *)
Lemma run_calls_kept (A : Type) (field : State -> A)
  (touches : SdkCall -> bool) (cs : list SdkCall) :
  (forall c s, touches c = false -> field (run_call c s) = field s) ->
  forall s, forallb (fun c => negb (touches c)) cs = true ->
            field (run_calls cs s) = field s.
Proof.
  intros K. unfold run_calls.
  induction cs as [|c cs IH]; simpl; intros s L; trivial.
  apply andb_true_iff in L as [Lc L]. apply negb_true_iff in Lc.
  rewrite IH by assumption. now apply K.
Qed.

Lemma run_calls_always (A : Type) (field : State -> A) (cs : list SdkCall) :
  (forall c s, field (run_call c s) = field s) ->
  forall s, field (run_calls cs s) = field s.
Proof.
  intros K. unfold run_calls.
  induction cs as [|c cs IH]; simpl; intros s; trivial.
  now rewrite IH.
Qed.

(** ** [invoke] *)

Section InvokeFacts.

Variable code : Handler -> Arg -> Behaviour.

Lemma invoke_completion (h : Handler) (a : Arg) (s : State) :
  fst (invoke code h a s)
  = if hb_throws (code h a) then Throw (Thrown h) else Normal.
Proof. reflexivity. Qed.

Lemma invoke_calls (h : Handler) (a : Arg) (s : State) :
  calls (snd (invoke code h a s)) = calls s ++ [(h, a)].
Proof.
  unfold invoke. simpl.
  now rewrite (run_calls_always _ calls _ run_call_calls).
Qed.


Lemma invoke_window_listeners (h : Handler) (a : Arg) (s : State) :
  window_listeners (snd (invoke code h a s)) = window_listeners s.
Proof.
  unfold invoke. simpl.
  now rewrite (run_calls_always _ window_listeners _ run_call_window_listeners).
Qed.

Lemma invoke_messageHandlers (h : Handler) (a : Arg) (s : State) :
  leaves touches_messages (code h a) = true ->
  messageHandlers (snd (invoke code h a s)) = messageHandlers s.
Proof.
  intros L. unfold invoke. simpl.
  now rewrite (run_calls_kept _ messageHandlers touches_messages _
                 run_call_messageHandlers).
Qed.

Lemma invoke_listeners (h : Handler) (a : Arg) (s : State) :
  leaves touches_hardware (code h a) = true ->
  listeners (snd (invoke code h a s)) = listeners s.
Proof.
  intros L. unfold invoke. simpl.
  now rewrite (run_calls_kept _ listeners touches_hardware _
                 run_call_listeners).
Qed.

Lemma invoke_eventListeners (h : Handler) (a : Arg) (s : State) :
  leaves touches_controls (code h a) = true ->
  eventListeners (snd (invoke code h a s)) = eventListeners s.
Proof.
  intros L. unfold invoke. simpl.
  now rewrite (run_calls_kept _ eventListeners touches_controls _
                 run_call_eventListeners).
Qed.

Lemma invoke_sideButtonEnabled (h : Handler) (a : Arg) (s : State) :
  leaves sets_flag (code h a) = true ->
  sideButtonEnabled (snd (invoke code h a s)) = sideButtonEnabled s.
Proof.
  intros L. unfold invoke. simpl.
  now rewrite (run_calls_kept _ sideButtonEnabled sets_flag _
                 run_call_sideButtonEnabled).
Qed.

End InvokeFacts.

(** ** [forEach] *)

Section ForEachFacts.

Variable the_set : State -> JSSet.t.
Variable callbackfn : Handler -> Step.

Lemma forEach_end (fuel index : nat) (s : State) :
  List.length (the_set s) <= index ->
  forEach (S fuel) the_set callbackfn index s = Some (Normal, s).
Proof.
  intros L. simpl. apply nth_error_None in L. now rewrite L.
Qed.

Lemma nth_error_middle (A : Type) (pre suf : list A) (x : A) :
  nth_error (pre ++ x :: suf) (List.length pre) = Some x.
Proof.
  rewrite nth_error_app2 by lia. now rewrite Nat.sub_diag.
Qed.

Lemma run_all_set (hs : list Handler) :
  (forall h, In h hs -> steady the_set callbackfn h) ->
  forall s, the_set (run_all callbackfn hs s) = the_set s.
Proof.
  unfold run_all.
  induction hs as [|h hs IH]; simpl; intros St s; trivial.
  rewrite IH by auto. apply St. now left.
Qed.

(** The walk over a stretch of steady callbacks. *)
Lemma forEach_segment (mid : JSSet.t) :
  forall (pre suf : JSSet.t) (s : State) (fuel : nat),
    the_set s = pre ++ mid ++ suf ->
    (forall h, In h (JSSet.values mid) -> steady the_set callbackfn h) ->
    forEach (List.length mid + fuel) the_set callbackfn (List.length pre) s
    = forEach fuel the_set callbackfn (List.length pre + List.length mid)
        (run_all callbackfn (JSSet.values mid) s).
Proof.
  induction mid as [|e mid IH]; intros pre suf s fuel E St.
  - simpl. now rewrite Nat.add_0_r.
  - cbn [List.length Nat.add forEach]. simpl app in E.
    rewrite E, nth_error_middle.
    replace (List.length pre + S (List.length mid))
      with (List.length (pre ++ [e]) + List.length mid)
      by (rewrite length_app; simpl; lia).
    replace (S (List.length pre)) with (List.length (pre ++ [e]))
      by (rewrite length_app; simpl; lia).
    destruct e as [h|].
    + destruct (St h (or_introl eq_refl) s) as [C K].
      destruct (callbackfn h s) as [c s1] eqn:Cb. simpl in C, K. subst c.
      simpl JSSet.values. unfold run_all at 1. simpl fold_left.
      rewrite Cb. simpl snd.
      apply (IH (pre ++ [Some h]) suf).
      * rewrite K, E, <- app_assoc. reflexivity.
      * intros h' I. apply St. now right.
    + simpl JSSet.values.
      apply (IH (pre ++ [None]) suf).
      * rewrite E, <- app_assoc. reflexivity.
      * exact St.
Qed.

(** With steady callbacks from the index on, the walk ends normally
    after calling each remaining member once, in order. *)
Lemma forEach_steady (pre suf : JSSet.t) (s : State) (fuel : nat) :
  the_set s = pre ++ suf ->
  (forall h, In h (JSSet.values suf) -> steady the_set callbackfn h) ->
  List.length suf < fuel ->
  forEach fuel the_set callbackfn (List.length pre) s
  = Some (Normal, run_all callbackfn (JSSet.values suf) s).
Proof.
  intros E St L.
  replace fuel with (List.length suf + S (fuel - List.length suf - 1)) by lia.
  rewrite (forEach_segment suf pre [] s) by (rewrite ?app_nil_r; assumption).
  apply forEach_end. rewrite run_all_set by assumption.
  rewrite E, length_app. lia.
Qed.

Lemma run_all_calls (a : Arg) (hs : list Handler) :
  (forall h s, calls (snd (callbackfn h s)) = calls s ++ [(h, a)]) ->
  forall s, calls (run_all callbackfn hs s) = calls s ++ each_with a hs.
Proof.
  intros C. unfold run_all.
  induction hs as [|h hs IH]; simpl; intros s.
  - now rewrite app_nil_r.
  - rewrite IH, C, <- app_assoc. reflexivity.
Qed.

(** An invariant of every callback is an invariant of the walk. *)
Lemma forEach_invariant (P : State -> Prop) :
  (forall h s, P s -> P (snd (callbackfn h s))) ->
  forall fuel index s c s',
    P s -> forEach fuel the_set callbackfn index s = Some (c, s') -> P s'.
Proof.
  intros Inv. induction fuel as [|f IH]; simpl; intros index s c s' Ps R.
  - discriminate.
  - destruct (nth_error (the_set s) index) as [[h|]|].
    + specialize (Inv h s Ps).
      destruct (callbackfn h s) as [[|e] s1]; simpl in Inv.
      * exact (IH _ _ _ _ Inv R).
      * now inversion R; subst.
    + exact (IH _ _ _ _ Ps R).
    + now inversion R; subst.
Qed.

End ForEachFacts.

Lemma forEach_never_throws (the_set : State -> JSSet.t)
  (callbackfn : Handler -> Step) :
  (forall h s, fst (callbackfn h s) = Normal) ->
  forall fuel index s c s',
    forEach fuel the_set callbackfn index s = Some (c, s') -> c = Normal.
Proof.
  intros N. induction fuel as [|f IH]; simpl; intros index s c s' R.
  - discriminate.
  - destruct (nth_error (the_set s) index) as [[h|]|].
    + specialize (N h s). destruct (callbackfn h s) as [[|e] s1]; simpl in N.
      * exact (IH _ _ _ _ R).
      * discriminate.
    + exact (IH _ _ _ _ R).
    + now inversion R.
Qed.

Lemma forEach_fuel_mono (the_set : State -> JSSet.t)
  (callbackfn : Handler -> Step) :
  forall fuel index s r,
    forEach fuel the_set callbackfn index s = Some r ->
    forEach (S fuel) the_set callbackfn index s = Some r.
Proof.
  induction fuel as [|f IH]; intros index s r R; [discriminate|].
  cbn [forEach] in R. cbn [forEach].
  destruct (nth_error (the_set s) index) as [[h|]|]; trivial.
  - destruct (callbackfn h s) as [[|e] s1]; trivial. now apply IH.
  - now apply IH.
Qed.

Lemma forEach_fuel_le (the_set : State -> JSSet.t)
  (callbackfn : Handler -> Step) (f f' index : nat) (s : State)
  (r : Completion * State) :
  f <= f' ->
  forEach f the_set callbackfn index s = Some r ->
  forEach f' the_set callbackfn index s = Some r.
Proof.
  induction 1 as [|f' L IH]; trivial.
  intros R. apply forEach_fuel_mono. now apply IH.
Qed.

Lemma delivered_app (s s' : State) (l : list (Handler * Arg)) :
  calls s' = calls s ++ l -> delivered s s' = l.
Proof.
  intros E. unfold delivered. rewrite E, skipn_app, skipn_all, Nat.sub_diag.
  reflexivity.
Qed.

(** ** The response dispatcher *)

Section DispatcherFacts.

Variable code : Handler -> Arg -> Behaviour.
Variable d : EnhancedData.

Lemma guarded_normal (h : Handler) (s : State) :
  fst (guarded code d h s) = Normal.
Proof.
  unfold guarded.
  destruct (invoke code h (ArgEnvelope d) s) as [[|e] s']; reflexivity.
Qed.

Lemma guarded_calls (h : Handler) (s : State) :
  calls (snd (guarded code d h s)) = calls s ++ [(h, ArgEnvelope d)].
Proof.
  unfold guarded. rewrite <- (invoke_calls code h (ArgEnvelope d) s).
  destruct (invoke code h (ArgEnvelope d) s) as [[|e] s']; reflexivity.
Qed.

Lemma guarded_messageHandlers (h : Handler) (s : State) :
  leaves touches_messages (code h (ArgEnvelope d)) = true ->
  messageHandlers (snd (guarded code d h s)) = messageHandlers s.
Proof.
  intros L. unfold guarded.
  rewrite <- (invoke_messageHandlers code h (ArgEnvelope d) s L).
  destruct (invoke code h (ArgEnvelope d) s) as [[|e] s']; reflexivity.
Qed.


Lemma guarded_steady (h : Handler) :
  leaves touches_messages (code h (ArgEnvelope d)) = true ->
  steady messageHandlers (guarded code d) h.
Proof.
  intros L s. split; [apply guarded_normal | now apply guarded_messageHandlers].
Qed.

Lemma run_all_guarded_calls (hs : list Handler) (s : State) :
  calls (run_all (guarded code d) hs s)
  = calls s ++ each_with (ArgEnvelope d) hs.
Proof. apply run_all_calls. intros. apply guarded_calls. Qed.


End DispatcherFacts.

Section SlotFacts.

Variable code : Handler -> Arg -> Behaviour.

(** The slot never raises, whatever the callbacks do. *)
Lemma onPluginMessage_never_throws (fuel : nat)
  (data : PluginMessageResponse) (s s' : State) (c : Completion) :
  onPluginMessage code fuel data s = Some (c, s') -> c = Normal.
Proof.
  unfold onPluginMessage.
  destruct (forEach fuel messageHandlers (guarded code (enhance data)) 0 s)
    as [[[|e] s1]|] eqn:W; intros R; inversion R; reflexivity.
Qed.

(** With callbacks that leave the registry alone, the slot calls each
    member once, in insertion order. *)
Lemma onPluginMessage_steady (fuel : nat) (data : PluginMessageResponse)
  (s : State) :
  (forall h, In h (JSSet.values (messageHandlers s)) ->
             leaves touches_messages (code h (ArgEnvelope (enhance data)))
             = true) ->
  List.length (messageHandlers s) < fuel ->
  onPluginMessage code fuel data s
  = Some (Normal, run_all (guarded code (enhance data))
                    (JSSet.values (messageHandlers s)) s).
Proof.
  intros L F. unfold onPluginMessage.
  pose proof (forEach_steady messageHandlers (guarded code (enhance data))
                [] (messageHandlers s) s fuel) as W.
  simpl in W. rewrite W; trivial.
  intros h I. apply guarded_steady. now apply L.
Qed.

(** Every invocation the slot makes passes the enhanced envelope. *)
Lemma onPluginMessage_args (fuel : nat) (data : PluginMessageResponse)
  (s s' : State) (c : Completion) :
  onPluginMessage code fuel data s = Some (c, s') ->
  exists hs, calls s' = calls s ++ each_with (ArgEnvelope (enhance data)) hs.
Proof.
  unfold onPluginMessage. intros R.
  assert (W : exists c1 s1,
             forEach fuel messageHandlers (guarded code (enhance data)) 0 s
             = Some (c1, s1) /\ calls s' = calls s1).
  { destruct (forEach fuel messageHandlers (guarded code (enhance data)) 0 s)
      as [[[|e] s1]|]; inversion R; subst; eauto. }
  destruct W as (c1 & s1 & W & E). rewrite E.
  apply (forEach_invariant messageHandlers (guarded code (enhance data))
           (fun x => exists hs,
                calls x = calls s ++ each_with (ArgEnvelope (enhance data)) hs))
    with (fuel := fuel) (index := 0) (s := s) (c := c1); trivial.
  - intros h x [hs Hx]. exists (hs ++ [h]).
    rewrite guarded_calls, Hx. unfold each_with.
    rewrite map_app, <- app_assoc. reflexivity.
  - exists []. simpl. now rewrite app_nil_r.
Qed.

End SlotFacts.

Lemma subscribe_all_messageHandlers (hs : list Handler) :
  forall s,
    NoDup hs ->
    (forall h, In h hs -> ~ In h (JSSet.values (messageHandlers s))) ->
    messageHandlers (subscribe_all hs s) = messageHandlers s ++ map Some hs.
Proof.
  unfold subscribe_all.
  induction hs as [|h hs IH]; simpl; intros s N F.
  - now rewrite app_nil_r.
  - inversion N as [|? ? Nh N']; subst.
    assert (A : JSSet.add h (messageHandlers s) = messageHandlers s ++ [Some h]).
    { unfold JSSet.add.
      destruct (JSSet.has h (messageHandlers s)) eqn:E; trivial.
      apply JSSetFacts.has_spec in E. exfalso. apply (F h); tauto. }
    rewrite IH; trivial.
    + unfold onMessage. simpl. rewrite A, <- app_assoc. reflexivity.
    + intros h' I. unfold onMessage. simpl. rewrite A, JSSetFacts.values_app.
      simpl. intros J. apply in_app_or in J as [J|[J|[]]].
      * apply (F h'); tauto.
      * congruence.
Qed.

Lemma values_map_Some (hs : list Handler) : JSSet.values (map Some hs) = hs.
Proof. induction hs; simpl; [reflexivity | now f_equal]. Qed.

Lemma subscribe_all_loaded (hs : list Handler) (w pmh : bool) :
  NoDup hs -> messageHandlers (subscribe_all hs (loaded w pmh)) = map Some hs.
Proof.
  intros N. rewrite subscribe_all_messageHandlers; trivial.
  - unfold loaded, initializeEventListeners, initializeMessageHandler.
    destruct w; reflexivity.
  - intros h _. unfold loaded, initializeEventListeners, initializeMessageHandler.
    destruct w; simpl; tauto.
Qed.

Lemma subscribe_all_calls (hs : list Handler) :
  forall s, calls (subscribe_all hs s) = calls s.
Proof.
  unfold subscribe_all. induction hs as [|h hs IH]; simpl; intros s; trivial.
  now rewrite IH.
Qed.



(** C5, as the spec words it, fails on the empty string: [JSON.parse]
    rejects it, the guard [if (data.data)] never tries, and the consumer
    is handed [undefined]. *)
Lemma C5_counterexample :
  ~ identity_fallback EmptyString
  /\ exists s',
       onPluginMessage (fun _ _ => quiet) 2 (hi_p1 (Some EmptyString))
         (onMessage 1 (loaded true true)) = Some (Normal, s')
       /\ delivered (onMessage 1 (loaded true true)) s'
          = [(1, ArgEnvelope {| response := hi_p1 (Some EmptyString);
                                parsedData := JSundefined |})].
Proof.
  split.
  - intros F. specialize (F eq_refl). discriminate F.
  - eexists. split; reflexivity.
Qed.

(** C5, amended: when the [data] field is a non-empty string that
    [JSON.parse] rejects, [parsedData] is that very string, and this is
    what every consumer called by the slot receives; when [data] is absent
    or the empty string, [parsedData] is [undefined]. *)
Theorem C5_classification_fallback
  (code : Handler -> Arg -> Behaviour) (data : PluginMessageResponse) :
  (forall raw,
      r_data data = Some raw -> raw <> EmptyString -> JSON.parse raw = None ->
      parsedData (enhance data) = JSstring raw
      /\ forall fuel s c s' h a,
          onPluginMessage code fuel data s = Some (c, s') ->
          In (h, a) (delivered s s') ->
          exists e, a = ArgEnvelope e /\ response e = data
                    /\ parsedData e = JSstring raw)
  /\ (r_data data = None \/ r_data data = Some EmptyString ->
      parsedData (enhance data) = JSundefined).
Proof.
  split.
  - intros raw D NE P.
    assert (E : parsedData (enhance data) = JSstring raw).
    { unfold enhance. simpl. rewrite D. unfold parse_data.
      destruct raw; [congruence | simpl; now rewrite P]. }
    split; trivial.
    intros fuel s c s' h a R I.
    destruct (onPluginMessage_args code fuel data s s' c R) as [hs C].
    rewrite (delivered_app _ _ _ C) in I.
    apply in_map_iff in I as (h' & Eq & _). inversion Eq; subst.
    eexists. split; [reflexivity | split; [reflexivity | exact E]].
  - intros [D|D]; unfold enhance; simpl; rewrite D; reflexivity.
Qed.

Lemma C5_classification_fallback_witness :
  parsedData (enhance (hi_p1 (Some "not json"))) = JSstring "not json"
  /\ parsedData (enhance (hi_p1 None)) = JSundefined.
Proof.
  destruct (C5_classification_fallback (fun _ _ => quiet)
              (hi_p1 (Some "not json"))) as [F _].
  destruct (F "not json" eq_refl) as [E _];
    [discriminate | reflexivity |].
  destruct (C5_classification_fallback (fun _ _ => quiet) (hi_p1 None))
    as [_ U].
  split; [exact E | apply U; now left].
Defined.

(** ** A callback that changes the registry it is called from *)

Section MutatorFacts.

Variable code : Handler -> Arg -> Behaviour.
Variable d : EnhancedData.

(** The registry as a callback leaves it. *)
Lemma guarded_messageHandlers_calls (h : Handler) (s : State) :
  messageHandlers (snd (guarded code d h s))
  = messageHandlers
      (run_calls (hb_calls (code h (ArgEnvelope d)))
         (record_call h (ArgEnvelope d) s)).
Proof.
  unfold guarded, invoke.
  destruct (hb_throws (code h (ArgEnvelope d))); reflexivity.
Qed.

End MutatorFacts.

Lemma map_fst_each_with (a : Arg) (hs : list Handler) :
  map fst (each_with a hs) = hs.
Proof.
  unfold each_with. rewrite map_map. simpl. apply map_id.
Qed.

Lemma run_call_messages (c : SdkCall) (s : State) :
  messageHandlers (run_call c s) = messages_call c (messageHandlers s).
Proof.
  destruct c; simpl; trivial.
  - unfold HardwareEvents_on. break_match; reflexivity.
  - unfold HardwareEvents_off. break_match; reflexivity.
  - unfold DeviceControls_on. break_match; reflexivity.
  - unfold DeviceControls_off. break_match; reflexivity.
Qed.

Lemma run_calls_messages (cs : list SdkCall) :
  forall s,
    messageHandlers (run_calls cs s) = messages_after cs (messageHandlers s).
Proof.
  unfold run_calls, messages_after.
  induction cs as [|c cs IH]; intros s; simpl; trivial.
  now rewrite IH, run_call_messages.
Qed.

Lemma skipn_cons_nth (A : Type) (l : list A) :
  forall i e r, skipn i l = e :: r ->
                nth_error l i = Some e /\ skipn (S i) l = r.
Proof.
  induction l as [|a l IH]; intros [|i] e r E; try discriminate E.
  - inversion E. split; reflexivity.
  - apply (IH i e r E).
Qed.

Lemma forallb_false (A : Type) (f : A -> bool) (l : list A) :
  forallb f l = false -> exists x, In x l /\ f x = false.
Proof.
  induction l as [|a l IH]; simpl; intros E; [discriminate E|].
  destruct (f a) eqn:Fa.
  - destruct (IH E) as (x & I & Fx). exists x. auto.
  - exists a. auto.
Qed.

Section ForEachWalk.

Variable the_set : State -> JSSet.t.
Variable callbackfn : Handler -> Step.

(** A property of the index and the state that every step of the walk
    keeps holds, at the end, of an index that is past the last slot. *)
Lemma forEach_walk (P : nat -> State -> Prop) :
  (forall i h s, P i s -> nth_error (the_set s) i = Some (Some h) ->
                 P (S i) (snd (callbackfn h s))) ->
  (forall i s, P i s -> nth_error (the_set s) i = Some None -> P (S i) s) ->
  forall fuel i s s',
    P i s -> forEach fuel the_set callbackfn i s = Some (Normal, s') ->
    exists j, P j s' /\ List.length (the_set s') <= j.
Proof.
  intros St Sk. induction fuel as [|f IH]; simpl; intros i s s' Ps R;
    [discriminate R|].
  destruct (nth_error (the_set s) i) as [[h|]|] eqn:E.
  - specialize (St i h s Ps E).
    destruct (callbackfn h s) as [[|e] s1]; simpl in St.
    + exact (IH _ _ _ St R).
    + discriminate R.
  - exact (IH _ _ _ (Sk i s Ps E) R).
  - inversion R; subst. exists i. split; trivial. now apply nth_error_None.
Qed.

End ForEachWalk.

Section LiveRegistry.

Variable code : Handler -> Arg -> Behaviour.
Variable d : EnhancedData.

Lemma guarded_messages (h : Handler) (s : State) :
  messageHandlers (snd (guarded code d h s))
  = messages_after (hb_calls (code h (ArgEnvelope d))) (messageHandlers s).
Proof.
  rewrite guarded_messageHandlers_calls, run_calls_messages. reflexivity.
Qed.

(** The walk over callbacks that change their own registration only. *)
Lemma forEach_own (suf : JSSet.t) :
  forall i x fuel,
    JSSet.wf (messageHandlers x) ->
    skipn i (messageHandlers x) = suf ->
    (forall h, In h (JSSet.values suf) ->
               only_itself h (code h (ArgEnvelope d)) = true) ->
    List.length suf < fuel ->
    exists x',
      forEach fuel messageHandlers (guarded code d) i x = Some (Normal, x')
      /\ calls x' = calls x ++ each_with (ArgEnvelope d) (JSSet.values suf).
Proof.
  induction suf as [|e suf IH]; intros i x fuel W Sk O F.
  - exists x. destruct fuel as [|f]; [simpl in F; lia|].
    rewrite forEach_end by now apply skipn_all_iff.
    split; [reflexivity | simpl; now rewrite app_nil_r].
  - destruct (skipn_cons_nth _ _ _ _ _ Sk) as [E Sk'].
    destruct fuel as [|f]; [simpl in F; lia|]. simpl in F.
    cbn [forEach]. rewrite E. destruct e as [h|].
    + pose proof (guarded_normal code d h x) as N.
      pose proof (guarded_messages h x) as M.
      pose proof (guarded_calls code d h x) as C.
      destruct (guarded code d h x) as [c x1]. simpl in N, M, C. subst c.
      destruct (IH (S i) x1 f) as (x' & R & Cx).
      * rewrite M. now apply messages_after_wf.
      * rewrite M. rewrite own_change_behind with (h := h); trivial.
        apply (O h). now left.
      * intros g I. apply O. now right.
      * lia.
      * exists x'. split; [exact R|].
        rewrite Cx, C, <- app_assoc. reflexivity.
    + destruct (IH (S i) x f W Sk') as (x' & R & Cx); [exact O | lia |].
      exists x'. split; [exact R | exact Cx].
Qed.

Variable s0 : State.

Lemma known_snoc (T : list Handler) (g h : Handler) :
  known code d s0 (T ++ [g]) h
  = known code d s0 T h || registers (code g (ArgEnvelope d)) h.
Proof.
  unfold known. rewrite existsb_app. simpl.
  now rewrite orb_false_r, orb_assoc.
Qed.

Lemma known_more (T : list Handler) (g h : Handler) :
  known code d s0 T h = true -> known code d s0 (T ++ [g]) h = true.
Proof. intros K. now rewrite known_snoc, K. Qed.

Lemma walk_start :
  JSSet.wf (messageHandlers s0) -> walk_invariant code d s0 0 s0.
Proof.
  intros W. exists []. split; [|split; [|split; [|split]]].
  - simpl. now rewrite app_nil_r.
  - exact W.
  - intros h [I|[]]. unfold known.
    apply JSSetFacts.has_spec in I. now rewrite I.
  - intros k h L. lia.
  - intros h _ K. unfold known in K. simpl in K. rewrite orb_false_r in K.
    apply JSSetFacts.has_spec, member_entry in K as [k E].
    exists k. split; [exact E | reflexivity].
Qed.

Lemma walk_skip (i : nat) (x : State) :
  walk_invariant code d s0 i x ->
  nth_error (messageHandlers x) i = Some None ->
  walk_invariant code d s0 (S i) x.
Proof.
  intros (T & C & W & A & B & Q) E.
  exists T. split; [exact C | split; [exact W | split; [exact A | split]]].
  - intros k h L Ek.
    destruct (Nat.eq_dec k i) as [->|N]; [congruence|].
    apply (B k); [lia | exact Ek].
  - intros h Kp Kn. destruct (Q h Kp Kn) as (k & Ek & Ct).
    exists k. split; [exact Ek|]. rewrite Ct.
    assert (k <> i) by congruence.
    destruct (Nat.ltb_spec k i), (Nat.ltb_spec k (S i)); trivial; lia.
Qed.

Lemma walk_call (i : nat) (h : Handler) (x : State) :
  walk_invariant code d s0 i x ->
  nth_error (messageHandlers x) i = Some (Some h) ->
  walk_invariant code d s0 (S i) (snd (guarded code d h x)).
Proof.
  intros (T & C & W & A & B & Q) E.
  assert (Li : i < List.length (messageHandlers x))
    by (apply nth_error_Some; congruence).
  assert (Hm : In h (JSSet.values (messageHandlers x)))
    by (now apply (entry_member h _ i)).
  exists (T ++ [h]). rewrite guarded_messages.
  split; [|split; [|split; [|split]]].
  - rewrite guarded_calls, C. unfold each_with.
    rewrite map_app, <- app_assoc. reflexivity.
  - now apply messages_after_wf.
  - intros y [I|I].
    + apply member_origin in I as [I|I].
      * apply known_more, A. now left.
      * rewrite known_snoc. unfold registers. rewrite I. apply orb_true_r.
    + apply in_app_or in I as [I|[<-|[]]]; apply known_more, A; auto.
  - intros k y L Ek. apply in_or_app.
    apply entry_stable in Ek; [|lia].
    destruct (Nat.eq_dec k i) as [->|N].
    + right. left. congruence.
    + left. apply (B k); [lia | exact Ek].
  - intros y Kp Kn.
    unfold kept in Kp. rewrite forallb_app in Kp.
    apply andb_true_iff in Kp as [Kp Ky]. simpl in Ky.
    rewrite andb_true_r in Ky. apply negb_true_iff in Ky.
    rewrite count_occ_app.
    destruct (known code d s0 T y) eqn:Ko.
    + destruct (Q y Kp Ko) as (k & Ek & Ct).
      exists k. split; [now apply entry_kept|]. rewrite Ct. simpl.
      destruct (Nat.eq_dec h y) as [->|N].
      * assert (k = i) by (apply (entry_unique y _ W); assumption). subst k.
        rewrite Nat.ltb_irrefl. simpl.
        destruct (Nat.ltb_spec i (S i)); [reflexivity | lia].
      * assert (k <> i) by congruence.
        destruct (Nat.ltb_spec k i), (Nat.ltb_spec k (S i)); trivial; lia.
    + assert (Ny : ~ In y (JSSet.values (messageHandlers x)) /\ ~ In y T).
      { split; intros I; [rewrite (A y (or_introl I)) in Ko
                         | rewrite (A y (or_intror I)) in Ko]; discriminate Ko. }
      destruct Ny as [Nx Nt].
      assert (Ry : registers (code h (ArgEnvelope d)) y = true)
        by (rewrite known_snoc, Ko in Kn; exact Kn).
      pose proof (registered_member y _ (messageHandlers x) Ry Ky) as M.
      apply member_entry in M as [k Ek]. exists k. split; [exact Ek|].
      rewrite (proj1 (count_occ_not_In (A:=Handler) Nat.eq_dec T y) Nt). simpl.
      destruct (Nat.eq_dec h y) as [->|N]; [tauto|].
      destruct (Nat.ltb_spec k (S i)) as [L|L]; trivial.
      exfalso. apply Nx. apply (entry_member y _ k).
      apply (entry_stable (hb_calls (code h (ArgEnvelope d)))); [lia | exact Ek].
Qed.

(** What the invariant says once the walk is over. *)
Lemma walk_end (fuel : nat) (s' : State) :
  JSSet.wf (messageHandlers s0) ->
  forEach fuel messageHandlers (guarded code d) 0 s0 = Some (Normal, s') ->
  exists T,
    calls s' = calls s0 ++ each_with (ArgEnvelope d) T
    /\ (forall h, In h T -> known code d s0 T h = true)
    /\ (forall h, In h (JSSet.values (messageHandlers s')) -> In h T)
    /\ (forall h, kept code d T h = true -> known code d s0 T h = true ->
                  count_occ (A:=Handler) Nat.eq_dec T h = 1).
Proof.
  intros W R.
  destruct (forEach_walk messageHandlers (guarded code d)
              (walk_invariant code d s0) walk_call walk_skip
              fuel 0 s0 s' (walk_start W) R)
    as (j & (T & C & _ & A & B & Q) & L).
  exists T. split; [exact C | split; [|split]].
  - intros h I. apply A. now right.
  - intros h I. apply member_entry in I as [k Ek].
    apply (B k); trivial.
    assert (k < List.length (messageHandlers s'))
      by (apply nth_error_Some; congruence).
    lia.
  - intros h Kp Kn. destruct (Q h Kp Kn) as (k & Ek & Ct). rewrite Ct.
    assert (k < List.length (messageHandlers s'))
      by (apply nth_error_Some; congruence).
    destruct (Nat.ltb_spec k j); [reflexivity | lia].
Qed.

End LiveRegistry.

Lemma known_spec (code : Handler -> Arg -> Behaviour) (d : EnhancedData)
  (s0 : State) (T : list Handler) (h : Handler) :
  known code d s0 T h = true
  <-> In h (JSSet.values (messageHandlers s0))
      \/ exists g, In g T /\ registers (code g (ArgEnvelope d)) h = true.
Proof.
  unfold known. rewrite orb_true_iff, JSSetFacts.has_spec, existsb_exists.
  reflexivity.
Qed.

Lemma kept_spec (code : Handler -> Arg -> Behaviour) (d : EnhancedData)
  (T : list Handler) (h : Handler) :
  kept code d T h = true
  <-> forall g, In g T -> unregisters (code g (ArgEnvelope d)) h <> true.
Proof.
  unfold kept. rewrite forallb_forall. split; intros F g I.
  - specialize (F g I). apply negb_true_iff in F. congruence.
  - apply negb_true_iff, not_true_iff_false. now apply F.
Qed.

Lemma onPluginMessage_walk (code : Handler -> Arg -> Behaviour) (fuel : nat)
  (data : PluginMessageResponse) (s s' : State) (c : Completion) :
  onPluginMessage code fuel data s = Some (c, s') ->
  c = Normal
  /\ forEach fuel messageHandlers (guarded code (enhance data)) 0 s
     = Some (Normal, s').
Proof.
  unfold onPluginMessage.
  destruct (forEach fuel messageHandlers (guarded code (enhance data)) 0 s)
    as [[[|e] s1]|] eqn:W; intros R; inversion R; subst.
  - split; reflexivity.
  - apply forEach_never_throws in W; [discriminate W|].
    intros h x. apply guarded_normal.
Qed.

Lemma onPluginMessage_fuel_le (code : Handler -> Arg -> Behaviour)
  (f f' : nat) (data : PluginMessageResponse) (s : State)
  (r : Completion * State) :
  f <= f' ->
  onPluginMessage code f data s = Some r ->
  onPluginMessage code f' data s = Some r.
Proof.
  unfold onPluginMessage. intros L.
  destruct (forEach f messageHandlers (guarded code (enhance data)) 0 s)
    as [q|] eqn:W; [|discriminate].
  now rewrite (forEach_fuel_le _ _ f f' 0 s q L W).
Qed.

(** What a run returned with some fuel, it returns with any fuel that is
    enough for it to return. *)
Lemma same_at_any_fuel (A : Type) (run : nat -> option A) (f0 : nat) (r : A) :
  (forall f f' x, f <= f' -> run f = Some x -> run f' = Some x) ->
  run f0 = Some r ->
  forall f x, run f = Some x -> x = r.
Proof.
  intros M R f x Rx.
  destruct (Nat.le_ge_cases f f0) as [L|L].
  - rewrite (M f f0 x L Rx) in R. congruence.
  - rewrite (M f0 f r L R) in Rx. congruence.
Qed.

(** C1, as the spec words it, fails when a callback changes the registry
    during the dispatch: a consumer that an earlier one unsubscribes is
    not called at all, and a consumer that a later one unsubscribes and
    subscribes again is called twice.  No amount of fuel changes that. *)
Lemma C1_counterexample :
  (exists s',
      onPluginMessage code_unsubscribing 3 (hi_p1 None)
        (subscribe_all [1; 2] (loaded true true)) = Some (Normal, s')
      /\ map fst (calls s') = [1])
  /\ (forall fuel, ~ fanout_complete code_unsubscribing fuel (hi_p1 None) [1; 2])
  /\ (exists s',
         onPluginMessage code_resubscribing 4 (hi_p1 None)
           (subscribe_all [2; 1] (loaded true true)) = Some (Normal, s')
         /\ map fst (calls s') = [2; 1; 2])
  /\ (forall fuel, ~ fanout_complete code_resubscribing fuel (hi_p1 None) [2; 1]).
Proof.
  assert (R1 : exists s',
             onPluginMessage code_unsubscribing 3 (hi_p1 None)
               (subscribe_all [1; 2] (loaded true true)) = Some (Normal, s')
             /\ map fst (calls s') = [1])
    by (eexists; split; vm_compute; reflexivity).
  assert (R2 : exists s',
             onPluginMessage code_resubscribing 4 (hi_p1 None)
               (subscribe_all [2; 1] (loaded true true)) = Some (Normal, s')
             /\ map fst (calls s') = [2; 1; 2])
    by (eexists; split; vm_compute; reflexivity).
  split; [exact R1 | split; [|split; [exact R2|]]].
  - destruct R1 as (s1 & E1 & C1). intros fuel (s' & E & F).
    assert (Q : (Normal, s') = (Normal, s1)).
    { apply (same_at_any_fuel _
               (fun f => onPluginMessage code_unsubscribing f (hi_p1 None)
                           (subscribe_all [1; 2] (loaded true true)))
               3 (Normal, s1)) with (f := fuel); trivial.
      intros f f' x. apply onPluginMessage_fuel_le. }
    inversion Q; subst s'. specialize (F 2). rewrite C1 in F.
    simpl in F. specialize (F (or_intror (or_introl eq_refl))). discriminate F.
  - destruct R2 as (s2 & E2 & C2). intros fuel (s' & E & F).
    assert (Q : (Normal, s') = (Normal, s2)).
    { apply (same_at_any_fuel _
               (fun f => onPluginMessage code_resubscribing f (hi_p1 None)
                           (subscribe_all [2; 1] (loaded true true)))
               4 (Normal, s2)) with (f := fuel); trivial.
      intros f f' x. apply onPluginMessage_fuel_le. }
    inversion Q; subst s'. specialize (F 2). rewrite C2 in F.
    simpl in F. specialize (F (or_introl eq_refl)). discriminate F.
Qed.

(** C1, amended: with N distinct consumers registered through
    [onMessage], each of which changes no registration but its own while
    it runs (the calls it makes on the registry, if any, are all
    [onMessage] of itself or all [offMessage] of itself), one call of the
    inbound slot returns normally and has called each of the N consumers
    exactly once, every one with the same envelope: the fields of the
    payload, and [parsedData], which is what [JSON.parse] makes of a
    non-empty [data], that text itself when [JSON.parse] rejects it, and
    [undefined] when [data] is absent or empty. *)
Theorem C1_fanout_completeness
  (code : Handler -> Arg -> Behaviour) (hs : list Handler)
  (data : PluginMessageResponse) (pmh : bool) (fuel : nat) :
  NoDup hs ->
  (forall h, In h hs ->
             only_itself h (code h (ArgEnvelope (enhance data))) = true) ->
  List.length hs < fuel ->
  exists s',
    onPluginMessage code fuel data (subscribe_all hs (loaded true pmh))
    = Some (Normal, s')
    /\ calls s' = each_with (ArgEnvelope (enhance data)) hs
    /\ (forall h, In h hs -> count_occ Nat.eq_dec (map fst (calls s')) h = 1)
    /\ response (enhance data) = data
    /\ parsedData (enhance data)
       = match r_data data with
         | None | Some EmptyString => JSundefined
         | Some raw => match JSON.parse raw with
                       | Some v => JSparsed v
                       | None => JSstring raw
                       end
         end.
Proof.
  intros N O F.
  pose proof (subscribe_all_loaded hs true pmh N) as E.
  destruct (forEach_own code (enhance data)
              (messageHandlers (subscribe_all hs (loaded true pmh))) 0
              (subscribe_all hs (loaded true pmh)) fuel) as (s' & R & C).
  - unfold JSSet.wf. now rewrite E, values_map_Some.
  - reflexivity.
  - rewrite E, values_map_Some. exact O.
  - rewrite E, length_map. exact F.
  - assert (Cs : calls s' = each_with (ArgEnvelope (enhance data)) hs).
    { rewrite C, subscribe_all_calls, E, values_map_Some.
      destruct pmh; reflexivity. }
    exists s'. split; [|split; [exact Cs | split; [|split; [reflexivity|]]]].
    + unfold onPluginMessage. now rewrite R.
    + intros h I. rewrite Cs, map_fst_each_with.
      now apply NoDup_count_occ'.
    + unfold enhance, parse_data, truthy. cbn [parsedData].
      destruct (r_data data) as [[|c r]|]; reflexivity.
Qed.

(** Consumer 1 unsubscribes itself while it runs; consumer 2 only
    returns. *)
Lemma C1_fanout_completeness_witness :
  exists s',
    onPluginMessage code_leaving 3 (hi_p1 (Some x_is_1))
      (subscribe_all [1; 2] (loaded true true))
    = Some (Normal, s')
    /\ calls s' = each_with (ArgEnvelope (enhance (hi_p1 (Some x_is_1)))) [1; 2]
    /\ (forall h, In h [1; 2] -> count_occ Nat.eq_dec (map fst (calls s')) h = 1).
Proof.
  destruct (C1_fanout_completeness code_leaving [1; 2]
              (hi_p1 (Some x_is_1)) true 3) as (s' & R & C & O & _).
  - repeat constructor; simpl; intuition discriminate.
  - intros h [<-|[<-|[]]]; reflexivity.
  - simpl. lia.
  - exists s'. split; [exact R | split; [exact C | exact O]].
Defined.

(** C2, as the spec words it, fails both ways: a consumer subscribed by a
    callback of the dispatch is called in that dispatch, and a consumer
    not yet called that a callback unsubscribes is passed over. *)
Lemma C2_counterexample :
  ~ snapshot_dispatch code_subscribing 4 (hi_p1 None)
      (onMessage 1 (loaded true true))
  /\ ~ snapshot_dispatch code_unsubscribing 4 (hi_p1 None)
         (subscribe_all [1; 2] (loaded true true)).
Proof.
  split; intros F.
  - assert (R : exists s',
               onPluginMessage code_subscribing 4 (hi_p1 None)
                 (onMessage 1 (loaded true true)) = Some (Normal, s')
               /\ map fst (delivered (onMessage 1 (loaded true true)) s')
                  = [1; 2])
      by (eexists; split; vm_compute; reflexivity).
    destruct R as (s' & R & D). destruct (F _ _ R 2) as [A _].
    rewrite D in A. vm_compute in A. intuition discriminate.
  - assert (R : exists s',
               onPluginMessage code_unsubscribing 4 (hi_p1 None)
                 (subscribe_all [1; 2] (loaded true true)) = Some (Normal, s')
               /\ map fst (delivered (subscribe_all [1; 2] (loaded true true)) s')
                  = [1])
      by (eexists; split; vm_compute; reflexivity).
    destruct R as (s' & R & D). destruct (F _ _ R 2) as [_ A].
    rewrite D in A. vm_compute in A. intuition discriminate.
Qed.

(** C2, amended: the dispatch walks the live registry, there is no
    snapshot.  When every registered consumer changes at most its own
    registration while it runs (its registry calls are all [onMessage] of
    itself, or all [offMessage] of itself), the slot returns and the
    consumers called are exactly those registered when the dispatch
    began, in order.  Whatever the callbacks do to the registry, a
    dispatch that returns has called every consumer with the same
    envelope, and: a consumer called was registered at the start or is
    registered by a callback called in the dispatch; every consumer that
    is registered when the dispatch ends has been called; a consumer that
    no callback called in the dispatch unregisters is called exactly
    once if it was registered at the start or a callback called in the
    dispatch registers it; and a consumer registered at the start is
    passed over only if a callback called in the dispatch unregisters
    it. *)
Theorem C2_live_registry
  (code : Handler -> Arg -> Behaviour) (data : PluginMessageResponse)
  (s : State) (fuel : nat) :
  JSSet.wf (messageHandlers s) ->
  ((forall h, In h (JSSet.values (messageHandlers s)) ->
              only_itself h (code h (ArgEnvelope (enhance data))) = true) ->
   List.length (messageHandlers s) < fuel ->
   exists s',
     onPluginMessage code fuel data s = Some (Normal, s')
     /\ map fst (delivered s s') = JSSet.values (messageHandlers s))
  /\ (forall c s',
        onPluginMessage code fuel data s = Some (c, s') ->
        delivered s s'
        = each_with (ArgEnvelope (enhance data)) (map fst (delivered s s'))
        /\ (forall h,
              In h (map fst (delivered s s')) ->
              In h (JSSet.values (messageHandlers s))
              \/ exists g,
                   In g (map fst (delivered s s'))
                   /\ registers (code g (ArgEnvelope (enhance data))) h = true)
        /\ (forall h,
              In h (JSSet.values (messageHandlers s')) ->
              In h (map fst (delivered s s')))
        /\ (forall h,
              (forall g, In g (map fst (delivered s s')) ->
                         unregisters (code g (ArgEnvelope (enhance data))) h
                         <> true) ->
              In h (JSSet.values (messageHandlers s))
              \/ (exists g,
                     In g (map fst (delivered s s'))
                     /\ registers (code g (ArgEnvelope (enhance data))) h = true) ->
              count_occ (A:=Handler) Nat.eq_dec (map fst (delivered s s')) h = 1)
        /\ (forall h,
              In h (JSSet.values (messageHandlers s)) ->
              ~ In h (map fst (delivered s s')) ->
              exists g,
                In g (map fst (delivered s s'))
                /\ unregisters (code g (ArgEnvelope (enhance data))) h = true)).
Proof.
  intros W. split.
  - intros O F.
    destruct (forEach_own code (enhance data) (messageHandlers s) 0 s fuel
                W eq_refl O F) as (s' & R & C).
    exists s'. unfold onPluginMessage. rewrite R. split; [reflexivity|].
    rewrite (delivered_app _ _ _ C). apply map_fst_each_with.
  - intros c s' R. apply onPluginMessage_walk in R as [-> R].
    destruct (walk_end code (enhance data) s fuel s' W R)
      as (T & C & A & B & Q).
    rewrite (delivered_app _ _ _ C), map_fst_each_with.
    split; [reflexivity | split; [|split; [exact B | split]]].
    + intros h I. now apply known_spec, A.
    + intros h Kp Kn. apply Q; [now apply kept_spec | now apply known_spec].
    + intros h I N.
      destruct (kept code (enhance data) T h) eqn:Kp.
      * exfalso. apply N.
        apply (count_occ_In Nat.eq_dec). rewrite Q; [lia | exact Kp |].
        apply known_spec. now left.
      * apply forallb_false in Kp as (g & Ig & Ug).
        exists g. split; [exact Ig|]. now apply negb_false_iff in Ug.
Qed.

Lemma C2_live_registry_witness :
  exists s',
    onPluginMessage code_leaving 3 (hi_p1 None)
      (subscribe_all [1; 2] (loaded true true)) = Some (Normal, s')
    /\ map fst (delivered (subscribe_all [1; 2] (loaded true true)) s')
       = [1; 2].
Proof.
  assert (W : JSSet.wf (messageHandlers (subscribe_all [1; 2] (loaded true true)))).
  { change (NoDup [1; 2]). repeat constructor; simpl; intuition discriminate. }
  destruct (C2_live_registry code_leaving (hi_p1 None)
              (subscribe_all [1; 2] (loaded true true)) 3 W) as [A _].
  apply A.
  - intros h I. change (In h [1; 2]) in I.
    destruct I as [<-|[<-|[]]]; reflexivity.
  - change (2 < 3). lia.
Defined.

(** ** Fan-out without a guard: [HardwareEvents.emit] and the gate *)

(** C4, on the code: with two consumers registered for a tag or a channel
    and the first one throwing, the fan-out routine ends with that
    exception and the second consumer is never called.  This holds for
    each of the five hardware tags and for both gate channels. *)
Theorem C4_fanout_stops_at_throw :
  (forall t : HardwareEventType,
      exists s',
        emit code_throwing 3 t
          (HardwareEvents_on t 2 (HardwareEvents_on t 1 (loaded true true)))
        = Some (Throw (Thrown 1), s')
        /\ calls s' = [(1, ArgNone)])
  /\ (forall e : Event,
         exists s',
           handleSideButtonClick code_throwing 3 e
             (DeviceControls_on sideButton 2
                (DeviceControls_on sideButton 1 (loaded true true)))
           = Some (Throw (Thrown 1), s')
           /\ calls s' = [(1, ArgEvent e)])
  /\ (forall data : ScrollWheelData,
         exists s',
           handleScrollWheel code_throwing 3 data
             (DeviceControls_on scrollWheel 2
                (DeviceControls_on scrollWheel 1 (loaded true true)))
           = Some (Throw (Thrown 1), s')
           /\ calls s' = [(1, ArgScroll data)]).
Proof.
  split; [|split].
  - intros t. destruct t; eexists; split; vm_compute; reflexivity.
  - intros e. eexists; split; vm_compute; reflexivity.
  - intros data. eexists; split; vm_compute; reflexivity.
Qed.

(** The same seen from the event surface: one [sideClick] raised on
    [window] reaches the first consumer only, on the hardware tag as on
    the gate channel, and the surface reports the exception. *)
Lemma sideClick_stops_at_throw :
  exists s',
    dispatchEvent code_throwing 3 native_sideClick
      (DeviceControls_on sideButton 2 (DeviceControls_on sideButton 1
         (HardwareEvents_on sideClick 2 (HardwareEvents_on sideClick 1
            (snd (init default_options (loaded true true)))))))
    = Some s'
    /\ calls s' = [(1, ArgNone); (1, ArgEvent native_sideClick)]
    /\ console s' = [Uncaught (Thrown 1); Uncaught (Thrown 1)].
Proof.
  eexists. split; [|split]; vm_compute; reflexivity.
Qed.

(** C6, on the code: after two calls of [init] with the default options,
    one [sideClick] is delivered twice to a gate consumer, and one press
    of the Space key four times. *)
Theorem C6_repeated_init_duplicates :
  let s := DeviceControls_on sideButton 1
             (snd (init_times 2 default_options (loaded true true))) in
  fst (init_times 2 default_options (loaded true true)) = Normal
  /\ listeners_for keydown s = [KeyboardListener; KeyboardListener]
  /\ listeners_for (HW sideClick) s
     = [HardwareListener sideClick; SideButtonListener; SideButtonListener]
  /\ (exists s',
         dispatchEvent (fun _ _ => quiet) 3 native_sideClick s = Some s'
         /\ calls s' = [(1, ArgEvent native_sideClick);
                        (1, ArgEvent native_sideClick)])
  /\ (exists s',
         dispatchEvent (fun _ _ => quiet) 3 space_key s = Some s'
         /\ calls s' = each_with (ArgEvent (CustomEvent sideClick "keyboard"))
                         [1; 1; 1; 1]).
Proof.
  cbv zeta. split; [|split; [|split; [|split]]].
  - vm_compute. reflexivity.
  - vm_compute. reflexivity.
  - vm_compute. reflexivity.
  - eexists. split; vm_compute; reflexivity.
  - eexists. split; vm_compute; reflexivity.
Qed.

(** ** [sendMessage] *)

(** C8, as the spec words it, fails on "synchronously": [sendMessage] is
    an [async] function, so with the transport handle absent the call
    returns a rejected promise and raises nothing to its caller. *)
Lemma C8_counterexample :
  has_PluginMessageHandler (loaded true false) = false
  /\ sendMessage "hello" no_options (loaded true false)
     = (Returned (Rejected (Error not_available)), loaded true false)
  /\ ~ raises_synchronously
         (fst (sendMessage "hello" no_options (loaded true false))).
Proof.
  split; [reflexivity | split; [reflexivity|]].
  intros [e E]. discriminate E.
Qed.

(** C8, amended: [sendMessage] fails exactly when the transport handle is
    absent.  It then posts nothing and the promise it returns is already
    rejected, with the [Error] that names the missing handler; with the
    handle present it posts the serialized payload, once, and its promise
    is fulfilled.  In neither case does the call raise synchronously. *)
Theorem C8_sendMessage (msg : string) (opts : MessageOptions) (s : State) :
  (has_PluginMessageHandler s = false ->
   sendMessage msg opts s = (Returned (Rejected (Error not_available)), s))
  /\ (has_PluginMessageHandler s = true ->
      sendMessage msg opts s
      = (Returned Fulfilled,
         post (JSON_stringify {| message := msg; options := opts |}) s))
  /\ ((exists e, fst (sendMessage msg opts s) = Returned (Rejected e))
      <-> has_PluginMessageHandler s = false)
  /\ ~ raises_synchronously (fst (sendMessage msg opts s)).
Proof.
  unfold sendMessage, async, sendMessage_body, raises_synchronously.
  destruct (has_PluginMessageHandler s); simpl.
  - split; [discriminate | split; [reflexivity | split]].
    + split; [intros [e E]; discriminate E | discriminate].
    + intros [e E]. discriminate E.
  - split; [reflexivity | split; [discriminate | split]].
    + split; [reflexivity | intros _; eexists; reflexivity].
    + intros [e E]. discriminate E.
Qed.

Lemma C8_sendMessage_witness :
  sendMessage "hello" no_options (loaded true false)
  = (Returned (Rejected (Error not_available)), loaded true false)
  /\ posted (snd (sendMessage "hello" no_options (loaded true true)))
     = [hello_json].
Proof.
  destruct (C8_sendMessage "hello" no_options (loaded true false))
    as (A & _).
  destruct (C8_sendMessage "hello" no_options (loaded true true))
    as (_ & B & _).
  split.
  - apply A. reflexivity.
  - rewrite B by reflexivity. reflexivity.
Defined.

(** ** The keyed registries *)

Lemma append_calls_nil (s : State) : append_calls [] s = s.
Proof. destruct s. unfold append_calls. simpl. now rewrite app_nil_r. Qed.

Lemma append_calls_app (l1 l2 : list (Handler * Arg)) (s : State) :
  append_calls l2 (append_calls l1 s) = append_calls (l1 ++ l2) s.
Proof. unfold append_calls. simpl. now rewrite app_assoc. Qed.

Lemma delivered_refl (s : State) : delivered s s = [].
Proof. unfold delivered. apply skipn_all. Qed.

Lemma callbacks_of_on (t : HardwareEventType) (h : Handler) (s : State) :
  callbacks_of t (HardwareEvents_on t h s) = JSSet.add h (callbacks_of t s).
Proof.
  unfold callbacks_of, HardwareEvents_on, hw_get, hw_set, JSMap.has.
  destruct (JSMap.get HardwareEventType_eqb t (listeners s)) as [x|] eqn:G.
  - rewrite G. simpl.
    now rewrite (JSMapFacts.get_set_same _ _ _ HardwareEventType_eqb_eq).
  - rewrite (JSMapFacts.get_set_same _ _ _ HardwareEventType_eqb_eq). simpl.
    now rewrite (JSMapFacts.get_set_same _ _ _ HardwareEventType_eqb_eq).
Qed.

Lemma callbacks_of_off (t : HardwareEventType) (h : Handler) (s : State) :
  callbacks_of t (HardwareEvents_off t h s) = JSSet.delete h (callbacks_of t s).
Proof.
  unfold callbacks_of, HardwareEvents_off, hw_get, hw_set.
  destruct (JSMap.get HardwareEventType_eqb t (listeners s)) as [x|] eqn:G.
  - simpl. now rewrite (JSMapFacts.get_set_same _ _ _ HardwareEventType_eqb_eq).
  - now rewrite G.
Qed.

Lemma handlers_of_on (c : Channel) (h : Handler) (s : State) :
  handlers_of c (DeviceControls_on c h s) = JSSet.add h (handlers_of c s).
Proof.
  unfold handlers_of, DeviceControls_on, dc_get, dc_set, JSMap.has.
  destruct (JSMap.get Channel_eqb c (eventListeners s)) as [x|] eqn:G.
  - rewrite G. simpl.
    now rewrite (JSMapFacts.get_set_same _ _ _ Channel_eqb_eq).
  - rewrite (JSMapFacts.get_set_same _ _ _ Channel_eqb_eq). simpl.
    now rewrite (JSMapFacts.get_set_same _ _ _ Channel_eqb_eq).
Qed.

Lemma handlers_of_off (c : Channel) (h : Handler) (s : State) :
  handlers_of c (DeviceControls_off c h s) = JSSet.delete h (handlers_of c s).
Proof.
  unfold handlers_of, DeviceControls_off, dc_get, dc_set.
  destruct (JSMap.get Channel_eqb c (eventListeners s)) as [x|] eqn:G.
  - simpl. now rewrite (JSMapFacts.get_set_same _ _ _ Channel_eqb_eq).
  - now rewrite G.
Qed.

Lemma HardwareEvents_on_idem (t : HardwareEventType) (h : Handler) (s : State) :
  HardwareEvents_on t h (HardwareEvents_on t h s) = HardwareEvents_on t h s.
Proof.
  unfold HardwareEvents_on, hw_get, hw_set, JSMap.has.
  destruct (JSMap.get HardwareEventType_eqb t (listeners s)) as [x|] eqn:G.
  - rewrite G. simpl.
    rewrite (JSMapFacts.get_set_same _ _ _ HardwareEventType_eqb_eq). simpl.
    rewrite (JSMapFacts.get_set_same _ _ _ HardwareEventType_eqb_eq).
    rewrite JSSetFacts.add_idem.
    now rewrite (JSMapFacts.set_set _ _ _ HardwareEventType_eqb_eq).
  - rewrite (JSMapFacts.get_set_same _ _ _ HardwareEventType_eqb_eq). simpl.
    rewrite (JSMapFacts.get_set_same _ _ _ HardwareEventType_eqb_eq). simpl.
    rewrite (JSMapFacts.get_set_same _ _ _ HardwareEventType_eqb_eq).
    rewrite JSSetFacts.add_idem.
    now rewrite (JSMapFacts.set_set _ _ _ HardwareEventType_eqb_eq).
Qed.

Lemma DeviceControls_on_idem (c : Channel) (h : Handler) (s : State) :
  DeviceControls_on c h (DeviceControls_on c h s) = DeviceControls_on c h s.
Proof.
  unfold DeviceControls_on, dc_get, dc_set, JSMap.has.
  destruct (JSMap.get Channel_eqb c (eventListeners s)) as [x|] eqn:G.
  - rewrite G. simpl.
    rewrite (JSMapFacts.get_set_same _ _ _ Channel_eqb_eq). simpl.
    rewrite (JSMapFacts.get_set_same _ _ _ Channel_eqb_eq).
    rewrite JSSetFacts.add_idem.
    now rewrite (JSMapFacts.set_set _ _ _ Channel_eqb_eq).
  - rewrite (JSMapFacts.get_set_same _ _ _ Channel_eqb_eq). simpl.
    rewrite (JSMapFacts.get_set_same _ _ _ Channel_eqb_eq). simpl.
    rewrite (JSMapFacts.get_set_same _ _ _ Channel_eqb_eq).
    rewrite JSSetFacts.add_idem.
    now rewrite (JSMapFacts.set_set _ _ _ Channel_eqb_eq).
Qed.

Lemma onMessage_idem (h : Handler) (s : State) :
  onMessage h (onMessage h s) = onMessage h s.
Proof. unfold onMessage. simpl. now rewrite JSSetFacts.add_idem. Qed.

(** Registered twice, held once; unregistered once, gone. *)
Lemma held_once (h : Handler) (X : JSSet.t) :
  JSSet.wf X ->
  count_occ Nat.eq_dec (JSSet.values (JSSet.add h (JSSet.add h X))) h = 1.
Proof.
  intros W. rewrite JSSetFacts.add_idem. apply NoDup_count_occ'.
  - now apply JSSetFacts.wf_add.
  - apply JSSetFacts.has_spec, JSSetFacts.has_add.
Qed.

Lemma gone_after_delete (h : Handler) (X : JSSet.t) :
  JSSet.has h (JSSet.delete h (JSSet.add h (JSSet.add h X))) = false.
Proof. apply JSSetFacts.has_delete. Qed.

(** ** Fan-out over callbacks that neither throw nor touch the set *)

Section PlainFanout.

Variable code : Handler -> Arg -> Behaviour.

Lemma run_all_invoke_calls (a : Arg) (hs : list Handler) (s : State) :
  calls (run_all (fun h => invoke code h a) hs s) = calls s ++ each_with a hs.
Proof. apply run_all_calls. intros. apply invoke_calls. Qed.

Lemma invoke_steady_hardware (t : HardwareEventType) (a : Arg) (h : Handler) :
  leaves touches_hardware (code h a) = true ->
  hb_throws (code h a) = false ->
  steady (callbacks_of t) (fun h => invoke code h a) h.
Proof.
  intros L T s. split.
  - rewrite invoke_completion, T. reflexivity.
  - unfold callbacks_of. now rewrite invoke_listeners.
Qed.

Lemma invoke_steady_controls (c : Channel) (a : Arg) (h : Handler) :
  leaves touches_controls (code h a) = true ->
  hb_throws (code h a) = false ->
  steady (handlers_of c) (fun h => invoke code h a) h.
Proof.
  intros L T s. split.
  - rewrite invoke_completion, T. reflexivity.
  - unfold handlers_of. now rewrite invoke_eventListeners.
Qed.

Lemma emit_steady (fuel : nat) (t : HardwareEventType) (s : State) :
  (forall h, In h (JSSet.values (callbacks_of t s)) ->
             leaves touches_hardware (code h ArgNone) = true
             /\ hb_throws (code h ArgNone) = false) ->
  List.length (callbacks_of t s) < fuel ->
  emit code fuel t s
  = Some (Normal, run_all (fun h => invoke code h ArgNone)
                    (JSSet.values (callbacks_of t s)) s).
Proof.
  intros L F. unfold emit.
  destruct (hw_get t (listeners s)) as [x|] eqn:G.
  - pose proof (forEach_steady (callbacks_of t) (fun h => invoke code h ArgNone)
                  [] (callbacks_of t s) s fuel) as W.
    simpl in W. apply W; trivial.
    intros h I. destruct (L h I). now apply invoke_steady_hardware.
  - unfold callbacks_of. rewrite G. reflexivity.
Qed.

Lemma handle_steady (fuel : nat) (c : Channel) (a : Arg) (s : State) :
  (forall h, In h (JSSet.values (handlers_of c s)) ->
             leaves touches_controls (code h a) = true
             /\ hb_throws (code h a) = false) ->
  List.length (handlers_of c s) < fuel ->
  forEach fuel (handlers_of c) (fun h => invoke code h a) 0 s
  = Some (Normal, run_all (fun h => invoke code h a)
                    (JSSet.values (handlers_of c s)) s).
Proof.
  intros L F.
  pose proof (forEach_steady (handlers_of c) (fun h => invoke code h a)
                [] (handlers_of c s) s fuel) as W.
  simpl in W. apply W; trivial.
  intros h I. destruct (L h I). now apply invoke_steady_controls.
Qed.

Lemma emit_fuel_le (f f' : nat) (t : HardwareEventType) (s : State)
  (r : Completion * State) :
  f <= f' -> emit code f t s = Some r -> emit code f' t s = Some r.
Proof.
  unfold emit. intros L.
  destruct (hw_get t (listeners s)); trivial. now apply forEach_fuel_le.
Qed.

End PlainFanout.

(** ** Registration is idempotent *)

Lemma until_throw_incl (throws : Handler -> bool) (l : list Handler) :
  forall y, In y (until_throw throws l) -> In y l.
Proof.
  induction l as [|x l IH]; simpl; intros y I; trivial.
  destruct (throws x).
  - destruct I as [<-|[]]. now left.
  - destruct I as [<-|I]; auto.
Qed.

(** A consumer that no thrower comes before is called once. *)
Lemma until_throw_once (throws : Handler -> bool) (h : Handler)
  (l : list Handler) :
  NoDup l -> In h l ->
  (forall x, In x (before h l) -> throws x = false) ->
  count_occ (A:=Handler) Nat.eq_dec (until_throw throws l) h = 1.
Proof.
  induction l as [|x l IH]; simpl; intros N I B; [destruct I|].
  inversion N as [|? ? Nx Nl]; subst.
  destruct (Nat.eqb_spec x h) as [->|Ne].
  - assert (Z : count_occ (A:=Handler) Nat.eq_dec (until_throw throws l) h = 0).
    { apply count_occ_not_In. intros J. apply Nx.
      now apply (until_throw_incl throws l). }
    destruct (throws h); simpl;
      (destruct (Nat.eq_dec h h); [|congruence]); [reflexivity|].
    now rewrite Z.
  - destruct I as [->|I]; [congruence|].
    rewrite (B x (or_introl eq_refl)). simpl.
    destruct (Nat.eq_dec x h); [congruence|].
    apply IH; trivial. intros y J. apply B. now right.
Qed.

Section UnguardedWalk.

Variable the_set : State -> JSSet.t.
Variable callbackfn : Handler -> Step.
Variable a : Arg.
Variable throws : Handler -> bool.

Hypothesis callbackfn_calls :
  forall h x, calls (snd (callbackfn h x)) = calls x ++ [(h, a)].
Hypothesis callbackfn_completion :
  forall h x, fst (callbackfn h x) = if throws h then Throw (Thrown h) else Normal.

(** The walk without a guard over callbacks that leave the set alone:
    it returns, and has called the consumers up to the first that
    throws. *)
Lemma forEach_until_throw (suf : JSSet.t) :
  forall (pre : JSSet.t) (s : State) (fuel : nat),
    the_set s = pre ++ suf ->
    (forall h, In h (JSSet.values suf) ->
               forall x, the_set (snd (callbackfn h x)) = the_set x) ->
    List.length suf < fuel ->
    exists c s',
      forEach fuel the_set callbackfn (List.length pre) s = Some (c, s')
      /\ calls s'
         = calls s ++ each_with a (until_throw throws (JSSet.values suf)).
Proof.
  induction suf as [|e suf IH]; intros pre s fuel E K F.
  - exists Normal, s. destruct fuel as [|f]; [simpl in F; lia|].
    rewrite forEach_end by (rewrite E, app_nil_r; apply Nat.le_refl).
    split; [reflexivity | simpl; now rewrite app_nil_r].
  - destruct fuel as [|f]; [simpl in F; lia|]. simpl in F.
    cbn [forEach]. rewrite E, nth_error_middle.
    assert (E' : forall x, the_set x = the_set s ->
                           the_set x = (pre ++ [e]) ++ suf)
      by (intros x Q; rewrite Q, E, <- app_assoc; reflexivity).
    assert (L : S (List.length pre) = List.length (pre ++ [e]))
      by (rewrite length_app; simpl; lia).
    destruct e as [h|].
    + pose proof (callbackfn_calls h s) as C.
      pose proof (callbackfn_completion h s) as T.
      pose proof (K h (or_introl eq_refl) s) as Ks.
      destruct (callbackfn h s) as [c s1]. simpl in C, T, Ks. subst c.
      cbn [JSSet.values until_throw].
      destruct (throws h).
      * exists (Throw (Thrown h)), s1. split; [reflexivity | exact C].
      * rewrite L.
        destruct (IH (pre ++ [Some h]) s1 f (E' s1 Ks)) as (c & s' & R & Cs).
        -- intros g I. apply K. now right.
        -- lia.
        -- exists c, s'. split; [exact R|].
           rewrite Cs, C, <- app_assoc. reflexivity.
    + rewrite L. cbn [JSSet.values].
      destruct (IH (pre ++ [None]) s f (E' s eq_refl)) as (c & s' & R & Cs);
        [exact K | lia |].
      exists c, s'. split; [exact R | exact Cs].
Qed.

End UnguardedWalk.

Section OnceFacts.

Variable code : Handler -> Arg -> Behaviour.

(** A fan-out without a guard calls [h] once when the callbacks leave
    the set alone and none that comes before [h] throws. *)
Lemma unguarded_once (the_set : State -> JSSet.t) (a : Arg) (h : Handler)
  (s : State) (fuel : nat) :
  JSSet.wf (the_set s) ->
  In h (JSSet.values (the_set s)) ->
  (forall g, In g (JSSet.values (the_set s)) ->
             forall x, the_set (snd (invoke code g a x)) = the_set x) ->
  (forall g, In g (before h (JSSet.values (the_set s))) ->
             hb_throws (code g a) = false) ->
  List.length (the_set s) < fuel ->
  delivers_once (forEach fuel the_set (fun g => invoke code g a) 0) h s.
Proof.
  intros W I K B F.
  destruct (forEach_until_throw the_set (fun g => invoke code g a) a
              (fun g => hb_throws (code g a))
              (fun g x => invoke_calls code g a x)
              (fun g x => invoke_completion code g a x)
              (the_set s) [] s fuel eq_refl K F) as (c & s' & R & C).
  exists c, s'. split; [exact R|].
  rewrite (delivered_app _ _ _ C), map_fst_each_with.
  now apply until_throw_once.
Qed.

Lemma hardware_kept (t : HardwareEventType) (a : Arg) (g : Handler) (x : State) :
  leaves touches_hardware (code g a) = true ->
  callbacks_of t (snd (invoke code g a x)) = callbacks_of t x.
Proof. intros L. unfold callbacks_of. now rewrite invoke_listeners. Qed.

Lemma controls_kept (c : Channel) (a : Arg) (g : Handler) (x : State) :
  leaves touches_controls (code g a) = true ->
  handlers_of c (snd (invoke code g a x)) = handlers_of c x.
Proof. intros L. unfold handlers_of. now rewrite invoke_eventListeners. Qed.

Lemma emit_is_walk (fuel : nat) (t : HardwareEventType) (h : Handler)
  (s : State) :
  In h (JSSet.values (callbacks_of t s)) ->
  emit code fuel t s
  = forEach fuel (callbacks_of t) (fun g => invoke code g ArgNone) 0 s.
Proof.
  intros I. unfold emit. unfold callbacks_of in I.
  destruct (hw_get t (listeners s)); [reflexivity | destruct I].
Qed.

Lemma channel_fanout_is_walk (fuel : nat) (c : Channel) (dir : Direction)
  (e : Event) (s : State) :
  channel_fanout code fuel c dir e s
  = forEach fuel (handlers_of c) (fun g => invoke code g (channel_arg c dir e))
      0 s.
Proof. destruct c; reflexivity. Qed.

End OnceFacts.

Lemma member_after_add (h : Handler) (X : JSSet.t) :
  In h (JSSet.values (JSSet.add h X)).
Proof. apply JSSetFacts.has_spec, JSSetFacts.has_add. Qed.

(** C10, as the spec words it, fails at each registry when a callback of
    the delivery unsubscribes the handler and subscribes it again: the
    walk over the live set then reaches it a second time.  Here consumer
    2 is registered twice, consumer 1 after it, and consumer 1
    re-registers consumer 2 while it runs.  At the fan-outs without a
    guard it fails as well when a consumer registered before the handler
    throws: the handler is then not called at all. *)
Lemma C10_counterexample :
  (exists s',
      onPluginMessage code_resubscribing 4 (hi_p1 None)
        (onMessage 1 (onMessage 2 (onMessage 2 (loaded true true))))
      = Some (Normal, s')
      /\ map fst (calls s') = [2; 1; 2])
  /\ (forall fuel,
         ~ delivers_once (onPluginMessage code_resubscribing fuel (hi_p1 None)) 2
             (onMessage 1 (onMessage 2 (onMessage 2 (loaded true true)))))
  /\ (forall fuel,
         ~ delivers_once (emit code_resubscribing fuel sideClick) 2
             (HardwareEvents_on sideClick 1
                (HardwareEvents_on sideClick 2
                   (HardwareEvents_on sideClick 2 (loaded true true)))))
  /\ (forall fuel c dir e,
         ~ delivers_once (channel_fanout code_resubscribing fuel c dir e) 2
             (DeviceControls_on c 1
                (DeviceControls_on c 2
                   (DeviceControls_on c 2 (loaded true true)))))
  /\ (forall fuel,
         ~ delivers_once (emit code_throwing fuel sideClick) 2
             (HardwareEvents_on sideClick 2
                (HardwareEvents_on sideClick 2
                   (HardwareEvents_on sideClick 1 (loaded true true))))).
Proof.
  split; [eexists; split; vm_compute; reflexivity | split; [|split; [|split]]].
  - intros fuel (c & s' & E & F).
    assert (R : exists s2,
               onPluginMessage code_resubscribing 4 (hi_p1 None)
                 (onMessage 1 (onMessage 2 (onMessage 2 (loaded true true))))
               = Some (Normal, s2)
               /\ count_occ (A:=Handler) Nat.eq_dec
                    (map fst (delivered
                       (onMessage 1 (onMessage 2 (onMessage 2 (loaded true true))))
                       s2)) 2 = 2)
      by (eexists; split; vm_compute; reflexivity).
    destruct R as (s2 & E2 & C2).
    assert (Q : (c, s') = (Normal, s2)).
    { apply (same_at_any_fuel _
               (fun f => onPluginMessage code_resubscribing f (hi_p1 None)
                  (onMessage 1 (onMessage 2 (onMessage 2 (loaded true true)))))
               4 (Normal, s2)) with (f := fuel); trivial.
      intros f f' x. apply onPluginMessage_fuel_le. }
    inversion Q; subst. rewrite C2 in F. discriminate F.
  - intros fuel (c & s' & E & F).
    assert (R : exists s2,
               emit code_resubscribing 4 sideClick
                 (HardwareEvents_on sideClick 1
                    (HardwareEvents_on sideClick 2
                       (HardwareEvents_on sideClick 2 (loaded true true))))
               = Some (Normal, s2)
               /\ count_occ (A:=Handler) Nat.eq_dec
                    (map fst (delivered
                       (HardwareEvents_on sideClick 1
                          (HardwareEvents_on sideClick 2
                             (HardwareEvents_on sideClick 2 (loaded true true))))
                       s2)) 2 = 2)
      by (eexists; split; vm_compute; reflexivity).
    destruct R as (s2 & E2 & C2).
    assert (Q : (c, s') = (Normal, s2)).
    { apply (same_at_any_fuel _
               (fun f => emit code_resubscribing f sideClick
                  (HardwareEvents_on sideClick 1
                     (HardwareEvents_on sideClick 2
                        (HardwareEvents_on sideClick 2 (loaded true true)))))
               4 (Normal, s2)) with (f := fuel); trivial.
      intros f f' x. apply emit_fuel_le. }
    inversion Q; subst. rewrite C2 in F. discriminate F.
  - intros fuel ch dir e (c & s' & E & F).
    assert (R : exists s2,
               channel_fanout code_resubscribing 4 ch dir e
                 (DeviceControls_on ch 1
                    (DeviceControls_on ch 2
                       (DeviceControls_on ch 2 (loaded true true))))
               = Some (Normal, s2)
               /\ count_occ (A:=Handler) Nat.eq_dec
                    (map fst (delivered
                       (DeviceControls_on ch 1
                          (DeviceControls_on ch 2
                             (DeviceControls_on ch 2 (loaded true true))))
                       s2)) 2 = 2)
      by (destruct ch; eexists; split; vm_compute; reflexivity).
    destruct R as (s2 & E2 & C2).
    assert (Q : (c, s') = (Normal, s2)).
    { apply (same_at_any_fuel _
               (fun f => channel_fanout code_resubscribing f ch dir e
                  (DeviceControls_on ch 1
                     (DeviceControls_on ch 2
                        (DeviceControls_on ch 2 (loaded true true)))))
               4 (Normal, s2)) with (f := fuel); trivial.
      intros f f' x L. rewrite !channel_fanout_is_walk.
      now apply forEach_fuel_le. }
    inversion Q; subst. rewrite C2 in F. discriminate F.
  - intros fuel (c & s' & E & F).
    assert (R : exists s2,
               emit code_throwing 4 sideClick
                 (HardwareEvents_on sideClick 2
                    (HardwareEvents_on sideClick 2
                       (HardwareEvents_on sideClick 1 (loaded true true))))
               = Some (Throw (Thrown 1), s2)
               /\ count_occ (A:=Handler) Nat.eq_dec
                    (map fst (delivered
                       (HardwareEvents_on sideClick 2
                          (HardwareEvents_on sideClick 2
                             (HardwareEvents_on sideClick 1 (loaded true true))))
                       s2)) 2 = 0)
      by (eexists; split; vm_compute; reflexivity).
    destruct R as (s2 & E2 & C2).
    assert (Q : (c, s') = (Throw (Thrown 1), s2)).
    { apply (same_at_any_fuel _
               (fun f => emit code_throwing f sideClick
                  (HardwareEvents_on sideClick 2
                     (HardwareEvents_on sideClick 2
                        (HardwareEvents_on sideClick 1 (loaded true true)))))
               4 (Throw (Thrown 1), s2)) with (f := fuel); trivial.
      intros f f' x. apply emit_fuel_le. }
    inversion Q; subst. rewrite C2 in F. discriminate F.
Qed.

(** C10, amended: at each of the three registries, registering the same
    function a second time leaves the state as one registration does; the
    function is held once; one unregistration removes it; and one
    delivery calls it exactly once when no callback of that delivery
    changes the registry walked and, at the fan-outs without a guard
    ([HardwareEvents.emit] and the two gate channels), no consumer that
    comes before it throws. *)
Theorem C10_registration_idempotent
  (code : Handler -> Arg -> Behaviour) (h : Handler)
  (t : HardwareEventType) (c : Channel) (data : PluginMessageResponse)
  (dir : Direction) (e : Event) (s : State) (fuel : nat) :
  JSSet.wf (messageHandlers s) ->
  JSSet.wf (callbacks_of t s) ->
  JSSet.wf (handlers_of c s) ->
  (* R1Messaging.onMessage *)
  (onMessage h (onMessage h s) = onMessage h s
   /\ count_occ (A:=Handler) Nat.eq_dec
        (JSSet.values (messageHandlers (onMessage h (onMessage h s)))) h = 1
   /\ JSSet.has h (messageHandlers
                     (offMessage h (onMessage h (onMessage h s)))) = false
   /\ ((forall x, In x (JSSet.values (messageHandlers (onMessage h s))) ->
                  leaves touches_messages
                    (code x (ArgEnvelope (enhance data))) = true) ->
       List.length (messageHandlers (onMessage h s)) < fuel ->
       delivers_once (onPluginMessage code fuel data) h
         (onMessage h (onMessage h s))))
  (* HardwareEvents.on *)
  /\ (HardwareEvents_on t h (HardwareEvents_on t h s) = HardwareEvents_on t h s
      /\ count_occ (A:=Handler) Nat.eq_dec
           (JSSet.values
              (callbacks_of t (HardwareEvents_on t h (HardwareEvents_on t h s))))
           h = 1
      /\ JSSet.has h
           (callbacks_of t
              (HardwareEvents_off t h
                 (HardwareEvents_on t h (HardwareEvents_on t h s)))) = false
      /\ ((forall x, In x (JSSet.values (callbacks_of t (HardwareEvents_on t h s))) ->
                     leaves touches_hardware (code x ArgNone) = true) ->
          (forall x,
              In x (before h
                      (JSSet.values (callbacks_of t (HardwareEvents_on t h s)))) ->
              hb_throws (code x ArgNone) = false) ->
          List.length (callbacks_of t (HardwareEvents_on t h s)) < fuel ->
          delivers_once (emit code fuel t) h
            (HardwareEvents_on t h (HardwareEvents_on t h s))))
  (* DeviceControls.on *)
  /\ (DeviceControls_on c h (DeviceControls_on c h s) = DeviceControls_on c h s
      /\ count_occ (A:=Handler) Nat.eq_dec
           (JSSet.values
              (handlers_of c (DeviceControls_on c h (DeviceControls_on c h s))))
           h = 1
      /\ JSSet.has h
           (handlers_of c
              (DeviceControls_off c h
                 (DeviceControls_on c h (DeviceControls_on c h s)))) = false
      /\ ((forall x, In x (JSSet.values (handlers_of c (DeviceControls_on c h s))) ->
                     leaves touches_controls (code x (channel_arg c dir e)) = true) ->
          (forall x,
              In x (before h
                      (JSSet.values (handlers_of c (DeviceControls_on c h s)))) ->
              hb_throws (code x (channel_arg c dir e)) = false) ->
          List.length (handlers_of c (DeviceControls_on c h s)) < fuel ->
          delivers_once (channel_fanout code fuel c dir e) h
            (DeviceControls_on c h (DeviceControls_on c h s)))).
Proof.
  intros Wm Wh Wc. split; [|split].
  - split; [apply onMessage_idem | split; [|split]].
    + unfold onMessage. simpl. now apply held_once.
    + unfold offMessage, onMessage. simpl. apply gone_after_delete.
    + intros L F. rewrite onMessage_idem. eexists _, _. split.
      * now apply onPluginMessage_steady.
      * erewrite delivered_app by apply run_all_guarded_calls.
        rewrite map_fst_each_with. unfold onMessage. simpl.
        apply NoDup_count_occ'; [now apply JSSetFacts.wf_add|].
        apply member_after_add.
  - split; [apply HardwareEvents_on_idem | split; [|split]].
    + rewrite !callbacks_of_on. now apply held_once.
    + rewrite callbacks_of_off, !callbacks_of_on. apply gone_after_delete.
    + intros L B F. rewrite HardwareEvents_on_idem.
      assert (I : In h (JSSet.values (callbacks_of t (HardwareEvents_on t h s))))
        by (rewrite callbacks_of_on; apply member_after_add).
      destruct (unguarded_once code (callbacks_of t) ArgNone h
                  (HardwareEvents_on t h s) fuel) as (c' & s' & R & C); trivial.
      * rewrite callbacks_of_on. now apply JSSetFacts.wf_add.
      * intros g Ig x. apply hardware_kept. now apply L.
      * exists c', s'. split; [|exact C].
        now rewrite (emit_is_walk code fuel t h).
  - split; [apply DeviceControls_on_idem | split; [|split]].
    + rewrite !handlers_of_on. now apply held_once.
    + rewrite handlers_of_off, !handlers_of_on. apply gone_after_delete.
    + intros L B F. rewrite DeviceControls_on_idem.
      assert (I : In h (JSSet.values (handlers_of c (DeviceControls_on c h s))))
        by (rewrite handlers_of_on; apply member_after_add).
      destruct (unguarded_once code (handlers_of c) (channel_arg c dir e) h
                  (DeviceControls_on c h s) fuel) as (c' & s' & R & C); trivial.
      * rewrite handlers_of_on. now apply JSSetFacts.wf_add.
      * intros g Ig x. apply controls_kept. now apply L.
      * exists c', s'. split; [|exact C].
        now rewrite channel_fanout_is_walk.
Qed.

(** Consumer 7 is registered first and only returns; the handler 1,
    registered twice after it, throws. *)
Lemma C10_registration_idempotent_witness :
  delivers_once (onPluginMessage code_throwing 3 (hi_p1 None)) 1
    (onMessage 1
       (onMessage 1
          (DeviceControls_on scrollWheel 7
             (HardwareEvents_on scrollUp 7 (onMessage 7 (loaded true true))))))
  /\ delivers_once (emit code_throwing 3 scrollUp) 1
       (HardwareEvents_on scrollUp 1
          (HardwareEvents_on scrollUp 1
             (DeviceControls_on scrollWheel 7
                (HardwareEvents_on scrollUp 7 (onMessage 7 (loaded true true))))))
  /\ delivers_once (channel_fanout code_throwing 3 scrollWheel up native_sideClick) 1
       (DeviceControls_on scrollWheel 1
          (DeviceControls_on scrollWheel 1
             (DeviceControls_on scrollWheel 7
                (HardwareEvents_on scrollUp 7 (onMessage 7 (loaded true true)))))).
Proof.
  assert (Q : forall x a, leaves touches_messages (code_throwing x a) = true
                          /\ leaves touches_hardware (code_throwing x a) = true
                          /\ leaves touches_controls (code_throwing x a) = true).
  { intros x a. unfold code_throwing. destruct (Nat.eqb x 1); repeat split. }
  assert (W : NoDup [7]) by (repeat constructor; simpl; tauto).
  destruct (C10_registration_idempotent code_throwing 1 scrollUp scrollWheel
              (hi_p1 None) up native_sideClick
              (DeviceControls_on scrollWheel 7
                 (HardwareEvents_on scrollUp 7 (onMessage 7 (loaded true true))))
              3 W W W)
    as ((_ & _ & _ & A) & (_ & _ & _ & B) & (_ & _ & _ & C)).
  split; [|split].
  - apply A; [intros x _; apply Q | simpl; lia].
  - apply B; [intros x _; apply Q | | simpl; lia].
    intros x [<-|[]]. reflexivity.
  - apply C; [intros x _; apply Q | | simpl; lia].
    intros x [<-|[]]. reflexivity.
Defined.

(** ** The gate *)

Lemma add_fresh (h : Handler) (X : JSSet.t) :
  ~ In h (JSSet.values X) -> JSSet.add h X = X ++ [Some h].
Proof.
  intros N. unfold JSSet.add. destruct (JSSet.has h X) eqn:E; trivial.
  apply JSSetFacts.has_spec in E. tauto.
Qed.

Lemma controls_on_kept (c : Channel) (h : Handler) (s : State) :
  window_listeners (DeviceControls_on c h s) = window_listeners s
  /\ listeners (DeviceControls_on c h s) = listeners s
  /\ sideButtonEnabled (DeviceControls_on c h s) = sideButtonEnabled s
  /\ calls (DeviceControls_on c h s) = calls s.
Proof. unfold DeviceControls_on. break_match; repeat split. Qed.

Lemma controls_subscribe_all_kept (c : Channel) (hs : list Handler) :
  forall s,
    window_listeners (controls_subscribe_all c hs s) = window_listeners s
    /\ listeners (controls_subscribe_all c hs s) = listeners s
    /\ sideButtonEnabled (controls_subscribe_all c hs s) = sideButtonEnabled s
    /\ calls (controls_subscribe_all c hs s) = calls s.
Proof.
  unfold controls_subscribe_all.
  induction hs as [|h hs IH]; simpl; intros s; [repeat split|].
  destruct (IH (DeviceControls_on c h s)) as (A & B & C & D).
  destruct (controls_on_kept c h s) as (A' & B' & C' & D').
  rewrite A, B, C, D. auto.
Qed.

Lemma controls_subscribe_all_handlers (c : Channel) (hs : list Handler) :
  forall s,
    NoDup hs ->
    (forall h, In h hs -> ~ In h (JSSet.values (handlers_of c s))) ->
    handlers_of c (controls_subscribe_all c hs s)
    = handlers_of c s ++ map Some hs.
Proof.
  unfold controls_subscribe_all.
  induction hs as [|h hs IH]; simpl; intros s N F.
  - now rewrite app_nil_r.
  - inversion N as [|? ? Nh N']; subst.
    assert (A : handlers_of c (DeviceControls_on c h s)
                = handlers_of c s ++ [Some h]).
    { rewrite handlers_of_on. apply add_fresh. apply F. now left. }
    rewrite IH; trivial.
    + rewrite A, <- app_assoc. reflexivity.
    + intros h' I. rewrite A, JSSetFacts.values_app. simpl.
      intros J. apply in_app_or in J as [J|[J|[]]].
      * apply (F h'); tauto.
      * congruence.
Qed.

Section GateFacts.

Variable code : Handler -> Arg -> Behaviour.
Variable hs : list Handler.
Hypothesis hs_quiet : forall h a, In h hs -> code h a = quiet.

Lemma run_all_quiet (a : Arg) (l : list Handler) :
  incl l hs ->
  forall s, run_all (fun h => invoke code h a) l s
            = append_calls (each_with a l) s.
Proof.
  unfold run_all. induction l as [|h l IH]; simpl; intros I s.
  - now rewrite append_calls_nil.
  - rewrite IH by (intros x X; apply I; now right).
    unfold invoke. rewrite hs_quiet by (apply I; now left). simpl.
    apply (append_calls_app [(h, a)]).
Qed.

Lemma gate_ready_calls (l : list (Handler * Arg)) (s : State) :
  gate_ready hs s -> gate_ready hs (append_calls l s).
Proof. exact (fun R => R). Qed.

Lemma gate_ready_side (b : bool) (s : State) :
  gate_ready hs s -> gate_ready hs (setSideButtonEnabled b s).
Proof. exact (fun R => R). Qed.

Lemma gate_ready_scroll (b : bool) (s : State) :
  gate_ready hs s -> gate_ready hs (setScrollWheelEnabled b s).
Proof. exact (fun R => R). Qed.

(** One [sideClick] on a ready gate: every consumer once if the flag
    is on, nobody if it is off; nothing else changes. *)
Lemma dispatch_ready (fuel : nat) (src : option string) (s : State) :
  gate_ready hs s ->
  List.length hs + 1 < fuel ->
  dispatchEvent code fuel (sideClick_from src) s
  = Some (append_calls
            (if sideButtonEnabled s
             then each_with (ArgEvent (sideClick_from src)) hs else [])
            s).
Proof.
  intros (Ls & Hw & Hd) F.
  destruct fuel as [|f]; [lia|].
  cbn [dispatchEvent]. cbn [sideClick_from ev_type]. rewrite Ls.
  cbn [call_listeners run_listener]. unfold emit. rewrite Hw.
  destruct (sideButtonEnabled s) eqn:En; cbn [negb].
  - unfold handleSideButtonClick.
    rewrite (handle_steady code (S f) sideButton).
    + rewrite Hd, values_map_Some.
      rewrite run_all_quiet by apply incl_refl. reflexivity.
    + rewrite Hd, values_map_Some. intros h I.
      rewrite hs_quiet by assumption. split; reflexivity.
    + rewrite Hd, length_map. lia.
  - now rewrite append_calls_nil.
Qed.

Lemma run_ops_ready (fuel : nat) (ops : list GateOp) :
  List.length hs + 1 < fuel ->
  forall s,
    gate_ready hs s ->
    exists s',
      run_ops code fuel ops s = Some s'
      /\ calls s' = calls s ++ gated_deliveries hs ops (sideButtonEnabled s)
      /\ window_listeners s' = window_listeners s.
Proof.
  intros F. induction ops as [|[b|b|src] ops IH]; intros s R.
  - exists s. simpl. now rewrite app_nil_r.
  - destruct (IH (setSideButtonEnabled b s) (gate_ready_side b s R))
      as (s' & E & C & W).
    exists s'. simpl. auto.
  - destruct (IH (setScrollWheelEnabled b s) (gate_ready_scroll b s R))
      as (s' & E & C & W).
    exists s'. simpl. auto.
  - cbn [run_ops gated_deliveries]. rewrite (dispatch_ready fuel src s R F).
    destruct (IH _ (gate_ready_calls
                      (if sideButtonEnabled s
                       then each_with (ArgEvent (sideClick_from src)) hs
                       else []) s R))
      as (s' & E & C & W).
    exists s'. split; [exact E | split; [|exact W]].
    rewrite C. simpl. now rewrite app_assoc.
Qed.

End GateFacts.

Lemma init_enabled_ready (opts : DeviceControlsOptions) (pmh : bool) :
  or_true (opt_sideButtonEnabled opts) = true ->
  fst (init opts (loaded true pmh)) = Normal
  /\ gate_ready [] (snd (init opts (loaded true pmh)))
  /\ sideButtonEnabled (snd (init opts (loaded true pmh))) = true.
Proof.
  intros E.
  destruct opts as [[[|]|] [[|]|] [[|]|]]; try discriminate E; destruct pmh;
    (split; [|split; [split; [|split]|]]); vm_compute; reflexivity.
Qed.

Lemma EventName_eqb_eq (a b : EventName) : EventName_eqb a b = true <-> a = b.
Proof.
  destruct a as [x|], b as [y|]; simpl; try (split; congruence).
  rewrite HardwareEventType_eqb_eq. split; congruence.
Qed.

Lemma listeners_for_In (name : EventName) (l : Listener) (s : State) :
  In l (listeners_for name s) -> In (name, l) (window_listeners s).
Proof.
  unfold listeners_for. intros I.
  apply in_map_iff in I as ([n l'] & E & I). simpl in E. subst l'.
  apply filter_In in I as [I Q]. simpl in Q.
  apply EventName_eqb_eq in Q. now subst n.
Qed.

Lemma In_listeners_for (name : EventName) (l : Listener) (s : State) :
  In (name, l) (window_listeners s) -> In l (listeners_for name s).
Proof.
  intros I. unfold listeners_for.
  apply (in_map snd _ (name, l)). apply filter_In. split; [exact I|].
  now apply EventName_eqb_eq.
Qed.

Lemma init_disabled_missing (sw kb : option bool) (pmh : bool) :
  fst (init (disabled_at_init sw kb) (loaded true pmh)) = Normal
  /\ gate_missing (snd (init (disabled_at_init sw kb) (loaded true pmh))).
Proof.
  destruct sw as [[|]|], kb as [[|]|], pmh;
    (split; [|split]); vm_compute; reflexivity.
Qed.

Section MissingGate.

Variable code : Handler -> Arg -> Behaviour.

(** Without the gate's listener a [sideClick] changes nothing. *)
Lemma dispatch_missing (fuel : nat) (src : option string) (s : State) :
  gate_missing s ->
  dispatchEvent code (S fuel) (sideClick_from src) s = Some s.
Proof.
  intros (Ls & Hw). cbn [dispatchEvent]. cbn [sideClick_from ev_type].
  rewrite Ls. cbn [call_listeners run_listener]. unfold emit. now rewrite Hw.
Qed.

Lemma run_ops_missing (fuel : nat) (ops : list GateOp) :
  forall s,
    gate_missing s ->
    exists s',
      run_ops code (S fuel) ops s = Some s'
      /\ calls s' = calls s
      /\ window_listeners s' = window_listeners s.
Proof.
  induction ops as [|[b|b|src] ops IH]; intros s M.
  - exists s. repeat split.
  - destruct (IH (setSideButtonEnabled b s) M) as (s' & E & C & W).
    exists s'. simpl. auto.
  - destruct (IH (setScrollWheelEnabled b s) M) as (s' & E & C & W).
    exists s'. simpl. auto.
  - cbn [run_ops]. rewrite (dispatch_missing fuel src s M). now apply IH.
Qed.

End MissingGate.

(** C7, on the code: when [init] was called with [sideButtonEnabled:
    false] (whatever the other options), it installs no [sideClick]
    listener, and nothing installs one later.  Whatever consumers are
    then registered on the [sideButton] channel and whatever they would
    do, no run of flag changes and [sideClick] signals calls any of
    them: setting the flag to [true] restores nothing. *)
Theorem C7_disabled_at_init_never_delivers
  (code : Handler -> Arg -> Behaviour) (sw kb : option bool)
  (hs : list Handler) (pmh : bool) (ops : list GateOp) (fuel : nat) :
  fst (init (disabled_at_init sw kb) (loaded true pmh)) = Normal
  /\ ~ In (HW sideClick, SideButtonListener)
         (window_listeners
            (controls_subscribe_all sideButton hs
               (snd (init (disabled_at_init sw kb) (loaded true pmh)))))
  /\ (exists s',
         run_ops code (S fuel) ops
           (controls_subscribe_all sideButton hs
              (snd (init (disabled_at_init sw kb) (loaded true pmh))))
         = Some s'
         /\ delivered
              (controls_subscribe_all sideButton hs
                 (snd (init (disabled_at_init sw kb) (loaded true pmh)))) s'
            = []
         /\ window_listeners s'
            = window_listeners
                (controls_subscribe_all sideButton hs
                   (snd (init (disabled_at_init sw kb) (loaded true pmh)))))
  /\ (exists s',
         run_ops (fun _ _ => quiet) 3
           [SetSideButton true; RaiseSideClick None]
           (DeviceControls_on sideButton 1
              (snd (init side_button_off (loaded true true))))
         = Some s'
         /\ sideButtonEnabled s' = true
         /\ JSSet.values (handlers_of sideButton s') = [1]
         /\ calls s' = [])
  /\ ~ gate_restores side_button_off.
Proof.
  destruct (init_disabled_missing sw kb pmh) as (I0 & Ls & Hw).
  set (s0 := snd (init (disabled_at_init sw kb) (loaded true pmh))) in *.
  destruct (controls_subscribe_all_kept sideButton hs s0) as (Kw & Kl & _).
  assert (M : gate_missing (controls_subscribe_all sideButton hs s0)).
  { split.
    - unfold listeners_for in *. now rewrite Kw.
    - now rewrite Kl. }
  split; [exact I0 | split; [|split; [|split]]].
  - intros I. apply In_listeners_for in I. destruct M as (Ls' & _).
    rewrite Ls' in I. destruct I as [I|[]]. discriminate I.
  - destruct (run_ops_missing code fuel ops _ M) as (s' & E & C & W).
    exists s'. split; [exact E | split; [|exact W]].
    unfold delivered. rewrite C. apply skipn_all.
  - eexists. split; [|split; [|split]]; vm_compute; reflexivity.
  - intros G. destruct (G 1 None) as (s' & R & I).
    assert (X : exists x,
               run_ops (fun _ _ => quiet) 3
                 [SetSideButton false; SetSideButton true; RaiseSideClick None]
                 (DeviceControls_on sideButton 1
                    (snd (init side_button_off (loaded true true))))
               = Some x
               /\ delivered (DeviceControls_on sideButton 1
                              (snd (init side_button_off (loaded true true)))) x
                  = [])
      by (eexists; split; vm_compute; reflexivity).
    destruct X as (x & Rx & D).
    rewrite Rx in R. inversion R; subst x.
    rewrite D in I. exact I.
Qed.

(** ** One path for three origins *)

Section OriginFacts.

Variable code : Handler -> Arg -> Behaviour.

Lemma canonical_view_invoke (h : Handler) (e : Event) (s : State) :
  canonical_view (snd (invoke code h (ArgEvent e) s)) = canonical_view s.
Proof.
  unfold canonical_view. rewrite invoke_calls, filter_app. simpl.
  now rewrite app_nil_r.
Qed.

(** A gate listener adds nothing to what the hardware consumers see. *)
Lemma gate_listener_view (dispatch : Event -> State -> option State)
  (fuel : nat) (e : Event) (s s' : State) (c : Completion) :
  run_listener code dispatch fuel SideButtonListener e s = Some (c, s') ->
  canonical_view s' = canonical_view s.
Proof.
  cbn [run_listener]. destruct (negb (sideButtonEnabled s)).
  - intros R. now inversion R.
  - unfold handleSideButtonClick. intros R.
    apply (forEach_invariant (handlers_of sideButton)
             (fun h => invoke code h (ArgEvent e))
             (fun x => canonical_view x = canonical_view s)
             (fun h x P => eq_trans (canonical_view_invoke h e x) P)
             fuel 0 s c s' eq_refl R).
Qed.

Lemma gate_listeners_view (dispatch : Event -> State -> option State)
  (fuel : nat) (e : Event) (gates : list Listener) :
  Forall (eq SideButtonListener) gates ->
  forall s s',
    call_listeners (run_listener code dispatch fuel) gates e s = Some s' ->
    canonical_view s' = canonical_view s.
Proof.
  induction 1 as [|l gates <- _ IH]; intros s s' R.
  - now inversion R.
  - cbn [call_listeners] in R.
    destruct (run_listener code dispatch fuel SideButtonListener e s)
      as [[[|x] s1]|] eqn:G; try discriminate R.
    + rewrite (IH _ _ R). now apply gate_listener_view in G.
    + rewrite (IH _ _ R). now apply gate_listener_view in G.
Qed.

(** A [sideClick] event, whatever it carries, shows the hardware
    consumers what [emit] alone shows them. *)
Lemma sideClick_view (fuel : nat) (e : Event) (gates : list Listener)
  (s s' : State) :
  ev_type e = HW sideClick ->
  listeners_for (HW sideClick) s = HardwareListener sideClick :: gates ->
  Forall (eq SideButtonListener) gates ->
  dispatchEvent code fuel e s = Some s' ->
  exists r, emit code fuel sideClick s = Some r
            /\ canonical_view s' = canonical_view (snd r).
Proof.
  intros T Ls G R. destruct fuel as [|f]; [discriminate R|].
  cbn [dispatchEvent] in R. rewrite T, Ls in R.
  cbn [call_listeners run_listener] in R.
  destruct (emit code (S f) sideClick s) as [[[|x] s1]|];
    try discriminate R; eexists; (split; [reflexivity|]);
    now apply gate_listeners_view in R.
Qed.

Lemma keyboard_path (fuel : nat) (s : State) :
  listeners_for keydown s = [KeyboardListener] ->
  dispatchEvent code (S fuel) space_key s
  = dispatchEvent code fuel (CustomEvent sideClick "keyboard") s.
Proof.
  intros Lk. cbn [dispatchEvent]. cbn [space_key ev_type]. rewrite Lk.
  cbn [call_listeners run_listener ev_code space_key]. unfold Space.
  rewrite String.eqb_refl.
  now destruct (dispatchEvent code fuel (CustomEvent sideClick "keyboard") s).
Qed.

Lemma origin_view (fuel : nat) (o : Origin) (gates : list Listener)
  (s s' : State) :
  has_window s = true ->
  listeners_for (HW sideClick) s = HardwareListener sideClick :: gates ->
  Forall (eq SideButtonListener) gates ->
  listeners_for keydown s = [KeyboardListener] ->
  origin_ok o ->
  raise_sideClick code fuel o s = Some s' ->
  exists r, emit code fuel sideClick s = Some r
            /\ canonical_view s' = canonical_view (snd r).
Proof.
  intros Hw Ls G Lk Ok R. destruct o as [e| |]; cbn [raise_sideClick] in R.
  - now apply (sideClick_view fuel e gates).
  - destruct fuel as [|f]; [discriminate R|].
    rewrite (keyboard_path f s Lk) in R.
    destruct (sideClick_view f (CustomEvent sideClick "keyboard") gates s s'
                eq_refl Ls G R) as (r & E & V).
    exists r. split; trivial. apply (emit_fuel_le code f (S f)); [lia | exact E].
  - unfold triggerSideButton in R. rewrite Hw in R.
    destruct (dispatchEvent code fuel (CustomEvent sideClick "programmatic") s)
      as [x|] eqn:D; inversion R; subst x.
    now apply (sideClick_view fuel (CustomEvent sideClick "programmatic")
                 gates s s' eq_refl Ls G).
Qed.

End OriginFacts.

(** C9: on a state where the normalizer's [sideClick] listener comes
    first on [window], followed by gate listeners only, and the keyboard
    fallback is installed once, take two runs that raise one [sideClick]
    from any two origins: native (any event of that type), the Space key,
    or [triggerSideButton].  What the consumers of the canonical
    [sideClick] tag have been called with is the same in both runs,
    whatever the callbacks do with the event the gate hands them; and the
    normalizer's listener does the same for any two events. *)
Theorem C9_origin_indistinguishable
  (code : Handler -> Arg -> Behaviour) (fuel : nat) (gates : list Listener)
  (s s1 s2 : State) (o1 o2 : Origin) :
  has_window s = true ->
  listeners_for (HW sideClick) s = HardwareListener sideClick :: gates ->
  Forall (eq SideButtonListener) gates ->
  listeners_for keydown s = [KeyboardListener] ->
  origin_ok o1 -> origin_ok o2 ->
  raise_sideClick code fuel o1 s = Some s1 ->
  raise_sideClick code fuel o2 s = Some s2 ->
  canonical_view s1 = canonical_view s2
  /\ forall dispatch,
       run_listener code dispatch fuel (HardwareListener sideClick)
         (sideClick_event o1) s
       = run_listener code dispatch fuel (HardwareListener sideClick)
           (sideClick_event o2) s.
Proof.
  intros Hw Ls G Lk Ok1 Ok2 R1 R2. split; [|reflexivity].
  destruct (origin_view code fuel o1 gates s s1 Hw Ls G Lk Ok1 R1)
    as (r1 & E1 & V1).
  destruct (origin_view code fuel o2 gates s s2 Hw Ls G Lk Ok2 R2)
    as (r2 & E2 & V2).
  rewrite V1, V2. congruence.
Qed.

Lemma C9_origin_indistinguishable_witness :
  exists s1 s2,
    raise_sideClick code_inspecting 4 (Native native_sideClick)
      (DeviceControls_on sideButton 1
         (HardwareEvents_on sideClick 7
            (snd (init default_options (loaded true true)))))
    = Some s1
    /\ raise_sideClick code_inspecting 4 Keyboard
         (DeviceControls_on sideButton 1
            (HardwareEvents_on sideClick 7
               (snd (init default_options (loaded true true)))))
       = Some s2
    /\ canonical_view s1 = canonical_view s2.
Proof.
  set (s := DeviceControls_on sideButton 1
              (HardwareEvents_on sideClick 7
                 (snd (init default_options (loaded true true))))).
  destruct (raise_sideClick code_inspecting 4 (Native native_sideClick) s)
    as [s1|] eqn:R1; [|vm_compute in R1; discriminate R1].
  destruct (raise_sideClick code_inspecting 4 Keyboard s)
    as [s2|] eqn:R2; [|vm_compute in R2; discriminate R2].
  exists s1, s2. split; [reflexivity | split; [reflexivity|]].
  assert (Hw : has_window s = true) by (vm_compute; reflexivity).
  assert (Ls : listeners_for (HW sideClick) s
               = HardwareListener sideClick :: [SideButtonListener])
    by (vm_compute; reflexivity).
  assert (Lk : listeners_for keydown s = [KeyboardListener])
    by (vm_compute; reflexivity).
  assert (G : Forall (eq SideButtonListener) [SideButtonListener])
    by (repeat constructor).
  exact (proj1 (C9_origin_indistinguishable code_inspecting 4
                  [SideButtonListener] s s1 s2 (Native native_sideClick)
                  Keyboard Hw Ls G Lk eq_refl I R1 R2)).
Defined.

(** In a walk without a guard, the first callback that throws ends it:
    the walk returns that exception, and the members after the thrower
    are not called. *)
Lemma unguarded_walk_stops (the_set : State -> JSSet.t)
  (callbackfn : Handler -> Step) (pre suf : JSSet.t) (h : Handler)
  (e : Exn) (s : State) (fuel : nat) :
  the_set s = pre ++ Some h :: suf ->
  (forall x, In x (JSSet.values pre) -> steady the_set callbackfn x) ->
  fst (callbackfn h (run_all callbackfn (JSSet.values pre) s)) = Throw e ->
  List.length pre < fuel ->
  forEach fuel the_set callbackfn 0 s
  = Some (Throw e,
          snd (callbackfn h (run_all callbackfn (JSSet.values pre) s))).
Proof.
  intros E St T F.
  replace fuel with (List.length pre + S (fuel - List.length pre - 1)) by lia.
  pose proof (forEach_segment the_set callbackfn pre [] (Some h :: suf) s
                (S (fuel - List.length pre - 1)) E St) as W.
  cbn [List.length Nat.add] in W. rewrite W. clear W.
  cbn [forEach]. rewrite run_all_set by assumption.
  rewrite E, nth_error_middle.
  destruct (callbackfn h (run_all callbackfn (JSSet.values pre) s))
    as [c s1]. simpl in T. subst c. reflexivity.
Qed.

(** ** The scenarios of the spec, run on the model *)

Example scenario_A :
  exists s',
    onPluginMessage (fun _ _ => quiet) 3 (hi_p1 (Some x_is_1))
      (subscribe_all [1; 2] (loaded true true)) = Some (Normal, s')
    /\ map snd (calls s')
       = [ArgEnvelope {| response := hi_p1 (Some x_is_1);
                         parsedData := JSparsed (JSON.Obj [("x", JSON.Number "1")]) |};
          ArgEnvelope {| response := hi_p1 (Some x_is_1);
                         parsedData := JSparsed (JSON.Obj [("x", JSON.Number "1")]) |}].
Proof. eexists. split; vm_compute; reflexivity. Qed.

Example scenario_B :
  exists s',
    onPluginMessage (fun _ _ => quiet) 3 (hi_p1 (Some "not json"))
      (subscribe_all [1; 2] (loaded true true)) = Some (Normal, s')
    /\ map snd (calls s')
       = [ArgEnvelope {| response := hi_p1 (Some "not json");
                         parsedData := JSstring "not json" |};
          ArgEnvelope {| response := hi_p1 (Some "not json");
                         parsedData := JSstring "not json" |}].
Proof. eexists. split; vm_compute; reflexivity. Qed.

Example scenario_D :
  exists s',
    dispatchEvent (fun _ _ => quiet) 3
      {| ev_type := HW scrollUp; ev_code := None; ev_source := None |}
      (DeviceControls_on scrollWheel 1
         (snd (init default_options (loaded true true)))) = Some s'
    /\ calls s'
       = [(1, ArgScroll
                {| direction := up;
                   event := {| ev_type := HW scrollUp; ev_code := None;
                               ev_source := None |} |})].
Proof. eexists. split; vm_compute; reflexivity. Qed.

(* ================================================================== *)
(** * Further properties of the code *)

(** ** The senders built on [sendMessage] *)

Lemma async_await (call : State -> CallResult * State) (s : State) :
  (forall e, fst (call s) <> Threw e) ->
  async (await call) s = call s.
Proof.
  unfold async, await. destruct (call s) as [[e|[|e]] s']; simpl; intros N.
  - now destruct (N e).
  - reflexivity.
  - reflexivity.
Qed.

Lemma sendMessage_never_throws (msg : string) (opts : MessageOptions)
  (s : State) (e : Exn) :
  fst (sendMessage msg opts s) <> Threw e.
Proof.
  unfold sendMessage, async, sendMessage_body.
  destruct (has_PluginMessageHandler s); discriminate.
Qed.

Lemma askLLM_is_sendMessage (msg : string) (o : OptionsObject) (s : State) :
  askLLM msg o s = sendMessage msg (llm_message_options o) s.
Proof.
  unfold askLLM. apply async_await. intros e. apply sendMessage_never_throws.
Qed.

Lemma speakText_is_sendMessage (text : string) (o : OptionsObject) (s : State) :
  speakText text o s = sendMessage text (speak_message_options o) s.
Proof.
  unfold speakText. apply async_await. intros e. apply sendMessage_never_throws.
Qed.

Lemma askLLMSpeak_is_sendMessage (msg : string) (save : bool) (s : State) :
  askLLMSpeak msg save s
  = sendMessage msg (llm_message_options (speak_and_journal save)) s.
Proof.
  unfold askLLMSpeak. rewrite async_await; [apply askLLM_is_sendMessage|].
  intros e. rewrite askLLM_is_sendMessage. apply sendMessage_never_throws.
Qed.

Lemma askLLMJSON_is_sendMessage (msg : string) (o : OptionsObject) (s : State) :
  askLLMJSON msg o s
  = sendMessage (jsonMessage msg) (llm_message_options o) s.
Proof.
  unfold askLLMJSON. rewrite async_await; [apply askLLM_is_sendMessage|].
  intros e. rewrite askLLM_is_sendMessage. apply sendMessage_never_throws.
Qed.

Lemma searchWeb_is_sendMessage (query : string) (o : OptionsObject)
  (s : State) :
  searchWeb query o s
  = sendMessage (search_message query) (search_message_options o) s.
Proof. reflexivity. Qed.

Lemma includes_app_r (needle a b : string) :
  includes needle b = true -> includes needle (a ++ b)%string = true.
Proof.
  intros I. induction a as [|c a IH]; [exact I|].
  cbn [append includes].
  destruct (prefix needle (String c (a ++ b))); [reflexivity | exact IH].
Qed.

(** Whatever the prompt, the text [askLLMJSON] sends mentions JSON; a
    prompt that already does is sent as it is. *)
Lemma jsonMessage_includes (msg : string) :
  includes "JSON" (jsonMessage msg) = true
  /\ (includes "JSON" msg = true -> jsonMessage msg = msg).
Proof.
  unfold jsonMessage. destruct (includes "JSON" msg) eqn:E.
  - split; [exact E | reflexivity].
  - split; [|discriminate]. apply includes_app_r. reflexivity.
Qed.

Lemma analyzeData_is_sendMessage (prompt : string)
  (data : option (Stringified string)) (s : State) :
  stringifies data ->
  analyzeData prompt data s
  = sendMessage (jsonMessage (analysis_message prompt data))
      (llm_message_options empty_object) s.
Proof.
  intros N.
  assert (E : analyzeData prompt data s
              = async (await (askLLMJSON (analysis_message prompt data)
                                empty_object)) s).
  { unfold analyzeData, async.
    destruct data as [[e| |t]|]; trivial. now destruct (N e). }
  rewrite E, async_await; [apply askLLMJSON_is_sendMessage|].
  intros e. rewrite askLLMJSON_is_sendMessage. apply sendMessage_never_throws.
Qed.

Lemma analyzeData_throws (prompt : string) (e : Exn) (s : State) :
  analyzeData prompt (Some (Throws e)) s = (Returned (Rejected e), s).
Proof. reflexivity. Qed.

Lemma performTask_is_sendMessage (task : string) (save : bool) (s : State) :
  performTask task save s
  = sendMessage task (llm_message_options (speak_and_journal save)) s.
Proof.
  unfold performTask. rewrite async_await; [apply askLLMSpeak_is_sendMessage|].
  intros e. rewrite askLLMSpeak_is_sendMessage. apply sendMessage_never_throws.
Qed.

Lemma textToSpeech_is_sendMessage (text : string) (save : bool) (s : State) :
  textToSpeech text save s
  = sendMessage text (speak_message_options (journal_only save)) s.
Proof.
  unfold textToSpeech. rewrite async_await; [apply speakText_is_sendMessage|].
  intros e. rewrite speakText_is_sendMessage. apply sendMessage_never_throws.
Qed.

Lemma sendMessage_absent (msg : string) (opts : MessageOptions) (s : State) :
  has_PluginMessageHandler s = false ->
  sendMessage msg opts s = (Returned (Rejected (Error not_available)), s).
Proof.
  intros A. unfold sendMessage, async, sendMessage_body. now rewrite A.
Qed.

Lemma sendMessage_present (msg : string) (opts : MessageOptions) (s : State) :
  has_PluginMessageHandler s = true ->
  sendMessage msg opts s
  = (Returned Fulfilled,
     post (JSON_stringify {| message := msg; options := opts |}) s).
Proof.
  intros A. unfold sendMessage, async, sendMessage_body. now rewrite A.
Qed.

(** X1: the senders of [R1Messaging] and [LLMHelpers] have the failure
    behaviour of [sendMessage], whatever options object they are given.
    With the transport handle absent each of them posts nothing, changes
    nothing and returns a promise rejected with the same [Error]; with
    the handle present each posts exactly one message and its promise is
    fulfilled.  [analyzeData] is among them when [JSON.stringify(data)]
    returns; when it throws, [analyzeData] posts nothing and its promise
    is rejected with what was thrown, handle or no handle. *)
Theorem senders_fail_alike
  (s : State) (msg : string) (o : OptionsObject) (save : bool)
  (data : option (Stringified string)) (e : Exn) :
  stringifies data ->
  (has_PluginMessageHandler s = false ->
   Forall (fun r => r = (Returned (Rejected (Error not_available)), s))
     [askLLM msg o s; speakText msg o s; askLLMSpeak msg save s;
      askLLMJSON msg o s; searchWeb msg o s; analyzeData msg data s;
      performTask msg save s; textToSpeech msg save s])
  /\ (has_PluginMessageHandler s = true ->
      Forall (fun r => fst r = Returned Fulfilled
                       /\ exists text, snd r = post text s)
        [askLLM msg o s; speakText msg o s; askLLMSpeak msg save s;
         askLLMJSON msg o s; searchWeb msg o s; analyzeData msg data s;
         performTask msg save s; textToSpeech msg save s])
  /\ analyzeData msg (Some (Throws e)) s = (Returned (Rejected e), s).
Proof.
  intros St.
  rewrite askLLM_is_sendMessage, speakText_is_sendMessage,
    askLLMSpeak_is_sendMessage, askLLMJSON_is_sendMessage,
    searchWeb_is_sendMessage, (analyzeData_is_sendMessage msg data s St),
    performTask_is_sendMessage, textToSpeech_is_sendMessage.
  split; [|split]; [intros A | intros A | reflexivity].
  - repeat constructor; now apply sendMessage_absent.
  - repeat (apply Forall_cons; [|]); try apply Forall_nil;
      rewrite sendMessage_present by assumption;
      (split; [reflexivity | eexists; reflexivity]).
Qed.

Lemma senders_fail_alike_witness :
  askLLMJSON "hi" empty_object (loaded true false)
  = (Returned (Rejected (Error not_available)), loaded true false)
  /\ fst (askLLMJSON "hi" empty_object (loaded true true)) = Returned Fulfilled
  /\ analyzeData "hi" (Some (Throws (TypeError "cyclic object value")))
       (loaded true true)
     = (Returned (Rejected (TypeError "cyclic object value")), loaded true true).
Proof.
  assert (St : stringifies None) by (intros e; discriminate).
  destruct (senders_fail_alike (loaded true false) "hi" empty_object false
              None (TypeError "cyclic object value") St) as (A & _ & _).
  destruct (senders_fail_alike (loaded true true) "hi" empty_object false
              None (TypeError "cyclic object value") St) as (_ & B & C).
  specialize (A eq_refl). specialize (B eq_refl).
  split; [|split].
  - inversion A as [|? ? _ A1]. inversion A1 as [|? ? _ A2].
    inversion A2 as [|? ? _ A3]. inversion A3 as [|? ? E _]. exact E.
  - inversion B as [|? ? _ B1]. inversion B1 as [|? ? _ B2].
    inversion B2 as [|? ? _ B3]. inversion B3 as [|? ? [E _] _]. exact E.
  - exact C.
Defined.

(** X2: what [askLLMJSON] posts.  The message it sends always contains
    the word JSON: a prompt that contains it is sent unchanged, any other
    gets the request for a JSON object appended.  The payload has
    [useLLM: true] unless the options object has a [useLLM] property of
    its own, which then wins, the spread coming last: its value is
    posted, and nothing if that value is [undefined].  [analyzeData],
    when [JSON.stringify(data)] returns, builds a message that always
    contains JSON, so it is sent without the appended sentence, with
    [useLLM: true] and no other option. *)
Theorem askLLMJSON_mentions_JSON
  (msg : string) (o : OptionsObject) (prompt : string)
  (data : option (Stringified string)) (s : State) :
  has_PluginMessageHandler s = true ->
  stringifies data ->
  snd (askLLMJSON msg o s)
  = post (JSON_stringify {| message := jsonMessage msg;
                            options := llm_message_options o |}) s
  /\ useLLM (llm_message_options o)
     = match o_useLLM o with
       | Absent => Some true
       | Undefined => None
       | Given b => Some b
       end
  /\ includes "JSON" (jsonMessage msg) = true
  /\ (includes "JSON" msg = true -> jsonMessage msg = msg)
  /\ (includes "JSON" msg = false -> jsonMessage msg = (msg ++ please_json)%string)
  /\ snd (analyzeData prompt data s)
     = post (JSON_stringify
               {| message := analysis_message prompt data;
                  options := {| useLLM := Some true; useSerpAPI := None;
                                wantsR1Response := None;
                                wantsJournalEntry := None;
                                pluginId := None; imageBase64 := None |} |}) s.
Proof.
  intros A St. destruct (jsonMessage_includes msg) as [I U].
  split; [|split; [|split; [exact I | split; [exact U | split]]]].
  - rewrite askLLMJSON_is_sendMessage, sendMessage_present by assumption.
    reflexivity.
  - unfold llm_message_options, as_options, spread. cbn [useLLM o_useLLM].
    now destruct (o_useLLM o).
  - intros N. unfold jsonMessage. now rewrite N.
  - rewrite (analyzeData_is_sendMessage prompt data s St),
      sendMessage_present by assumption.
    destruct (jsonMessage_includes (analysis_message prompt data)) as [_ V].
    rewrite V; [reflexivity|].
    unfold analysis_message. apply includes_app_r. reflexivity.
Qed.

Lemma askLLMJSON_mentions_JSON_witness :
  jsonMessage "List three colours" = "List three colours. Please respond with a valid JSON object."
  /\ jsonMessage "Reply in JSON" = "Reply in JSON"
  /\ useLLM (llm_message_options
               {| o_useLLM := Given false; o_useSerpAPI := Absent;
                  o_wantsR1Response := Absent; o_wantsJournalEntry := Absent;
                  o_pluginId := Absent; o_imageBase64 := Absent |})
     = Some false.
Proof.
  assert (St : stringifies None) by (intros e; discriminate).
  destruct (askLLMJSON_mentions_JSON "List three colours" empty_object
              "p" None (loaded true true) eq_refl St) as (_ & _ & _ & _ & A & _).
  destruct (askLLMJSON_mentions_JSON "Reply in JSON"
              {| o_useLLM := Given false; o_useSerpAPI := Absent;
                 o_wantsR1Response := Absent; o_wantsJournalEntry := Absent;
                 o_pluginId := Absent; o_imageBase64 := Absent |}
              "p" None (loaded true true) eq_refl St) as (_ & C & _ & B & _).
  split; [apply A | split; [apply B | exact C]]; reflexivity.
Defined.

(** X3: the flags of the senders.  [askLLMSpeak] and [performTask], which
    take no options object, always post [useLLM: true],
    [wantsR1Response: true] and the journal flag, and nothing else;
    [textToSpeech] always posts [useLLM: false], [wantsR1Response: true]
    and the journal flag.  [speakText] sets [useLLM: false] and
    [wantsR1Response: true], and [searchWeb] sets [useSerpAPI: true] on a
    message that is the JSON text of the query object, but both spread
    the caller's object last: a property of that name in it wins, and its
    other properties are passed on. *)
Theorem sender_flags
  (text query : string) (o : OptionsObject) (save : bool) (s : State) :
  has_PluginMessageHandler s = true ->
  (forall send, In send [askLLMSpeak; performTask] ->
     snd (send text save s)
     = post (JSON_stringify
               {| message := text;
                  options := {| useLLM := Some true; useSerpAPI := None;
                                wantsR1Response := Some true;
                                wantsJournalEntry := Some save;
                                pluginId := None; imageBase64 := None |} |}) s)
  /\ snd (textToSpeech text save s)
     = post (JSON_stringify
               {| message := text;
                  options := {| useLLM := Some false; useSerpAPI := None;
                                wantsR1Response := Some true;
                                wantsJournalEntry := Some save;
                                pluginId := None; imageBase64 := None |} |}) s
  /\ snd (speakText text o s)
     = post (JSON_stringify
               {| message := text;
                  options := {| useLLM := posted_value false (o_useLLM o);
                                useSerpAPI := read (o_useSerpAPI o);
                                wantsR1Response :=
                                  posted_value true (o_wantsR1Response o);
                                wantsJournalEntry := read (o_wantsJournalEntry o);
                                pluginId := read (o_pluginId o);
                                imageBase64 := read (o_imageBase64 o) |} |}) s
  /\ snd (searchWeb query o s)
     = post (JSON_stringify
               {| message := search_message query;
                  options := {| useLLM := read (o_useLLM o);
                                useSerpAPI :=
                                  posted_value true (o_useSerpAPI o);
                                wantsR1Response := read (o_wantsR1Response o);
                                wantsJournalEntry := read (o_wantsJournalEntry o);
                                pluginId := read (o_pluginId o);
                                imageBase64 := read (o_imageBase64 o) |} |}) s.
Proof.
  intros A. split; [|split; [|split]].
  - intros send [<-|[<-|[]]].
    + rewrite askLLMSpeak_is_sendMessage, sendMessage_present by assumption.
      reflexivity.
    + rewrite performTask_is_sendMessage, sendMessage_present by assumption.
      reflexivity.
  - rewrite textToSpeech_is_sendMessage, sendMessage_present by assumption.
    reflexivity.
  - rewrite speakText_is_sendMessage, sendMessage_present by assumption.
    unfold speak_message_options, as_options, spread.
    cbn [o_useLLM o_useSerpAPI o_wantsR1Response o_wantsJournalEntry
         o_pluginId o_imageBase64].
    destruct o as [a b c d e f]. cbn [o_useLLM o_useSerpAPI o_wantsR1Response
      o_wantsJournalEntry o_pluginId o_imageBase64].
    destruct a, b, c, d, e, f; reflexivity.
  - rewrite searchWeb_is_sendMessage, sendMessage_present by assumption.
    unfold search_message_options, as_options, spread.
    destruct o as [a b c d e f]. cbn [o_useLLM o_useSerpAPI o_wantsR1Response
      o_wantsJournalEntry o_pluginId o_imageBase64].
    destruct a, b, c, d, e, f; reflexivity.
Qed.

Lemma sender_flags_witness :
  snd (speakText "Good morning"
         {| o_useLLM := Given true; o_useSerpAPI := Absent;
            o_wantsR1Response := Given false; o_wantsJournalEntry := Absent;
            o_pluginId := Absent; o_imageBase64 := Absent |}
         (loaded true true))
  = post (JSON_stringify
            {| message := "Good morning";
               options := {| useLLM := Some true; useSerpAPI := None;
                             wantsR1Response := Some false;
                             wantsJournalEntry := None;
                             pluginId := None; imageBase64 := None |} |})
      (loaded true true).
Proof.
  destruct (sender_flags "Good morning" "q"
              {| o_useLLM := Given true; o_useSerpAPI := Absent;
                 o_wantsR1Response := Given false; o_wantsJournalEntry := Absent;
                 o_pluginId := Absent; o_imageBase64 := Absent |}
              false (loaded true true) eq_refl) as (_ & _ & A & _).
  exact A.
Defined.

(** ** Unsubscribing from the response dispatcher *)

Lemma set_messageHandlers_same (s : State) :
  set_messageHandlers (messageHandlers s) s = s.
Proof. now destruct s. Qed.




(** X5: [offMessage].  Unregistering a function that is not registered
    changes nothing at all.  With consumers that leave the registry
    alone, a payload that arrives after [offMessage h] reaches exactly the
    consumers that remain, in their order, and never [h].  A consumer
    unregistered and registered again is from then on called last. *)
Theorem offMessage_removes
  (code : Handler -> Arg -> Behaviour) (data : PluginMessageResponse)
  (s : State) (h : Handler) (fuel : nat) :
  (forall x, In x (JSSet.values (messageHandlers s)) ->
             leaves touches_messages (code x (ArgEnvelope (enhance data))) = true) ->
  List.length (messageHandlers s) < fuel ->
  (~ In h (JSSet.values (messageHandlers s)) -> offMessage h s = s)
  /\ (exists s',
         onPluginMessage code fuel data (offMessage h s) = Some (Normal, s')
         /\ map fst (delivered (offMessage h s) s')
            = remove Nat.eq_dec h (JSSet.values (messageHandlers s))
         /\ ~ In h (map fst (delivered (offMessage h s) s')))
  /\ JSSet.values (messageHandlers (onMessage h (offMessage h s)))
     = remove Nat.eq_dec h (JSSet.values (messageHandlers s)) ++ [h].
Proof.
  intros L F. split; [|split].
  - intros N. unfold offMessage. rewrite JSSetFacts.delete_absent by assumption.
    apply set_messageHandlers_same.
  - assert (V : JSSet.values (messageHandlers (offMessage h s))
                = remove Nat.eq_dec h (JSSet.values (messageHandlers s))).
    { unfold offMessage. simpl. apply JSSetFacts.values_delete. }
    eexists. split; [|split].
    + apply onPluginMessage_steady.
      * rewrite V. intros x I. apply in_remove in I. apply L. tauto.
      * unfold offMessage. simpl. now rewrite JSSetFacts.length_delete.
    + erewrite delivered_app by apply run_all_guarded_calls.
      now rewrite map_fst_each_with.
    + erewrite delivered_app by apply run_all_guarded_calls.
      rewrite map_fst_each_with, V. apply remove_In.
  - unfold onMessage, offMessage. simpl.
    rewrite JSSetFacts.values_add, JSSetFacts.has_delete.
    now rewrite JSSetFacts.values_delete.
Qed.

Lemma offMessage_removes_witness :
  JSSet.values (messageHandlers
                  (onMessage 1 (offMessage 1
                     (subscribe_all [1; 2; 3] (loaded true true)))))
  = remove Nat.eq_dec 1
      (JSSet.values (messageHandlers (subscribe_all [1; 2; 3] (loaded true true))))
    ++ [1].
Proof.
  assert (F : List.length (messageHandlers
                             (subscribe_all [1; 2; 3] (loaded true true))) < 4)
    by (vm_compute; lia).
  exact (proj2 (proj2 (offMessage_removes (fun _ _ => quiet) (hi_p1 None)
                         (subscribe_all [1; 2; 3] (loaded true true)) 1 4
                         (fun _ _ => eq_refl) F))).
Defined.

(** X6: installing the inbound slot.  A second call of
    [initializeMessageHandler] changes nothing; without [window] nothing
    is installed and the instance stays uninitialized; with [window] the
    first call installs the slot; and no call touches the registered
    consumers. *)
Theorem initializeMessageHandler_once (s : State) :
  initializeMessageHandler (initializeMessageHandler s)
  = initializeMessageHandler s
  /\ (has_window s = false -> initializeMessageHandler s = s)
  /\ (has_window s = true -> isInitialized s = false ->
      window_onPluginMessage (initializeMessageHandler s) = true
      /\ isInitialized (initializeMessageHandler s) = true)
  /\ messageHandlers (initializeMessageHandler s) = messageHandlers s.
Proof.
  unfold initializeMessageHandler.
  destruct (isInitialized s) eqn:I, (has_window s) eqn:W; simpl;
    rewrite ?I, ?W; simpl; repeat split; try discriminate; trivial.
Qed.

Lemma initializeMessageHandler_once_witness :
  window_onPluginMessage (initializeMessageHandler (blank true true)) = true
  /\ initializeMessageHandler (blank false true) = blank false true.
Proof.
  destruct (initializeMessageHandler_once (blank true true)) as (_ & _ & A & _).
  destruct (initializeMessageHandler_once (blank false true)) as (_ & B & _).
  split; [apply A | apply B]; reflexivity.
Defined.

(** ** The hardware event normalizer *)

Lemma hardware_on_kept (t : HardwareEventType) (h : Handler) (s : State) :
  window_listeners (HardwareEvents_on t h s) = window_listeners s
  /\ eventListeners (HardwareEvents_on t h s) = eventListeners s
  /\ calls (HardwareEvents_on t h s) = calls s.
Proof. unfold HardwareEvents_on. break_match; repeat split. Qed.

Lemma callbacks_of_on_other (t t' : HardwareEventType) (h : Handler)
  (s : State) :
  t <> t' -> callbacks_of t (HardwareEvents_on t' h s) = callbacks_of t s.
Proof.
  intros N. unfold callbacks_of, HardwareEvents_on, hw_get, hw_set, JSMap.has.
  destruct (JSMap.get HardwareEventType_eqb t' (listeners s)) as [x|] eqn:G.
  - rewrite G. simpl.
    now rewrite (JSMapFacts.get_set_other _ _ _ HardwareEventType_eqb_eq).
  - rewrite (JSMapFacts.get_set_same _ _ _ HardwareEventType_eqb_eq). simpl.
    now rewrite !(JSMapFacts.get_set_other _ _ _ HardwareEventType_eqb_eq).
Qed.

Lemma hardware_subscribe_all_kept (t : HardwareEventType) (hs : list Handler) :
  forall s,
    window_listeners (hardware_subscribe_all t hs s) = window_listeners s
    /\ eventListeners (hardware_subscribe_all t hs s) = eventListeners s
    /\ calls (hardware_subscribe_all t hs s) = calls s.
Proof.
  unfold hardware_subscribe_all.
  induction hs as [|h hs IH]; simpl; intros s; [repeat split|].
  destruct (IH (HardwareEvents_on t h s)) as (A & B & C).
  destruct (hardware_on_kept t h s) as (A' & B' & C').
  rewrite A, B, C. auto.
Qed.

Lemma hardware_subscribe_all_callbacks (t : HardwareEventType)
  (hs : list Handler) :
  forall s,
    NoDup hs ->
    (forall h, In h hs -> ~ In h (JSSet.values (callbacks_of t s))) ->
    callbacks_of t (hardware_subscribe_all t hs s)
    = callbacks_of t s ++ map Some hs.
Proof.
  unfold hardware_subscribe_all.
  induction hs as [|h hs IH]; simpl; intros s N F.
  - now rewrite app_nil_r.
  - inversion N as [|? ? Nh N']; subst.
    assert (A : callbacks_of t (HardwareEvents_on t h s)
                = callbacks_of t s ++ [Some h]).
    { rewrite callbacks_of_on. apply add_fresh. apply F. now left. }
    rewrite IH; trivial.
    + rewrite A, <- app_assoc. reflexivity.
    + intros h' I. rewrite A, JSSetFacts.values_app. simpl.
      intros J. apply in_app_or in J as [J|[J|[]]].
      * apply (F h'); tauto.
      * congruence.
Qed.

Lemma hardware_subscribe_all_other (t t' : HardwareEventType)
  (hs : list Handler) :
  t <> t' ->
  forall s, callbacks_of t (hardware_subscribe_all t' hs s) = callbacks_of t s.
Proof.
  intros N. unfold hardware_subscribe_all.
  induction hs as [|h hs IH]; simpl; intros s; trivial.
  rewrite IH. now apply callbacks_of_on_other.
Qed.

Lemma listeners_for_loaded (t : HardwareEventType) (pmh : bool) :
  listeners_for (HW t) (loaded true pmh) = [HardwareListener t].
Proof. destruct t, pmh; vm_compute; reflexivity. Qed.

(** X7: one hardware signal, raised on [window] after the modules are
    loaded, calls each consumer registered for its tag exactly once, with
    no argument, in the order of registration, and calls no consumer of
    another tag (consumers that neither throw nor touch the hardware
    registry). *)
Theorem hardware_fanout_by_tag
  (code : Handler -> Arg -> Behaviour) (t t' : HardwareEventType)
  (hs hs' : list Handler) (pmh : bool) (e : Event) (fuel : nat) :
  NoDup hs ->
  t <> t' ->
  (forall h, In h hs ->
             leaves touches_hardware (code h ArgNone) = true
             /\ hb_throws (code h ArgNone) = false) ->
  ev_type e = HW t ->
  List.length hs + 1 < fuel ->
  exists s',
    dispatchEvent code fuel e
      (hardware_subscribe_all t' hs'
         (hardware_subscribe_all t hs (loaded true pmh)))
    = Some s'
    /\ delivered
         (hardware_subscribe_all t' hs'
            (hardware_subscribe_all t hs (loaded true pmh))) s'
       = each_with ArgNone hs.
Proof.
  intros N D L T F.
  set (s := hardware_subscribe_all t' hs'
              (hardware_subscribe_all t hs (loaded true pmh))).
  assert (C : callbacks_of t s = map Some hs).
  { unfold s. rewrite hardware_subscribe_all_other by assumption.
    rewrite hardware_subscribe_all_callbacks; trivial.
    intros h _. simpl. tauto. }
  assert (Ls : listeners_for (HW t) s = [HardwareListener t]).
  { unfold s, listeners_for.
    destruct (hardware_subscribe_all_kept t' hs'
                (hardware_subscribe_all t hs (loaded true pmh))) as (W & _).
    destruct (hardware_subscribe_all_kept t hs (loaded true pmh)) as (W' & _).
    rewrite W, W'. apply listeners_for_loaded. }
  destruct fuel as [|f]; [lia|].
  cbn [dispatchEvent]. rewrite T, Ls. cbn [call_listeners run_listener].
  rewrite emit_steady.
  - eexists. split; [reflexivity|].
    erewrite delivered_app by apply run_all_invoke_calls.
    now rewrite C, values_map_Some.
  - rewrite C, values_map_Some. exact L.
  - rewrite C, length_map. lia.
Qed.

Lemma hardware_fanout_by_tag_witness :
  exists s',
    dispatchEvent (fun _ _ => quiet) 4 native_sideClick
      (hardware_subscribe_all scrollUp [3]
         (hardware_subscribe_all sideClick [1; 2] (loaded true true)))
    = Some s'
    /\ delivered
         (hardware_subscribe_all scrollUp [3]
            (hardware_subscribe_all sideClick [1; 2] (loaded true true))) s'
       = each_with ArgNone [1; 2].
Proof.
  apply (hardware_fanout_by_tag (fun _ _ => quiet) sideClick scrollUp
           [1; 2] [3] true native_sideClick 4).
  - repeat constructor; simpl; intuition discriminate.
  - discriminate.
  - intros h _. split; reflexivity.
  - reflexivity.
  - simpl. lia.
Defined.

Section JSMapDelete.

Variables K V : Type.
Variable eqb : K -> K -> bool.
Hypothesis eqb_eq : forall a b, eqb a b = true <-> a = b.

Lemma get_absent (k : K) (m : JSMap.t K V) :
  ~ In k (map fst m) -> JSMap.get eqb k m = None.
Proof.
  induction m as [|[k0 v0] m IH]; simpl; intros N; trivial.
  destruct (eqb k0 k) eqn:E.
  - apply eqb_eq in E. tauto.
  - apply IH. tauto.
Qed.

Lemma get_delete_same (k : K) (m : JSMap.t K V) :
  NoDup (map fst m) -> JSMap.get eqb k (JSMap.delete eqb k m) = None.
Proof.
  induction m as [|[k0 v0] m IH]; simpl; intros N; trivial.
  inversion N as [|? ? N0 N']; subst.
  destruct (eqb k0 k) eqn:E.
  - apply eqb_eq in E. subst k0. now apply get_absent.
  - simpl. rewrite E. now apply IH.
Qed.

Lemma get_delete_other (k k' : K) (m : JSMap.t K V) :
  k <> k' -> JSMap.get eqb k (JSMap.delete eqb k' m) = JSMap.get eqb k m.
Proof.
  intros D. induction m as [|[k0 v0] m IH]; simpl; trivial.
  destruct (eqb k0 k') eqn:E.
  - apply eqb_eq in E. subst k0.
    rewrite (JSMapFacts.eqb_neq _ eqb eqb_eq k' k); [reflexivity | congruence].
  - simpl. now rewrite IH.
Qed.

End JSMapDelete.

Lemma set_listeners_same (s : State) : set_listeners (listeners s) s = s.
Proof. now destruct s. Qed.

Lemma set_eventListeners_same (s : State) :
  set_eventListeners (eventListeners s) s = s.
Proof. now destruct s. Qed.

(** X8: [removeAllListeners].  With a tag it drops that tag's consumers
    and no other's: an event of the tag then calls nobody, and a
    consumer registered afterwards starts a new set.  Without a tag it
    drops the consumers of every tag. *)
Theorem removeAllListeners_clears
  (code : Handler -> Arg -> Behaviour) (t t' t'' : HardwareEventType)
  (h : Handler) (s : State) (fuel : nat) :
  NoDup (map fst (listeners s)) ->
  callbacks_of t (removeAllListeners (Some t) s) = []
  /\ emit code fuel t (removeAllListeners (Some t) s)
     = Some (Normal, removeAllListeners (Some t) s)
  /\ (t' <> t ->
      callbacks_of t' (removeAllListeners (Some t) s) = callbacks_of t' s)
  /\ callbacks_of t'' (removeAllListeners None s) = []
  /\ callbacks_of t (HardwareEvents_on t h (removeAllListeners (Some t) s))
     = [Some h].
Proof.
  intros N.
  assert (G : hw_get t (listeners (removeAllListeners (Some t) s)) = None).
  { unfold hw_get, removeAllListeners. simpl.
    now apply (get_delete_same _ _ _ HardwareEventType_eqb_eq). }
  assert (E : callbacks_of t (removeAllListeners (Some t) s) = []).
  { unfold callbacks_of. now rewrite G. }
  split; [exact E | split; [|split; [|split]]].
  - unfold emit. now rewrite G.
  - intros D. unfold callbacks_of, hw_get, removeAllListeners. simpl.
    now rewrite (get_delete_other _ _ _ HardwareEventType_eqb_eq).
  - reflexivity.
  - rewrite callbacks_of_on, E. reflexivity.
Qed.

Lemma removeAllListeners_clears_witness :
  callbacks_of sideClick
    (removeAllListeners (Some sideClick)
       (hardware_subscribe_all scrollUp [3]
          (hardware_subscribe_all sideClick [1; 2] (loaded true true)))) = []
  /\ callbacks_of scrollUp
       (removeAllListeners (Some sideClick)
          (hardware_subscribe_all scrollUp [3]
             (hardware_subscribe_all sideClick [1; 2] (loaded true true))))
     = [Some 3].
Proof.
  assert (N : NoDup (map fst (listeners
                (hardware_subscribe_all scrollUp [3]
                   (hardware_subscribe_all sideClick [1; 2] (loaded true true)))))).
  { vm_compute. repeat constructor; simpl; intuition discriminate. }
  destruct (removeAllListeners_clears (fun _ _ => quiet) sideClick scrollUp
              sideClick 1 _ 1 N) as (A & _ & B & _).
  split; [exact A|]. rewrite B by discriminate. vm_compute. reflexivity.
Defined.

Lemma callbacks_of_off_other (t t' : HardwareEventType) (h : Handler)
  (s : State) :
  t <> t' -> callbacks_of t (HardwareEvents_off t' h s) = callbacks_of t s.
Proof.
  intros N. unfold callbacks_of, HardwareEvents_off, hw_get, hw_set.
  destruct (JSMap.get HardwareEventType_eqb t' (listeners s)) as [x|] eqn:G;
    trivial.
  simpl. now rewrite (JSMapFacts.get_set_other _ _ _ HardwareEventType_eqb_eq).
Qed.

Lemma handlers_of_off_other (c c' : Channel) (h : Handler) (s : State) :
  c <> c' -> handlers_of c (DeviceControls_off c' h s) = handlers_of c s.
Proof.
  intros N. unfold handlers_of, DeviceControls_off, dc_get, dc_set.
  destruct (JSMap.get Channel_eqb c' (eventListeners s)) as [x|] eqn:G; trivial.
  simpl. now rewrite (JSMapFacts.get_set_other _ _ _ Channel_eqb_eq).
Qed.

(** X9: [off], at the hardware registry and at the gate.  Unregistering
    a function that is not registered for the tag (or channel), or for a
    tag nobody ever registered on, changes nothing at all and creates no
    entry; otherwise exactly that function leaves that tag's consumers,
    the others keep their order, and the other tags (channels) are not
    touched. *)
Theorem off_is_local
  (t t' : HardwareEventType) (c c' : Channel) (h : Handler) (s : State) :
  (~ In h (JSSet.values (callbacks_of t s)) -> HardwareEvents_off t h s = s)
  /\ JSSet.values (callbacks_of t (HardwareEvents_off t h s))
     = remove Nat.eq_dec h (JSSet.values (callbacks_of t s))
  /\ (t' <> t -> callbacks_of t' (HardwareEvents_off t h s) = callbacks_of t' s)
  /\ (~ In h (JSSet.values (handlers_of c s)) -> DeviceControls_off c h s = s)
  /\ JSSet.values (handlers_of c (DeviceControls_off c h s))
     = remove Nat.eq_dec h (JSSet.values (handlers_of c s))
  /\ (c' <> c -> handlers_of c' (DeviceControls_off c h s) = handlers_of c' s).
Proof.
  split; [|split; [|split; [|split; [|split]]]].
  - unfold callbacks_of, HardwareEvents_off, hw_get, hw_set.
    destruct (JSMap.get HardwareEventType_eqb t (listeners s)) as [x|] eqn:G;
      trivial.
    intros N. rewrite JSSetFacts.delete_absent by assumption.
    rewrite (JSMapFacts.set_get _ _ HardwareEventType_eqb) by assumption.
    apply set_listeners_same.
  - rewrite callbacks_of_off. apply JSSetFacts.values_delete.
  - intros D. now apply callbacks_of_off_other.
  - unfold handlers_of, DeviceControls_off, dc_get, dc_set.
    destruct (JSMap.get Channel_eqb c (eventListeners s)) as [x|] eqn:G;
      trivial.
    intros N. rewrite JSSetFacts.delete_absent by assumption.
    rewrite (JSMapFacts.set_get _ _ Channel_eqb) by assumption.
    apply set_eventListeners_same.
  - rewrite handlers_of_off. apply JSSetFacts.values_delete.
  - intros D. now apply handlers_of_off_other.
Qed.

Lemma off_is_local_witness :
  HardwareEvents_off sideClick 9 (loaded true true) = loaded true true
  /\ DeviceControls_off scrollWheel 9
       (DeviceControls_on scrollWheel 1 (loaded true true))
     = DeviceControls_on scrollWheel 1 (loaded true true).
Proof.
  destruct (off_is_local sideClick scrollUp scrollWheel sideButton 9
              (loaded true true)) as (A & _).
  destruct (off_is_local sideClick scrollUp scrollWheel sideButton 9
              (DeviceControls_on scrollWheel 1 (loaded true true)))
    as (_ & _ & _ & B & _).
  split; [apply A | apply B]; vm_compute; intuition discriminate.
Defined.

(** ** The device control gate *)

(** X10: what [init] does.  In a browser it never throws and adds to
    [window], in this order, one [sideClick] listener if the side button
    is enabled, the two scroll listeners if the scroll wheel is enabled,
    and one [keydown] listener unless [keyboardFallback] is [false].
    Without [window] it throws a [ReferenceError] as soon as one of the
    three is wanted.  Either way the two flags are first set to the
    options, [true] where an option is missing, whatever they were
    before, and the registered consumers are left alone. *)
Theorem init_behaviour (opts : DeviceControlsOptions) (s : State) :
  (has_window s = true ->
   fst (init opts s) = Normal
   /\ window_listeners (snd (init opts s))
      = window_listeners s ++ init_listeners opts)
  /\ (has_window s = false ->
      fst (init opts s)
      = (if or_true (opt_sideButtonEnabled opts)
            || or_true (opt_scrollWheelEnabled opts)
            || not_false (opt_keyboardFallback opts)
         then Throw (ReferenceError "window") else Normal)
      /\ window_listeners (snd (init opts s)) = window_listeners s)
  /\ sideButtonEnabled (snd (init opts s))
     = or_true (opt_sideButtonEnabled opts)
  /\ scrollWheelEnabled (snd (init opts s))
     = or_true (opt_scrollWheelEnabled opts)
  /\ eventListeners (snd (init opts s)) = eventListeners s
  /\ listeners (snd (init opts s)) = listeners s.
Proof.
  destruct (has_window s) eqn:W;
    (split; [intros X | split; [intros X|]]); try discriminate X;
    destruct opts as [[[|]|] [[|]|] [[|]|]];
    unfold init, init_listeners, when, andThen, skip, setupSideButtonListener,
      setupScrollWheelListener, setupKeyboardFallback, andThen,
      addEventListener;
    cbn; rewrite ?W; cbn; rewrite ?W; cbn; rewrite ?W; cbn; rewrite ?W; cbn;
    rewrite <- ?app_assoc, ?app_nil_r; auto.
Qed.

Lemma init_behaviour_witness :
  fst (init default_options (loaded false true)) = Throw (ReferenceError "window")
  /\ window_listeners (snd (init side_button_off (loaded true true)))
     = window_listeners (loaded true true) ++ init_listeners side_button_off.
Proof.
  destruct (init_behaviour default_options (loaded false true))
    as (_ & A & _).
  destruct (init_behaviour side_button_off (loaded true true)) as (B & _).
  split; [apply A | apply B]; reflexivity.
Defined.

Lemma controls_on_kept_flags (c : Channel) (h : Handler) (s : State) :
  scrollWheelEnabled (DeviceControls_on c h s) = scrollWheelEnabled s
  /\ has_window (DeviceControls_on c h s) = has_window s.
Proof. unfold DeviceControls_on. break_match; split; reflexivity. Qed.

Lemma controls_subscribe_all_kept_flags (c : Channel) (hs : list Handler) :
  forall s,
    scrollWheelEnabled (controls_subscribe_all c hs s) = scrollWheelEnabled s
    /\ has_window (controls_subscribe_all c hs s) = has_window s.
Proof.
  unfold controls_subscribe_all.
  induction hs as [|h hs IH]; simpl; intros s; [split; reflexivity|].
  destruct (IH (DeviceControls_on c h s)) as (A & B).
  destruct (controls_on_kept_flags c h s) as (A' & B').
  rewrite A, B. auto.
Qed.

Lemma handlers_of_on_other (c c' : Channel) (h : Handler) (s : State) :
  c <> c' -> handlers_of c (DeviceControls_on c' h s) = handlers_of c s.
Proof.
  intros N. unfold handlers_of, DeviceControls_on, dc_get, dc_set, JSMap.has.
  destruct (JSMap.get Channel_eqb c' (eventListeners s)) as [x|] eqn:G.
  - rewrite G. simpl.
    now rewrite (JSMapFacts.get_set_other _ _ _ Channel_eqb_eq).
  - rewrite (JSMapFacts.get_set_same _ _ _ Channel_eqb_eq). simpl.
    now rewrite !(JSMapFacts.get_set_other _ _ _ Channel_eqb_eq).
Qed.

Lemma controls_subscribe_all_other (c c' : Channel) (hs : list Handler) :
  c <> c' ->
  forall s, handlers_of c (controls_subscribe_all c' hs s) = handlers_of c s.
Proof.
  intros N. unfold controls_subscribe_all.
  induction hs as [|h hs IH]; simpl; intros s; trivial.
  rewrite IH. now apply handlers_of_on_other.
Qed.

(** The fan-out of a gate channel over consumers that only return. *)
Lemma channel_fanout_quiet (code : Handler -> Arg -> Behaviour) (c : Channel)
  (a : Arg) (hs : list Handler) (s : State) (fuel : nat) :
  (forall h a, In h hs -> code h a = quiet) ->
  handlers_of c s = map Some hs ->
  List.length hs < fuel ->
  forEach fuel (handlers_of c) (fun h => invoke code h a) 0 s
  = Some (Normal, append_calls (each_with a hs) s).
Proof.
  intros Q Hd F. rewrite handle_steady.
  - rewrite Hd, values_map_Some.
    now rewrite (run_all_quiet code hs Q a hs (incl_refl hs)).
  - rewrite Hd, values_map_Some. intros h I. rewrite Q by assumption.
    split; reflexivity.
  - rewrite Hd, length_map. exact F.
Qed.

Lemma listeners_for_configured (opts : DeviceControlsOptions) (pmh : bool)
  (t : HardwareEventType) :
  listeners_for (HW t) (snd (init opts (loaded true pmh)))
  = HardwareListener t
      :: map snd (filter (fun nl => EventName_eqb (fst nl) (HW t))
                    (init_listeners opts))
  /\ listeners_for keydown (snd (init opts (loaded true pmh)))
     = if not_false (opt_keyboardFallback opts) then [KeyboardListener] else [].
Proof.
  destruct (init_behaviour opts (loaded true pmh)) as (A & _).
  destruct (A eq_refl) as (_ & W).
  unfold listeners_for. rewrite W.
  destruct opts as [[[|]|] [[|]|] [[|]|]], t, pmh;
    split; vm_compute; reflexivity.
Qed.

Lemma scroll_dispatch (code : Handler -> Arg -> Behaviour) (hs : list Handler)
  (d : Direction) (src : option string) (s : State) (fuel : nat) :
  (forall h a, In h hs -> code h a = quiet) ->
  listeners_for (HW (scroll_tag d)) s
  = [HardwareListener (scroll_tag d); ScrollListener d] ->
  hw_get (scroll_tag d) (listeners s) = None ->
  handlers_of scrollWheel s = map Some hs ->
  List.length hs + 1 < fuel ->
  dispatchEvent code fuel (scroll_event d src) s
  = Some (append_calls
            (if scrollWheelEnabled s
             then each_with (ArgScroll {| direction := d;
                                          event := scroll_event d src |}) hs
             else []) s).
Proof.
  intros Q Ls Hw Hd F. destruct fuel as [|f]; [lia|].
  cbn [dispatchEvent]. cbn [scroll_event ev_type]. rewrite Ls.
  cbn [call_listeners run_listener]. unfold emit. rewrite Hw.
  destruct (scrollWheelEnabled s); cbn [negb].
  - unfold handleScrollWheel.
    rewrite (channel_fanout_quiet code scrollWheel _ hs s (S f) Q Hd) by lia.
    reflexivity.
  - now rewrite append_calls_nil.
Qed.

(** X11: the scroll wheel.  On a gate configured once with the scroll
    wheel enabled, a [scrollUp] signal hands every [scrollWheel] consumer
    [{direction: 'up'}] and a [scrollDown] signal [{direction: 'down'}],
    together with the event, once each, as long as the scroll flag is on,
    and nothing while it is off; the side button's flag and consumers
    play no part. *)
Theorem scroll_gate
  (code : Handler -> Arg -> Behaviour) (opts : DeviceControlsOptions)
  (hs_side hs : list Handler) (pmh b b' : bool) (d : Direction)
  (src : option string) (fuel : nat) :
  or_true (opt_scrollWheelEnabled opts) = true ->
  NoDup hs ->
  (forall h a, In h hs -> code h a = quiet) ->
  List.length hs + 1 < fuel ->
  dispatchEvent code fuel (scroll_event d src)
    (setSideButtonEnabled b'
       (setScrollWheelEnabled b
          (controls_subscribe_all sideButton hs_side
             (controls_subscribe_all scrollWheel hs
                (snd (init opts (loaded true pmh)))))))
  = Some (append_calls
            (if b
             then each_with (ArgScroll {| direction := d;
                                          event := scroll_event d src |}) hs
             else [])
            (setSideButtonEnabled b'
               (setScrollWheelEnabled b
                  (controls_subscribe_all sideButton hs_side
                     (controls_subscribe_all scrollWheel hs
                        (snd (init opts (loaded true pmh)))))))).
Proof.
  intros En N Q F.
  set (s0 := snd (init opts (loaded true pmh))).
  set (s1 := controls_subscribe_all scrollWheel hs s0).
  set (s2 := controls_subscribe_all sideButton hs_side s1).
  destruct (init_behaviour opts (loaded true pmh)) as (_ & _ & _ & _ & E0 & L0).
  destruct (controls_subscribe_all_kept scrollWheel hs s0) as (W1 & L1 & _).
  destruct (controls_subscribe_all_kept sideButton hs_side s1) as (W2 & L2 & _).
  apply (scroll_dispatch code hs d src
           (setSideButtonEnabled b' (setScrollWheelEnabled b s2)) fuel Q);
    trivial.
  - change (listeners_for (HW (scroll_tag d)) s2
            = [HardwareListener (scroll_tag d); ScrollListener d]).
    unfold listeners_for, s2. rewrite W2. unfold s1. rewrite W1.
    destruct (listeners_for_configured opts pmh (scroll_tag d)) as (A & _).
    unfold listeners_for in A. fold s0 in A. rewrite A.
    destruct opts as [a [[|]|] c]; try discriminate En;
      destruct a as [[|]|], c as [[|]|], d; reflexivity.
  - change (hw_get (scroll_tag d) (listeners s2) = None).
    unfold s2. rewrite L2. unfold s1. rewrite L1. unfold s0. rewrite L0.
    reflexivity.
  - change (handlers_of scrollWheel s2 = map Some hs).
    unfold s2. rewrite controls_subscribe_all_other by discriminate.
    unfold s1. rewrite controls_subscribe_all_handlers; trivial.
    + unfold handlers_of, s0. rewrite E0. reflexivity.
    + intros h _. unfold handlers_of, s0. rewrite E0. simpl. tauto.
Qed.

Lemma scroll_gate_witness :
  dispatchEvent (fun _ _ => quiet) 3 (scroll_event down None)
    (setSideButtonEnabled false
       (setScrollWheelEnabled true
          (controls_subscribe_all sideButton [2]
             (controls_subscribe_all scrollWheel [1]
                (snd (init default_options (loaded true true)))))))
  = Some (append_calls
            [(1, ArgScroll {| direction := down;
                              event := scroll_event down None |})]
            (setSideButtonEnabled false
               (setScrollWheelEnabled true
                  (controls_subscribe_all sideButton [2]
                     (controls_subscribe_all scrollWheel [1]
                        (snd (init default_options (loaded true true)))))))).
Proof.
  assert (N : NoDup [1]) by (repeat constructor; simpl; tauto).
  assert (F : List.length [1] + 1 < 3) by (simpl; lia).
  exact (scroll_gate (fun _ _ => quiet) default_options [2] [1] true true
           false down None 3 eq_refl N (fun _ _ _ => eq_refl) F).
Defined.

Lemma configured_gate (opts : DeviceControlsOptions) (pmh : bool)
  (hs : list Handler) (b : bool) :
  or_true (opt_sideButtonEnabled opts) = true ->
  NoDup hs ->
  gate_ready hs
    (setSideButtonEnabled b
       (controls_subscribe_all sideButton hs (snd (init opts (loaded true pmh)))))
  /\ has_window
       (setSideButtonEnabled b
          (controls_subscribe_all sideButton hs
             (snd (init opts (loaded true pmh))))) = true
  /\ listeners_for keydown
       (setSideButtonEnabled b
          (controls_subscribe_all sideButton hs
             (snd (init opts (loaded true pmh)))))
     = if not_false (opt_keyboardFallback opts) then [KeyboardListener] else [].
Proof.
  intros En N.
  destruct (init_enabled_ready opts pmh En) as (_ & (Ls & Hw & Hd) & _).
  set (s0 := snd (init opts (loaded true pmh))) in *.
  destruct (controls_subscribe_all_kept sideButton hs s0) as (Kw & Kl & _).
  destruct (controls_subscribe_all_kept_flags sideButton hs s0) as (_ & Kh).
  split; [split; [|split] | split].
  - change (listeners_for (HW sideClick) (controls_subscribe_all sideButton hs s0)
            = [HardwareListener sideClick; SideButtonListener]).
    unfold listeners_for in *. now rewrite Kw.
  - change (hw_get sideClick (listeners (controls_subscribe_all sideButton hs s0))
            = None).
    now rewrite Kl.
  - change (handlers_of sideButton (controls_subscribe_all sideButton hs s0)
            = map Some hs).
    rewrite controls_subscribe_all_handlers; trivial.
    + now rewrite Hd.
    + intros h _. rewrite Hd. simpl. tauto.
  - change (has_window (controls_subscribe_all sideButton hs s0) = true).
    rewrite Kh. unfold s0.
    destruct opts as [[[|]|] [[|]|] [[|]|]], pmh; reflexivity.
  - change (listeners_for keydown (controls_subscribe_all sideButton hs s0)
            = if not_false (opt_keyboardFallback opts)
              then [KeyboardListener] else []).
    unfold listeners_for. rewrite Kw.
    destruct (listeners_for_configured opts pmh sideClick) as (_ & A).
    exact A.
Qed.

(** X21: the side button's gate.  Let the gate be configured by one call
    of [init] with the side button enabled (the default), and let
    consumers [hs], which do nothing but return, be registered on its
    [sideButton] channel.  Then [init] has installed the [sideClick]
    listener, and over every run of flag changes and [sideClick]
    signals: a signal raised while [sideButtonEnabled] is false calls no
    consumer, a signal raised while it is true calls each consumer once
    with that event, with no registration in between; and the listeners
    on [window] are at the end what they were at the start. *)
Theorem side_button_gate
  (code : Handler -> Arg -> Behaviour) (opts : DeviceControlsOptions)
  (hs : list Handler) (pmh : bool) (ops : list GateOp) (fuel : nat) :
  or_true (opt_sideButtonEnabled opts) = true ->
  NoDup hs ->
  (forall h a, In h hs -> code h a = quiet) ->
  List.length hs + 1 < fuel ->
  fst (init opts (loaded true pmh)) = Normal
  /\ In (HW sideClick, SideButtonListener)
        (window_listeners
           (controls_subscribe_all sideButton hs
              (snd (init opts (loaded true pmh)))))
  /\ exists s',
       run_ops code fuel ops
         (controls_subscribe_all sideButton hs
            (snd (init opts (loaded true pmh))))
       = Some s'
       /\ delivered
            (controls_subscribe_all sideButton hs
               (snd (init opts (loaded true pmh)))) s'
          = gated_deliveries hs ops true
       /\ window_listeners s'
          = window_listeners
              (controls_subscribe_all sideButton hs
                 (snd (init opts (loaded true pmh)))).
Proof.
  intros En N Q F.
  destruct (init_enabled_ready opts pmh En) as (I0 & (Ls & Hw & Hd) & Fl).
  set (s0 := snd (init opts (loaded true pmh))) in *.
  destruct (controls_subscribe_all_kept sideButton hs s0) as (Kw & Kl & Kf & Kc).
  assert (R : gate_ready hs (controls_subscribe_all sideButton hs s0)).
  { split; [|split].
    - unfold listeners_for in *. now rewrite Kw.
    - now rewrite Kl.
    - rewrite controls_subscribe_all_handlers; trivial.
      + now rewrite Hd.
      + intros h _. rewrite Hd. simpl. tauto. }
  split; [exact I0 | split].
  - apply listeners_for_In. destruct R as (Ls' & _). rewrite Ls'.
    right. now left.
  - destruct (run_ops_ready code hs Q fuel ops F _ R) as (s' & E & C & W).
    exists s'. split; [exact E | split; [|exact W]].
    rewrite Kf, Fl in C. now apply delivered_app.
Qed.

Lemma side_button_gate_witness :
  exists s',
    run_ops (fun _ _ => quiet) 3
      [SetSideButton false; RaiseSideClick None;
       SetSideButton true; RaiseSideClick None]
      (controls_subscribe_all sideButton [1]
         (snd (init default_options (loaded true true))))
    = Some s'
    /\ delivered
         (controls_subscribe_all sideButton [1]
            (snd (init default_options (loaded true true)))) s'
       = [(1, ArgEvent (sideClick_from None))].
Proof.
  assert (N : NoDup [1]) by (repeat constructor; simpl; tauto).
  assert (F : List.length [1] + 1 < 3) by (simpl; lia).
  destruct (side_button_gate (fun _ _ => quiet) default_options [1] true
              [SetSideButton false; RaiseSideClick None;
               SetSideButton true; RaiseSideClick None] 3
              eq_refl N (fun _ _ _ => eq_refl) F)
    as (_ & _ & s' & E & D & _).
  exists s'. split; [exact E | exact D].
Defined.

(** X12: [triggerSideButton].  On a gate configured once with the side
    button enabled, whose [sideButton] consumers do nothing but return,
    it hands every consumer, once, an event whose [detail.source] is
    'programmatic' while the flag is on, and reaches nobody while the
    flag is off; it returns normally.  Without [window] it throws a
    [ReferenceError] and does nothing. *)
Theorem triggerSideButton_delivers
  (code : Handler -> Arg -> Behaviour) (opts : DeviceControlsOptions)
  (hs : list Handler) (pmh b : bool) (fuel : nat) :
  or_true (opt_sideButtonEnabled opts) = true ->
  NoDup hs ->
  (forall h a, In h hs -> code h a = quiet) ->
  List.length hs + 1 < fuel ->
  triggerSideButton code fuel
    (setSideButtonEnabled b
       (controls_subscribe_all sideButton hs (snd (init opts (loaded true pmh)))))
  = Some (Normal,
          append_calls
            (if b
             then each_with (ArgEvent (CustomEvent sideClick "programmatic")) hs
             else [])
            (setSideButtonEnabled b
               (controls_subscribe_all sideButton hs
                  (snd (init opts (loaded true pmh))))))
  /\ forall s, has_window s = false ->
               triggerSideButton code fuel s
               = Some (Throw (ReferenceError "window"), s).
Proof.
  intros En N Q F. split.
  - destruct (configured_gate opts pmh hs b En N) as (R & W & _).
    unfold triggerSideButton. rewrite W.
    change (CustomEvent sideClick "programmatic")
      with (sideClick_from (Some "programmatic")).
    rewrite (dispatch_ready code hs Q fuel (Some "programmatic") _ R F).
    reflexivity.
  - intros s W. unfold triggerSideButton. now rewrite W.
Qed.

Lemma triggerSideButton_delivers_witness :
  triggerSideButton (fun _ _ => quiet) 3
    (setSideButtonEnabled true
       (controls_subscribe_all sideButton [1]
          (snd (init default_options (loaded true true)))))
  = Some (Normal,
          append_calls
            [(1, ArgEvent (CustomEvent sideClick "programmatic"))]
            (setSideButtonEnabled true
               (controls_subscribe_all sideButton [1]
                  (snd (init default_options (loaded true true)))))).
Proof.
  assert (N : NoDup [1]) by (repeat constructor; simpl; tauto).
  assert (F : List.length [1] + 1 < 3) by (simpl; lia).
  exact (proj1 (triggerSideButton_delivers (fun _ _ => quiet) default_options
                  [1] true true 3 eq_refl N (fun _ _ _ => eq_refl) F)).
Defined.

(** X13: the keyboard fallback.  On a gate configured once with the side
    button enabled, whose [sideButton] consumers do nothing but return:
    if the fallback is installed, one press of the Space key hands every
    consumer, once, an event whose [detail.source] is 'keyboard' (nothing
    while the flag is off); a press of any other key reaches nobody and
    changes nothing; and with [keyboardFallback: false] no key does
    anything. *)
Theorem keyboard_fallback
  (code : Handler -> Arg -> Behaviour) (opts : DeviceControlsOptions)
  (hs : list Handler) (pmh b : bool) (c : string) (fuel : nat) :
  or_true (opt_sideButtonEnabled opts) = true ->
  NoDup hs ->
  (forall h a, In h hs -> code h a = quiet) ->
  List.length hs + 2 < fuel ->
  (not_false (opt_keyboardFallback opts) = true ->
   dispatchEvent code fuel (key Space)
     (setSideButtonEnabled b
        (controls_subscribe_all sideButton hs (snd (init opts (loaded true pmh)))))
   = Some (append_calls
             (if b
              then each_with (ArgEvent (CustomEvent sideClick "keyboard")) hs
              else [])
             (setSideButtonEnabled b
                (controls_subscribe_all sideButton hs
                   (snd (init opts (loaded true pmh)))))))
  /\ (String.eqb c Space = false ->
      dispatchEvent code fuel (key c)
        (setSideButtonEnabled b
           (controls_subscribe_all sideButton hs
              (snd (init opts (loaded true pmh)))))
      = Some (setSideButtonEnabled b
                (controls_subscribe_all sideButton hs
                   (snd (init opts (loaded true pmh))))))
  /\ (opt_keyboardFallback opts = Some false ->
      dispatchEvent code fuel (key c)
        (setSideButtonEnabled b
           (controls_subscribe_all sideButton hs
              (snd (init opts (loaded true pmh)))))
      = Some (setSideButtonEnabled b
                (controls_subscribe_all sideButton hs
                   (snd (init opts (loaded true pmh)))))).
Proof.
  intros En N Q F.
  destruct (configured_gate opts pmh hs b En N) as (R & W & Lk).
  set (s := setSideButtonEnabled b
              (controls_subscribe_all sideButton hs
                 (snd (init opts (loaded true pmh))))) in *.
  destruct fuel as [|f]; [lia|].
  split; [|split].
  - intros Kb. rewrite Kb in Lk.
    change (key Space) with space_key. rewrite (keyboard_path code f s Lk).
    change (CustomEvent sideClick "keyboard")
      with (sideClick_from (Some "keyboard")).
    apply (dispatch_ready code hs Q f (Some "keyboard") s R). lia.
  - intros Ne. cbn [dispatchEvent]. cbn [key ev_type]. rewrite Lk.
    destruct (not_false (opt_keyboardFallback opts)); trivial.
    cbn [call_listeners run_listener ev_code key]. unfold Space in *.
    now rewrite Ne.
  - intros Off. cbn [dispatchEvent]. cbn [key ev_type]. rewrite Lk, Off.
    reflexivity.
Qed.

Lemma keyboard_fallback_witness :
  dispatchEvent (fun _ _ => quiet) 4 (key Space)
    (setSideButtonEnabled true
       (controls_subscribe_all sideButton [1]
          (snd (init default_options (loaded true true)))))
  = Some (append_calls
            [(1, ArgEvent (CustomEvent sideClick "keyboard"))]
            (setSideButtonEnabled true
               (controls_subscribe_all sideButton [1]
                  (snd (init default_options (loaded true true))))))
  /\ dispatchEvent (fun _ _ => quiet) 4 (key "Enter")
       (setSideButtonEnabled true
          (controls_subscribe_all sideButton [1]
             (snd (init default_options (loaded true true)))))
     = Some (setSideButtonEnabled true
               (controls_subscribe_all sideButton [1]
                  (snd (init default_options (loaded true true))))).
Proof.
  assert (N : NoDup [1]) by (repeat constructor; simpl; tauto).
  assert (F : List.length [1] + 2 < 4) by (simpl; lia).
  destruct (keyboard_fallback (fun _ _ => quiet) default_options [1] true true
              "Enter" 4 eq_refl N (fun _ _ _ => eq_refl) F) as (A & B & _).
  split; [apply A | apply B]; reflexivity.
Defined.

(** ** The accelerometer *)

Section AccelerometerFacts.

Variable Options : Type.




(** A second [start] while the sensor runs stops it and starts it again
    for the new callback. *)
Lemma accelerometer_restart (cb cb' : Handler) (o o' : option Options) :
  sensor_calls (sensor_ops Sensor [Start cb o; Start cb' o']
                  (new_accelerometer Options))
  = [SensorStart cb o; SensorStop Options; SensorStart cb' o'].
Proof. reflexivity. Qed.

(** X15: off the device.  In a [window] without the sensor, [start]
    makes [isActive] true and no later [stop] or [start] makes it false
    again, while the host is never called.  Without [window], [start]
    throws a [ReferenceError] but has already marked the instance as
    listening, and from then on every [stop] and [start] throws. *)
Theorem accelerometer_off_device
  (cb : Handler) (o : option Options) (ops : list (SensorOp Options))
  (op : SensorOp Options) :
  (isActive (sensor_ops NoSensor (Start cb o :: ops) (new_accelerometer Options))
   = true
   /\ sensor_calls (sensor_ops NoSensor (Start cb o :: ops)
                      (new_accelerometer Options)) = [])
  /\ fst (accelerometer_start NoWindow cb o (new_accelerometer Options))
     = Throw (ReferenceError "window")
  /\ isActive (sensor_ops NoWindow (Start cb o :: ops) (new_accelerometer Options))
     = true
  /\ fst (sensor_op NoWindow op
            (sensor_ops NoWindow (Start cb o :: ops) (new_accelerometer Options)))
     = Throw (ReferenceError "window").
Proof.
  assert (G : forall env (ops : list (SensorOp Options)) a,
             env <> Sensor ->
             isListening a = true ->
             isListening (sensor_ops env ops a) = true
             /\ sensor_calls (sensor_ops env ops a) = sensor_calls a).
  { intros env l. unfold sensor_ops.
    induction l as [|x l IH]; simpl; intros a E A; [auto|].
    assert (S : isListening (snd (sensor_op env x a)) = true
                /\ sensor_calls (snd (sensor_op env x a)) = sensor_calls a).
    { destruct x as [c p|], env; try (now destruct E); simpl;
        unfold accelerometer_start, accelerometer_stop; rewrite A; auto. }
    destruct S as (S1 & S2). destruct (IH _ E S1) as (I1 & I2).
    split; [exact I1 | now rewrite I2]. }
  split; [|split; [reflexivity | split]].
  - apply (G NoSensor ops); [discriminate | reflexivity].
  - apply (G NoWindow ops); [discriminate | reflexivity].
  - destruct (G NoWindow ops
                (snd (sensor_op NoWindow (Start cb o) (new_accelerometer Options))))
      as (A & _); [discriminate | reflexivity |].
    change (sensor_ops NoWindow (Start cb o :: ops) (new_accelerometer Options))
      with (sensor_ops NoWindow ops
              (snd (sensor_op NoWindow (Start cb o) (new_accelerometer Options)))).
    remember (sensor_ops NoWindow ops
                (snd (sensor_op NoWindow (Start cb o) (new_accelerometer Options))))
      as a eqn:Ea. clear Ea.
    destruct op as [c p|]; cbn [sensor_op];
      unfold accelerometer_start, accelerometer_stop; rewrite A; reflexivity.
Qed.

End AccelerometerFacts.

(** ** Base64 *)

Module Base64Facts.
Import Base64.

Lemma sextet_of_char_of (x : sextet) : sextet_of (char_of x) = Some x.
Proof.
  destruct x as [[[[[[] []] []] []] []] []]; vm_compute; reflexivity.
Qed.

Lemma char_of_plain (x : sextet) :
  is_pad (char_of x) = false /\ is_space (char_of x) = false.
Proof.
  destruct x as [[[[[[] []] []] []] []] []]; split; vm_compute; reflexivity.
Qed.

Lemma bytes_back (a b c : ascii) :
  byte1 (first_of a) (second_of a b) = a
  /\ byte2 (second_of a b) (third_of b c) = b
  /\ byte3 (third_of b c) (fourth_of c) = c.
Proof. destruct a, b, c. repeat split. Qed.

Lemma list_ind3 (A : Type) (P : list A -> Prop) :
  P [] ->
  (forall a, P [a]) ->
  (forall a b, P [a; b]) ->
  (forall a b c r, P r -> P (a :: b :: c :: r)) ->
  forall l, P l.
Proof.
  intros P0 P1 P2 P3.
  assert (G : forall n l, List.length l <= n -> P l).
  { induction n as [|n IH]; intros l L.
    - destruct l; [exact P0 | simpl in L; lia].
    - destruct l as [|a [|b [|c r]]]; auto.
      apply P3. apply IH. simpl in L. lia. }
  intros l. now apply (G (List.length l)).
Qed.

(** A full group followed by anything. *)
Lemma decode_group (a b c d : ascii) (r : list ascii) :
  is_pad d = false ->
  decode (a :: b :: c :: d :: r)
  = match decode4 a b c d, decode r with
    | Some x, Some y => Some (x ++ y)
    | _, _ => None
    end.
Proof.
  intros N. destruct r as [|e r]; [|reflexivity].
  cbn [decode]. rewrite N.
  destruct (decode4 a b c d) as [x|]; [|reflexivity].
  now rewrite app_nil_r.
Qed.

Lemma decode_encode : forall l, decode (encode l) = Some l.
Proof.
  apply list_ind3.
  - reflexivity.
  - intros a. cbn [encode decode]. unfold decode2.
    change (is_pad pad) with true. cbn iota.
    rewrite !sextet_of_char_of.
    now destruct (bytes_back a zero zero) as (-> & _).
  - intros a b. cbn [encode decode]. unfold decode3.
    change (is_pad pad) with true. cbn iota.
    destruct (char_of_plain (third_of b zero)) as (-> & _).
    rewrite !sextet_of_char_of.
    destruct (bytes_back a b zero) as (-> & -> & _). reflexivity.
  - intros a b c r IH. cbn [encode].
    rewrite decode_group by apply char_of_plain.
    unfold decode4. rewrite !sextet_of_char_of, IH.
    destruct (bytes_back a b c) as (-> & -> & ->). reflexivity.
Qed.

Lemma encode_plain : forall l,
  filter (fun c => negb (is_space c)) (encode l) = encode l.
Proof.
  assert (K : forall x r,
             filter (fun c => negb (is_space c)) (char_of x :: r)
             = char_of x :: filter (fun c => negb (is_space c)) r).
  { intros x r. cbn [filter]. now destruct (char_of_plain x) as (_ & ->). }
  apply list_ind3.
  - reflexivity.
  - intros a. cbn [encode]. rewrite !K. reflexivity.
  - intros a b. cbn [encode]. rewrite !K. reflexivity.
  - intros a b c r IH. cbn [encode]. rewrite !K, IH. reflexivity.
Qed.

Lemma atob_btoa (s : string) : atob (btoa s) = Some s.
Proof.
  unfold atob, btoa.
  rewrite list_ascii_of_string_of_list_ascii, encode_plain, decode_encode.
  now rewrite string_of_list_ascii_of_string.
Qed.

Lemma btoa_empty (s : string) : btoa s = EmptyString <-> s = EmptyString.
Proof.
  split; [|intros ->; reflexivity].
  destruct s as [|a [|b [|c r]]]; trivial; discriminate.
Qed.

End Base64Facts.

(** ** Storage *)

Lemma truthy_btoa (s : string) :
  truthy (Some (Base64.btoa s)) = negb (String.eqb s EmptyString).
Proof.
  destruct s as [|a [|b [|c r]]]; reflexivity.
Qed.

Lemma latin1_code_units (s : string) : latin1 (code_units s) = Some s.
Proof.
  unfold code_units. induction s as [|a s IH]; [reflexivity|].
  cbn [list_ascii_of_string map latin1].
  pose proof (nat_ascii_bounded a) as B. apply Nat.ltb_lt in B.
  now rewrite B, IH, ascii_nat_embedding.
Qed.

Lemma latin1_Some (t : JSString) :
  forall s, latin1 t = Some s -> t = code_units s.
Proof.
  unfold code_units. induction t as [|u t IH]; cbn [latin1]; intros s E.
  - inversion E. reflexivity.
  - destruct (Nat.ltb u 256) eqn:B; [|discriminate E].
    destruct (latin1 t) as [r|]; [|discriminate E].
    inversion E; subst s. cbn [list_ascii_of_string map].
    apply Nat.ltb_lt in B. rewrite (nat_ascii_embedding u B).
    f_equal. now apply IH.
Qed.

Lemma window_btoa_code_units (s : string) :
  window_btoa (code_units s) = inr (Base64.btoa s).
Proof. unfold window_btoa. now rewrite latin1_code_units. Qed.

(** X16: Base64 round trip.  For every string, [atob] gives back what
    [btoa] was given, so [Base64Utils.decode(Base64Utils.encode(s),
    false)] is [s]; and with [parseJson] left at its default the same
    call returns [JSON.parse(s)] or throws its [SyntaxError]. *)
Theorem base64_round_trip (s : string) :
  Base64.atob (Base64.btoa s) = Some s
  /\ Base64Utils_encode (Text (code_units s)) = inr (Base64.btoa s)
  /\ Base64Utils_decode (Base64.btoa s) false = inr (StoredText s)
  /\ Base64Utils_decode (Base64.btoa s) true
     = match JSON.parse s with
       | Some v => inr (Parsed v)
       | None => inl SyntaxError
       end.
Proof.
  unfold Base64Utils_decode, Base64Utils_encode.
  rewrite Base64Facts.atob_btoa, window_btoa_code_units. repeat split.
Qed.

Lemma getItem_after_set (k : string) (encoded : string) (p : bool)
  (st : Store) :
  wrapper_getItem k p (store_set k encoded st)
  = fst (safeDecode (Some encoded) p).
Proof.
  unfold wrapper_getItem, store_get, store_set.
  now rewrite (JSMapFacts.get_set_same _ _ _ String.eqb_eq).
Qed.

Lemma getItem_other (k k' : string) (encoded : string) (p : bool)
  (st : Store) :
  k' <> k ->
  wrapper_getItem k' p (store_set k encoded st) = wrapper_getItem k' p st.
Proof.
  intros N. unfold wrapper_getItem, store_get, store_set.
  now rewrite (JSMapFacts.get_set_other _ _ _ String.eqb_eq).
Qed.

Lemma safeDecode_btoa (text : string) (p : bool) :
  fst (safeDecode (Some (Base64.btoa text)) p)
  = if String.eqb text EmptyString then Null
    else if p then match JSON.parse text with
                   | Some v => Parsed v
                   | None => Null
                   end
         else StoredText text.
Proof.
  unfold safeDecode, Base64Utils_decode.
  rewrite truthy_btoa, Base64Facts.atob_btoa.
  destruct (String.eqb text EmptyString); simpl; trivial.
  destruct p; [|reflexivity].
  now destruct (JSON.parse text).
Qed.

(** X17: a string through [StorageWrapper].  [setItem(key, t)] is
    rejected with the [InvalidCharacterError] of [btoa], the host never
    being called, when [t] has a code unit above 0xFF.  Otherwise, after
    [setItem(key, t)]: [getRaw] shows the Base64 text; [getItem(key,
    false)] returns [t], except that the empty string comes back as
    [null]; [getItem(key)], which parses by default, returns
    [JSON.parse(t)] when [t] happens to be JSON text and [null]
    otherwise, so a plain text is not read back; and no other key is
    affected. *)
Theorem stored_text_comes_back
  (k k' : string) (t : JSString) (p : bool) (st : Store) :
  (forall s, latin1 t = Some s ->
     t = code_units s
     /\ exists st',
          wrapper_setItem k (Text t) st = inr st'
          /\ wrapper_getRaw k st' = Some (Base64.btoa s)
          /\ wrapper_getItem k false st'
             = (if String.eqb s EmptyString then Null else StoredText s)
          /\ wrapper_getItem k true st'
             = match JSON.parse s with
               | Some v => Parsed v
               | None => Null
               end
          /\ (k' <> k -> wrapper_getItem k' p st' = wrapper_getItem k' p st))
  /\ (latin1 t = None ->
      wrapper_setItem k (Text t) st = inl InvalidCharacter).
Proof.
  split.
  - intros s L. split; [now apply latin1_Some|].
    unfold wrapper_setItem, Base64Utils_encode, window_btoa. rewrite L.
    eexists. split; [reflexivity | split; [|split; [|split]]].
    + unfold wrapper_getRaw, store_get, store_set.
      now rewrite (JSMapFacts.get_set_same _ _ _ String.eqb_eq).
    + rewrite getItem_after_set, safeDecode_btoa. reflexivity.
    + rewrite getItem_after_set, safeDecode_btoa.
      destruct (String.eqb_spec s EmptyString) as [->|_]; reflexivity.
    + intros N. now apply getItem_other.
  - intros L. unfold wrapper_setItem, Base64Utils_encode, window_btoa.
    now rewrite L.
Qed.

Lemma stored_text_comes_back_witness :
  (exists st',
      wrapper_setItem "greeting" (Text (code_units "hello")) [] = inr st'
      /\ wrapper_getItem "greeting" false st' = StoredText "hello"
      /\ wrapper_getItem "greeting" true st' = Null)
  /\ wrapper_setItem "greeting" (Text [960]) [] = inl InvalidCharacter.
Proof.
  destruct (stored_text_comes_back "greeting" "other" (code_units "hello")
              false []) as (A & _).
  destruct (A "hello" eq_refl) as (_ & st' & S & _ & G & P & _).
  destruct (stored_text_comes_back "greeting" "other" [960] false [])
    as (_ & B).
  split; [exists st'; split; [exact S | split; [exact G | exact P]]|].
  apply B. reflexivity.
Defined.

(** X18: [safeDecode] answers [null], and never an error, for a missing
    value, for the empty string, for a text that [atob] rejects and, when
    asked to parse, for a text whose decoding is not JSON; in the last two
    cases it warns.  Whenever [decode] succeeds on a non-empty text,
    [safeDecode] returns the same value. *)
Theorem safeDecode_null_cases (e : string) (p : bool) :
  safeDecode None p = (Null, None)
  /\ safeDecode (Some EmptyString) p = (Null, None)
  /\ (e <> EmptyString -> Base64.atob e = None ->
      safeDecode (Some e) p = (Null, Some InvalidCharacterError))
  /\ (e <> EmptyString ->
      forall text, Base64.atob e = Some text -> JSON.parse text = None ->
                   safeDecode (Some e) true = (Null, Some SyntaxError))
  /\ (e <> EmptyString ->
      forall v, Base64Utils_decode e p = inr v ->
                safeDecode (Some e) p = (v, None)).
Proof.
  split; [reflexivity | split; [reflexivity | split; [|split]]].
  - intros N A. unfold safeDecode, Base64Utils_decode. rewrite A.
    destruct e; [congruence | reflexivity].
  - intros N text A P. unfold safeDecode, Base64Utils_decode. rewrite A, P.
    destruct e; [congruence | reflexivity].
  - intros N v D. unfold safeDecode. rewrite D.
    destruct e; [congruence | reflexivity].
Qed.

Lemma safeDecode_null_cases_witness :
  safeDecode (Some "%%%") false = (Null, Some InvalidCharacterError)
  /\ safeDecode (Some "aGVsbG8=") true = (Null, Some SyntaxError)
  /\ safeDecode (Some "aGVsbG8=") false = (StoredText "hello", None).
Proof.
  destruct (safeDecode_null_cases "%%%" false) as (_ & _ & A & _).
  destruct (safeDecode_null_cases "aGVsbG8=" true) as (_ & _ & _ & B & _).
  destruct (safeDecode_null_cases "aGVsbG8=" false) as (_ & _ & _ & _ & C).
  split; [|split].
  - apply A; [discriminate | reflexivity].
  - apply (B ltac:(discriminate) "hello"); reflexivity.
  - apply C; [discriminate | reflexivity].
Defined.

Lemma secret_key_injective (k k' : string) :
  secret_key k = secret_key k' -> k = k'.
Proof. unfold secret_key. simpl. intros E. now inversion E. Qed.

(** X19: secrets.  With secure storage present, [setSecret(key, value)]
    is rejected with the [InvalidCharacterError] of [btoa], and stores
    nothing, when [value] has a code unit above 0xFF; otherwise
    [getSecret(key)] after it returns [value] as it was given, never
    parsed, even when it looks like JSON (an empty value comes back as
    [null]), and the secrets kept under other keys and the plain store
    are untouched.  Without secure storage both calls are rejected with
    the [Error] that says so, and without [window] with a
    [ReferenceError]; nothing is stored. *)
Theorem secrets_round_trip
  (k k' : string) (value : JSString) (secure : Store) (h : StorageHost) :
  (sh_window h = true -> sh_secure h = Some secure ->
   (forall v, latin1 value = Some v ->
      value = code_units v
      /\ exists h',
           setSecret k value h = inr h'
           /\ getSecret k h'
              = inr (if String.eqb v EmptyString then Null else StoredText v)
           /\ (k' <> k -> getSecret k' h' = getSecret k' h)
           /\ sh_plain h' = sh_plain h)
   /\ (latin1 value = None -> setSecret k value h = inl InvalidCharacter))
  /\ (sh_window h = true -> sh_secure h = None ->
      setSecret k value h = inl (Error secure_unavailable)
      /\ getSecret k h = inl (Error secure_unavailable))
  /\ (sh_window h = false ->
      setSecret k value h = inl (ReferenceError "window")
      /\ getSecret k h = inl (ReferenceError "window")).
Proof.
  split; [|split].
  - intros W S. split.
    + intros v L. split; [now apply latin1_Some|].
      unfold setSecret, getSecret, get_secure, wrapper_setItem,
        Base64Utils_encode, window_btoa.
      rewrite W, S, L. cbn [negb].
      eexists. split; [reflexivity|]. cbn [sh_window sh_secure sh_plain].
      rewrite ?W. cbn [negb].
      split; [|split; [|reflexivity]].
      * rewrite getItem_after_set, safeDecode_btoa. reflexivity.
      * intros N. f_equal. apply getItem_other.
        intros E. apply N. now apply secret_key_injective.
    + intros L. unfold setSecret, get_secure, wrapper_setItem,
        Base64Utils_encode, window_btoa.
      now rewrite W, S, L.
  - intros W S. unfold setSecret, getSecret, get_secure. rewrite W, S.
    split; reflexivity.
  - intros W. unfold setSecret, getSecret, get_secure. rewrite W.
    split; reflexivity.
Qed.

Lemma secrets_round_trip_witness :
  (exists h',
      setSecret "token" (code_units "123")
        {| sh_window := true; sh_plain := Some []; sh_secure := Some [] |}
      = inr h'
      /\ getSecret "token" h' = inr (StoredText "123"))
  /\ setSecret "token" [960]
       {| sh_window := true; sh_plain := Some []; sh_secure := Some [] |}
     = inl InvalidCharacter.
Proof.
  destruct (secrets_round_trip "token" "other" (code_units "123") []
              {| sh_window := true; sh_plain := Some []; sh_secure := Some [] |})
    as (A & _).
  destruct (A eq_refl eq_refl) as (A1 & _).
  destruct (A1 "123" eq_refl) as (_ & h' & S & G & _).
  destruct (secrets_round_trip "token" "other" [960] []
              {| sh_window := true; sh_plain := Some []; sh_secure := Some [] |})
    as (B & _).
  destruct (B eq_refl eq_refl) as (_ & B2).
  split; [exists h'; split; [exact S | exact G] | apply B2; reflexivity].
Defined.


